(** * Financial-Insight-Engine: the parser, KPI and trend services

    A shallow embedding of
      - backend/app/services/parser_service.py
      - backend/app/services/financial_analysis_service.py
      - backend/app/services/trend_analysis_service.py
      - backend/app/services/ocr_service.py
      - backend/app/utils/company_extract.py
    and the properties of the specification that concern them, followed by
    further properties of the code.

    Conventions of the embedding
      - Python [str] is [string]; the texts are ASCII (the character classes
        [\s], [\d], [\w], [str.upper] and [str.strip] are the ASCII part of
        their Python definitions).
      - Python [float] is the primitive binary64 [float]; an [int] constant
        of the source that meets a float is the float of the same value.
      - [None] is [option]'s [None]; a Python exception is the [Raise] of
        [except].
      - a [dict] is an association list in insertion order, keys unique.
      - [os.path] is [posixpath]: the separator of paths is [/].
      - the file system, [pdfplumber], [pandas] and [clean_text] are fields
        of a record that the OCR service is given.
      - a function of the code is a function of the embedding; where the
        objects that a call shares and changes matter, they live in a
        heap ([Heap]). *)

From Stdlib Require Import ZArith List String Ascii Bool Lia Floats.
From Stdlib Require Import DecimalString Sorting.Permutation Sorting.Sorted.
Import ListNotations.

Open Scope string_scope.
Open Scope list_scope.

Set Implicit Arguments.

(* ================================================================== *)
(** * Python strings *)
(* ================================================================== *)

Module Py.

Definition code (a : ascii) : nat := nat_of_ascii a.

Definition between (lo hi : nat) (a : ascii) : bool :=
  (lo <=? code a)%nat && (code a <=? hi)%nat.

(** [str.isspace], and the class [\s], on ASCII characters: TAB, LF, VT,
    FF, CR, FS, GS, RS, US, space. *)
Definition is_space (a : ascii) : bool :=
  between 9 13 a || between 28 32 a.

Definition is_digit (a : ascii) : bool := between 48 57 a.
Definition is_upper (a : ascii) : bool := between 65 90 a.
Definition is_lower (a : ascii) : bool := between 97 122 a.
Definition is_alpha (a : ascii) : bool := is_upper a || is_lower a.

(** The regular expression class [\w] on ASCII characters: letters,
    digits and the underscore. *)
Definition is_word (a : ascii) : bool :=
  is_alpha a || is_digit a || (code a =? 95)%nat.

Definition lower_char (a : ascii) : ascii :=
  if is_upper a then ascii_of_nat (code a + 32) else a.

Definition upper_char (a : ascii) : ascii :=
  if is_lower a then ascii_of_nat (code a - 32) else a.

Definition chars (s : string) : list ascii := list_ascii_of_string s.
Definition str (l : list ascii) : string := string_of_list_ascii l.

Definition map_str (f : ascii -> ascii) (s : string) : string :=
  str (map f (chars s)).

(** [str.upper] and [str.lower] on ASCII strings. *)
Definition upper : string -> string := map_str upper_char.
Definition lower : string -> string := map_str lower_char.

(** [s.isascii()]. The classes and the case mappings above are Python's on
    ASCII characters only: on others Python's differ ([\w] takes the
    superscript one, [str.upper] leaves the letter kra as it is), and the
    embedding is that of the code on ASCII texts. *)
Definition isascii (s : string) : bool :=
  forallb (fun a => (code a <? 128)%nat) (chars s).

Definition len (s : string) : nat := String.length s.

(** Truthiness of a [str]. *)
Definition nonempty (s : string) : bool :=
  match s with EmptyString => false | String _ _ => true end.

Fixpoint lstrip_by (p : ascii -> bool) (l : list ascii) : list ascii :=
  match l with
  | a :: t => if p a then lstrip_by p t else l
  | [] => []
  end.

Definition rstrip_by (p : ascii -> bool) (l : list ascii) : list ascii :=
  rev (lstrip_by p (rev l)).

Definition strip_by (p : ascii -> bool) (s : string) : string :=
  str (rstrip_by p (lstrip_by p (chars s))).

(** [s.strip()] *)
Definition strip : string -> string := strip_by is_space.

Definition mem_char (a : ascii) (set : string) : bool :=
  existsb (Ascii.eqb a) (chars set).

(** [s.strip(set)] *)
Definition strip_chars (set : string) : string -> string :=
  strip_by (fun a => mem_char a set).

Fixpoint is_prefix (p l : list ascii) : bool :=
  match p, l with
  | [], _ => true
  | a :: p', b :: l' => Ascii.eqb a b && is_prefix p' l'
  | _ :: _, [] => false
  end.

(** [s.startswith(p)] *)
Definition startswith (s p : string) : bool := is_prefix (chars p) (chars s).

Fixpoint is_infix (p l : list ascii) : bool :=
  is_prefix p l || match l with [] => false | _ :: t => is_infix p t end.

(** [sub in s] *)
Definition contains (sub s : string) : bool := is_infix (chars sub) (chars s).

(** [s.replace(c, "")] for a one-character [c]. *)
Definition remove_char (c : ascii) (s : string) : string :=
  str (filter (fun a => negb (Ascii.eqb a c)) (chars s)).

(** [s[:n]] and [s[i:j]] for indices within the string. *)
Definition take (n : nat) (s : string) : string := str (firstn n (chars s)).
Definition slice (i j : nat) (s : string) : string :=
  str (firstn (j - i) (skipn i (chars s))).

(** [len(s.split())]: the number of maximal runs of non-space characters. *)
Fixpoint count_words (inword : bool) (l : list ascii) : nat :=
  match l with
  | [] => 0
  | a :: t =>
      if is_space a then count_words false t
      else if inword then count_words true t else S (count_words true t)
  end.

Definition split_len (s : string) : nat := count_words false (chars s).

(** [s.rsplit(' ', 1)[0]]: what precedes the last space, or [s] itself. *)
Fixpoint drop_through_space (l : list ascii) : option (list ascii) :=
  match l with
  | [] => None
  | a :: t => if Ascii.eqb a " " then Some t else drop_through_space t
  end.

Definition rsplit1_head (s : string) : string :=
  match drop_through_space (rev (chars s)) with
  | Some r => str (rev r)
  | None => s
  end.

(** [str(n)] for a non-negative [int]. *)
Definition str_of_nat (n : nat) : string :=
  NilZero.string_of_uint (Nat.to_uint n).

(** [int(s)] for a string of ASCII digits. *)
Definition int_of_digits (s : string) : nat :=
  fold_left (fun acc a => 10 * acc + (code a - 48)) (chars s) 0.

(** Lexicographic order of [str] by code point, as [sorted] uses it. *)
Fixpoint ltb_chars (a b : list ascii) : bool :=
  match a, b with
  | _, [] => false
  | [], _ :: _ => true
  | x :: a', y :: b' =>
      (code x <? code y)%nat || ((code x =? code y)%nat && ltb_chars a' b')
  end.

Definition str_ltb (a b : string) : bool := ltb_chars (chars a) (chars b).

(** A [str] built by an f-string: the floats it interpolates are kept as
    numbers, their decimal rendering (Python's [repr]) is not modelled. *)
Inductive frag :=
| Text (s : string)
| Float (x : float).

Definition fstring := list frag.

(** [sep.join(parts)] *)
Fixpoint join (sep : string) (parts : list fstring) : fstring :=
  match parts with
  | [] => []
  | [p] => p
  | p :: rest => p ++ Text sep :: join sep rest
  end.

(** Exceptions of the modelled code, with the message [str(e)]. *)
Inductive exn :=
| HTTPException (status_code : nat) (detail : string)
| ValueError (msg : fstring)
| TypeError (msg : string)
| ZeroDivisionError (msg : string).

Inductive except (A : Type) :=
| Ok (a : A)
| Raise (e : exn).

Arguments Ok {A} a.
Arguments Raise {A} e.

Definition bind {A B} (x : except A) (f : A -> except B) : except B :=
  match x with
  | Ok a => f a
  | Raise e => Raise e
  end.

End Py.

Import Py.

Notation "x <- a ;; b" := (Py.bind a (fun x => b))
  (at level 61, a at next level, right associativity).

(* ================================================================== *)
(** * Python's [re]: patterns, compilation and backtracking search *)
(* ================================================================== *)

Module Re.

(** Members of a bracketed set. *)
Inductive citem :=
| CChar (c : ascii)
| CRange (lo hi : ascii)
| CSpace | CDigit | CWord
| CNotSpace | CNotDigit | CNotWord.

Inductive re :=
| Lit (c : ascii)
| AnyChar
| CharSet (negated : bool) (items : list citem)
| WordBoundary
| LineStart
| LineEnd
| Empty
| Cat (r1 r2 : re)
| Alt (r1 r2 : re)
| Rep (r : re) (lo : nat) (hi : option nat) (greedy : bool)
| Group (n : nat) (r : re)
| LookAhead (r : re)
| Never.

Record flags := { IGNORECASE : bool; DOTALL : bool }.

Definition no_flags := {| IGNORECASE := false; DOTALL := false |}.
Definition ignorecase := {| IGNORECASE := true; DOTALL := false |}.
Definition ignorecase_dotall := {| IGNORECASE := true; DOTALL := true |}.

(** ** Compilation of the pattern syntax the sources use *)

Definition escape_item (c : ascii) : citem :=
  match c with
  | "s"%char => CSpace
  | "d"%char => CDigit
  | "w"%char => CWord
  | "S"%char => CNotSpace
  | "D"%char => CNotDigit
  | "W"%char => CNotWord
  | "n"%char => CChar "010"%char
  | "r"%char => CChar "013"%char
  | "t"%char => CChar "009"%char
  | _ => CChar c
  end.

(** The members of a set up to its closing bracket; the rest of the
    pattern follows. *)
Fixpoint parse_set (fuel : nat) (p : list ascii) (acc : list citem)
  : option (list citem * list ascii) :=
  match fuel with
  | O => None
  | S fuel' =>
      match p with
      | [] => None
      | "]"%char :: rest => Some (rev acc, rest)
      | "\"%char :: c :: rest => parse_set fuel' rest (escape_item c :: acc)
      | lo :: "-"%char :: "]"%char :: rest =>
          Some (rev (CChar "-" :: CChar lo :: acc), rest)
      | lo :: "-"%char :: "\"%char :: c :: rest =>
          parse_set fuel' rest (CRange lo c :: acc)
      | lo :: "-"%char :: hi :: rest =>
          parse_set fuel' rest (CRange lo hi :: acc)
      | c :: rest => parse_set fuel' rest (CChar c :: acc)
      end
  end.

Fixpoint parse_nat (p : list ascii) (acc : nat) : nat * list ascii :=
  match p with
  | c :: rest =>
      if is_digit c then parse_nat rest (10 * acc + (code c - 48))
      else (acc, p)
  | [] => (acc, p)
  end.

(** [{m}], [{m,}] and [{m,n}] after the opening brace. *)
Definition parse_braces (p : list ascii)
  : option (nat * option nat * list ascii) :=
  let '(lo, p1) := parse_nat p 0 in
  match p1 with
  | "}"%char :: rest => Some (lo, Some lo, rest)
  | ","%char :: "}"%char :: rest => Some (lo, None, rest)
  | ","%char :: p2 =>
      let '(hi, p3) := parse_nat p2 0 in
      match p3 with
      | "}"%char :: rest => Some (lo, Some hi, rest)
      | _ => None
      end
  | _ => None
  end.

Definition lazy_mark (p : list ascii) : bool * list ascii :=
  match p with
  | "?"%char :: rest => (false, rest)
  | _ => (true, p)
  end.

(** An optional quantifier after the atom [r]. *)
Definition parse_quant (r : re) (p : list ascii) : option (re * list ascii) :=
  match p with
  | "*"%char :: rest =>
      let '(g, rest') := lazy_mark rest in Some (Rep r 0 None g, rest')
  | "+"%char :: rest =>
      let '(g, rest') := lazy_mark rest in Some (Rep r 1 None g, rest')
  | "?"%char :: rest =>
      let '(g, rest') := lazy_mark rest in Some (Rep r 0 (Some 1) g, rest')
  | "{"%char :: rest =>
      match parse_braces rest with
      | Some (lo, hi, rest1) =>
          let '(g, rest') := lazy_mark rest1 in Some (Rep r lo hi g, rest')
      | None => None
      end
  | _ => Some (r, p)
  end.

Definition escape_atom (c : ascii) : re :=
  match c with
  | "b"%char => WordBoundary
  | _ => match escape_item c with
         | CChar x => Lit x
         | it => CharSet false [it]
         end
  end.

Definition cat (r1 r2 : re) : re :=
  match r1 with Empty => r2 | _ => Cat r1 r2 end.

Definition alt (branches : list re) (last : re) : re :=
  fold_right Alt last branches.

(** An alternation, up to the closing parenthesis of the enclosing group
    or the end of the pattern. [seq] is the branch being read, [done] the
    branches already closed, [gi] the number of the next capturing group. *)
Fixpoint parse_alt (fuel : nat) (p : list ascii) (gi : nat)
    (seq : re) (done : list re) : option (re * list ascii * nat) :=
  match fuel with
  | O => None
  | S fuel' =>
      let continue (atom : option (re * list ascii)) (gi' : nat) :=
        match atom with
        | Some (a, rest) =>
            match parse_quant a rest with
            | Some (a', rest') => parse_alt fuel' rest' gi' (cat seq a') done
            | None => None
            end
        | None => None
        end in
      match p with
      | [] => Some (alt done seq, [], gi)
      | ")"%char :: _ => Some (alt done seq, p, gi)
      | "|"%char :: rest => parse_alt fuel' rest gi Empty (done ++ [seq])
      | "("%char :: "?"%char :: ":"%char :: rest =>
          match parse_alt fuel' rest gi Empty [] with
          | Some (r, ")"%char :: rest', gi') => continue (Some (r, rest')) gi'
          | _ => None
          end
      | "("%char :: "?"%char :: "="%char :: rest =>
          match parse_alt fuel' rest gi Empty [] with
          | Some (r, ")"%char :: rest', gi') =>
              continue (Some (LookAhead r, rest')) gi'
          | _ => None
          end
      | "("%char :: rest =>
          match parse_alt fuel' rest (S gi) Empty [] with
          | Some (r, ")"%char :: rest', gi') =>
              continue (Some (Group gi r, rest')) gi'
          | _ => None
          end
      | "["%char :: "^"%char :: rest =>
          match parse_set fuel' rest [] with
          | Some (items, rest') => continue (Some (CharSet true items, rest')) gi
          | None => None
          end
      | "["%char :: rest =>
          match parse_set fuel' rest [] with
          | Some (items, rest') => continue (Some (CharSet false items, rest')) gi
          | None => None
          end
      | "\"%char :: c :: rest => continue (Some (escape_atom c, rest)) gi
      | "."%char :: rest => continue (Some (AnyChar, rest)) gi
      | "^"%char :: rest => continue (Some (LineStart, rest)) gi
      | "$"%char :: rest => continue (Some (LineEnd, rest)) gi
      | c :: rest => continue (Some (Lit c, rest)) gi
      end
  end.

(** [re.compile]. The patterns of the sources are constants that compile;
    a pattern outside the supported syntax becomes [Never]. *)
Definition compile (pattern : string) : re :=
  let p := chars pattern in
  match parse_alt (S (List.length p)) p 1 Empty [] with
  | Some (r, [], _) => r
  | _ => Never
  end.

(** ** Matching *)

Definition item_has (it : citem) (a : ascii) : bool :=
  match it with
  | CChar c => Ascii.eqb a c
  | CRange lo hi => between (code lo) (code hi) a
  | CSpace => is_space a
  | CDigit => is_digit a
  | CWord => is_word a
  | CNotSpace => negb (is_space a)
  | CNotDigit => negb (is_digit a)
  | CNotWord => negb (is_word a)
  end.

Definition items_have (items : list citem) (a : ascii) : bool :=
  existsb (fun it => item_has it a) items.

(** Under IGNORECASE a character is in a set when one of its case variants
    is; a negated set is the complement of that. *)
Definition set_has (fl : flags) (negated : bool) (items : list citem)
    (a : ascii) : bool :=
  let member :=
    if IGNORECASE fl
    then items_have items a || items_have items (lower_char a)
         || items_have items (upper_char a)
    else items_have items a in
  if negated then negb member else member.

Definition lit_has (fl : flags) (c a : ascii) : bool :=
  if IGNORECASE fl then Ascii.eqb (lower_char a) (lower_char c)
  else Ascii.eqb a c.

Definition any_has (fl : flags) (a : ascii) : bool :=
  DOTALL fl || negb (Ascii.eqb a "010"%char).

(** A position in the subject: the character before it, what follows it,
    and its index. *)
Record cursor := { before : option ascii; rest : list ascii; pos : nat }.

Definition start_of (l : list ascii) : cursor :=
  {| before := None; rest := l; pos := 0 |}.

Definition step (c : cursor) : option (ascii * cursor) :=
  match rest c with
  | a :: t => Some (a, {| before := Some a; rest := t; pos := S (pos c) |})
  | [] => None
  end.

Definition word_before (c : cursor) : bool :=
  match before c with Some a => is_word a | None => false end.

Definition word_after (c : cursor) : bool :=
  match rest c with a :: _ => is_word a | [] => false end.

Definition at_boundary (c : cursor) : bool :=
  xorb (word_before c) (word_after c).

(** [$] without MULTILINE: the end, or just before a final newline. *)
Definition at_end (c : cursor) : bool :=
  match rest c with
  | [] => true
  | [a] => Ascii.eqb a "010"%char
  | _ => false
  end.

(** Captured groups, the most recent capture of a group first. *)
Definition captures := list (nat * string).

Definition outcome := option (cursor * captures).

Definition one (ok : ascii -> bool) (k : cursor -> captures -> outcome)
    (c : cursor) (cs : captures) : outcome :=
  match step c with
  | Some (a, c') => if ok a then k c' cs else None
  | None => None
  end.

Definition or_else (x : outcome) (y : unit -> outcome) : outcome :=
  match x with Some _ => x | None => y tt end.

Definition below (count : nat) (hi : option nat) : bool :=
  match hi with Some h => (count <? h)%nat | None => true end.

(** The iterations of a repetition of [body] between [lo] and [hi] times,
    [count] of them done: a greedy repetition tries one more iteration
    before it tries to stop, a lazy one the other way round. An iteration
    that consumes nothing ends the repetition (every repeated sub-pattern
    of the sources consumes at least one character), so the length of the
    remaining subject bounds the number of iterations. *)
Fixpoint iterate
    (body : (cursor -> captures -> outcome) -> cursor -> captures -> outcome)
    (lo : nat) (hi : option nat) (greedy : bool)
    (k : cursor -> captures -> outcome)
    (fuel count : nat) (c : cursor) (cs : captures) {struct fuel} : outcome :=
  let stop (_ : unit) := if (lo <=? count)%nat then k c cs else None in
  match fuel with
  | O => stop tt
  | S fuel' =>
      let more (_ : unit) :=
        if below count hi
        then body
               (fun c' cs' =>
                  if (pos c <? pos c')%nat
                  then iterate body lo hi greedy k fuel' (S count) c' cs'
                  else None)
               c cs
        else None in
      if greedy then or_else (more tt) stop else or_else (stop tt) more
  end.

(** The backtracking matcher, in continuation-passing style: [k] is what
    has to match after [r]. Alternatives are tried left to right. *)
Fixpoint run (fl : flags) (r : re) (k : cursor -> captures -> outcome)
    (c : cursor) (cs : captures) {struct r} : outcome :=
  match r with
  | Lit x => one (lit_has fl x) k c cs
  | AnyChar => one (any_has fl) k c cs
  | CharSet negated items => one (set_has fl negated items) k c cs
  | WordBoundary => if at_boundary c then k c cs else None
  | LineStart => if (pos c =? 0)%nat then k c cs else None
  | LineEnd => if at_end c then k c cs else None
  | Empty => k c cs
  | Cat r1 r2 => run fl r1 (fun c' cs' => run fl r2 k c' cs') c cs
  | Alt r1 r2 => or_else (run fl r1 k c cs) (fun _ => run fl r2 k c cs)
  | Rep r' lo hi greedy =>
      iterate (run fl r') lo hi greedy k (List.length (rest c)) 0 c cs
  | Group n r' =>
      run fl r'
        (fun c' cs' =>
           k c' ((n, str (firstn (pos c' - pos c) (rest c))) :: cs'))
        c cs
  | LookAhead r' =>
      match run fl r' (fun c' cs' => Some (c', cs')) c cs with
      | Some (_, cs') => k c cs'
      | None => None
      end
  | Never => None
  end.

(** A match object: [m.start()], [m.end()] and the captured groups. *)
Record match_ := { m_start : nat; m_end : nat; m_caps : captures }.

Definition match_at (fl : flags) (r : re) (c : cursor) : option match_ :=
  match run fl r (fun c' cs' => Some (c', cs')) c [] with
  | Some (c', cs) =>
      Some {| m_start := pos c; m_end := pos c'; m_caps := cs |}
  | None => None
  end.

(** The leftmost match at or after the cursor. *)
Fixpoint search_from (fl : flags) (r : re) (fuel : nat) (c : cursor)
  : option match_ :=
  match match_at fl r c with
  | Some m => Some m
  | None =>
      match fuel, step c with
      | S fuel', Some (_, c') => search_from fl r fuel' c'
      | _, _ => None
      end
  end.

(** [m.group(n)] for [n >= 1]; [None] when the group took no part. *)
Fixpoint lookup (n : nat) (cs : captures) : option string :=
  match cs with
  | (i, s) :: t => if (i =? n)%nat then Some s else lookup n t
  | [] => None
  end.

Definition group (m : match_) (n : nat) : option string := lookup n (m_caps m).

(** [m.group(0)] in the subject [s]. *)
Definition group0 (s : string) (m : match_) : string :=
  slice (m_start m) (m_end m) s.

(** [re.search(pattern, s, flags)] *)
Definition search (fl : flags) (pattern : string) (s : string)
  : option match_ :=
  let l := chars s in
  search_from fl (compile pattern) (List.length l) (start_of l).

(** The cursor [n] characters further on. *)
Fixpoint forward (n : nat) (c : cursor) : cursor :=
  match n with
  | O => c
  | S n' => match step c with Some (_, c') => forward n' c' | None => c end
  end.

(** [re.finditer]: the successive non-overlapping matches, left to right.
    After an empty match the scan resumes one character further (the
    patterns of the sources that are iterated have no empty match). *)
Fixpoint matches_from (fl : flags) (r : re) (fuel : nat) (c : cursor)
  : list match_ :=
  match fuel with
  | O => []
  | S fuel' =>
      match search_from fl r (List.length (rest c)) c with
      | None => []
      | Some m =>
          let c' := forward (m_end m - pos c) c in
          if (m_end m =? m_start m)%nat
          then match step c' with
               | Some (_, c'') => m :: matches_from fl r fuel' c''
               | None => [m]
               end
          else m :: matches_from fl r fuel' c'
      end
  end.

Definition finditer (fl : flags) (pattern : string) (s : string)
  : list match_ :=
  let l := chars s in
  matches_from fl (compile pattern) (S (List.length l)) (start_of l).

(** [re.findall] for a pattern without groups: the matched substrings. *)
Definition findall (fl : flags) (pattern : string) (s : string)
  : list string :=
  map (group0 s) (finditer fl pattern s).

(** [re.findall] for a pattern with one group: what the group captured. *)
Definition findall1 (fl : flags) (pattern : string) (s : string)
  : list string :=
  map (fun m => match group m 1 with Some g => g | None => "" end)
      (finditer fl pattern s).

(** The pieces of [s] between the matches [ms], from index [from] on. *)
Fixpoint pieces (s : string) (from : nat) (ms : list match_) : list string :=
  match ms with
  | [] => [slice from (len s) s]
  | m :: ms' => slice from (m_start m) s :: pieces s (m_end m) ms'
  end.

(** [re.split(pattern, s)] for a pattern without groups. *)
Definition split (pattern : string) (s : string) : list string :=
  pieces s 0 (finditer no_flags pattern s).

(** [re.sub(pattern, repl, s)] for a literal replacement. *)
Definition sub (pattern repl : string) (s : string) : string :=
  String.concat repl (split pattern s).

(** ** The words a pattern can consume *)

(** [n] consecutive words of [P]. *)
Inductive times (P : list ascii -> Prop) : nat -> list ascii -> Prop :=
| times_O : times P 0 []
| times_S n w1 w2 : P w1 -> times P n w2 -> times P (S n) (w1 ++ w2).

Definition within (n : nat) (hi : option nat) : Prop :=
  match hi with Some h => n <= h | None => True end.

(** The language of a pattern. Assertions consume nothing; what they
    require of the context is left out. *)
Fixpoint lang (fl : flags) (r : re) (w : list ascii) : Prop :=
  match r with
  | Lit x => exists a, w = [a] /\ lit_has fl x a = true
  | AnyChar => exists a, w = [a] /\ any_has fl a = true
  | CharSet negated items =>
      exists a, w = [a] /\ set_has fl negated items a = true
  | WordBoundary | LineStart | LineEnd | Empty | LookAhead _ => w = []
  | Cat r1 r2 => exists w1 w2, w = w1 ++ w2 /\ lang fl r1 w1 /\ lang fl r2 w2
  | Alt r1 r2 => lang fl r1 w \/ lang fl r2 w
  | Rep r' lo hi _ =>
      exists n, lo <= n /\ within n hi /\ times (lang fl r') n w
  | Group _ r' => lang fl r' w
  | Never => False
  end.

(** From [c], the word [w] leads to [c']. *)
Definition leads (c : cursor) (w : list ascii) (c' : cursor) : Prop :=
  rest c = w ++ rest c' /\ pos c' = pos c + List.length w.

Definition matcher :=
  (cursor -> captures -> outcome) -> cursor -> captures -> outcome.

(** [body] only succeeds through its continuation, after a word of [L]. *)
Definition sound (L : list ascii -> Prop) (body : matcher) : Prop :=
  forall k c cs res,
    body k c cs = Some res ->
    exists w c' cs', L w /\ leads c w c' /\ k c' cs' = Some res.

(** [c'] is reached from [c] by consuming some word. *)
Definition after (c c' : cursor) : Prop := exists w, leads c w c'.

(** [body] consults its continuation only at cursors after its own. *)
Definition local (body : matcher) : Prop :=
  forall k k' c cs,
    (forall c' cs', after c c' -> k c' cs' = k' c' cs') ->
    body k c cs = body k' c cs.

End Re.

(* ================================================================== *)
(** * Python floats *)
(* ================================================================== *)

Module Num.

(** Truthiness of a [float]: [bool(x)] is [x != 0.0]. *)
Definition truthy (x : float) : bool := negb (PrimFloat.eqb x 0).

(** [x > y], [x < y] and [x != y] *)
Definition gt (x y : float) : bool := PrimFloat.ltb y x.
Definition lt (x y : float) : bool := PrimFloat.ltb x y.
Definition ne (x y : float) : bool := negb (PrimFloat.eqb x y).

(** [max(a, b)]: the first argument unless the second is greater. *)
Definition max (a b : float) : float := if gt b a then b else a.

(** The float of the literal [0.001]. *)
Definition thousandth : float := 0x1.0624dd2f1a9fcp-10.

(** [x / y] *)
Definition div (x y : float) : except float :=
  if PrimFloat.eqb y 0 then Raise (ZeroDivisionError "float division by zero")
  else Ok (PrimFloat.div x y).

(** The binary64 nearest to [num / den] (ties to even), with the sign
    [neg], for [0 <= num] and [0 < den]. *)
Definition float_of_ratio (neg : bool) (num den : Z) : float :=
  if (num =? 0)%Z then SF2Prim (S754_zero neg)
  else
    let '(q, e, l) := SFdiv_core_binary prec emax num 0 den 0 in
    SF2Prim (binary_round_aux prec emax neg q e l).

Definition digits_value (l : list ascii) : Z :=
  fold_left (fun acc a => (10 * acc + Z.of_nat (code a - 48))%Z) l 0%Z.

Fixpoint span_digits (l : list ascii) : list ascii * list ascii :=
  match l with
  | a :: t =>
      if is_digit a
      then let '(d, r) := span_digits t in (a :: d, r)
      else ([], l)
  | [] => ([], [])
  end.

Definition is_nil {A} (l : list A) : bool :=
  match l with [] => true | _ => false end.

(** An unsigned decimal [digits], [digits.], [digits.digits] or [.digits]:
    its digits read as one integer, and the number of fraction digits. *)
Definition parse_decimal (l : list ascii) : option (Z * nat) :=
  let '(ip, r) := span_digits l in
  match r with
  | [] => if is_nil ip then None else Some (digits_value ip, 0)
  | "."%char :: fp =>
      if forallb is_digit fp && negb (is_nil ip && is_nil fp)
      then Some (digits_value (ip ++ fp), List.length fp)
      else None
  | _ => None
  end.

Definition decimal_float (neg : bool) (l : list ascii) : option float :=
  match parse_decimal l with
  | Some (m, k) => Some (float_of_ratio neg m (10 ^ Z.of_nat k))
  | None => None
  end.

(** [float(s)] for a string of digits, points and signs: the correctly
    rounded value of a signed decimal, [None] for the [ValueError] of any
    other string over these characters. (Exponents, [inf], [nan],
    underscores and surrounding blanks, which [float] also accepts, do not
    occur in the strings the sources convert.) *)
Definition float_of_str (s : string) : option float :=
  match chars s with
  | "-"%char :: l => decimal_float true l
  | "+"%char :: l => decimal_float false l
  | l => decimal_float false l
  end.

(** [round(x, 2)]: the exact value of [x] is rounded to two decimals, ties
    to even, and the decimal obtained is converted back to the nearest
    float; infinities and NaN round to themselves. *)
Definition round2 (x : float) : float :=
  match Prim2SF x with
  | S754_finite s m e =>
      if (0 <=? e)%Z then x
      else
        let num := (Zpos m * 100)%Z in
        let den := (2 ^ (- e))%Z in
        let q := (num / den)%Z in
        let r := (num mod den)%Z in
        let n := match (2 * r ?= den)%Z with
                 | Lt => q
                 | Gt => (q + 1)%Z
                 | Eq => if Z.even q then q else (q + 1)%Z
                 end in
        float_of_ratio s n 100
  | _ => x
  end.

End Num.

(* ================================================================== *)
(** * Dictionaries *)
(* ================================================================== *)

Section Dict.

Variable V : Type.

Definition dict := list (string * V).

(** [d.get(k)] *)
Fixpoint dict_get (k : string) (d : dict) : option V :=
  match d with
  | (k', v) :: t => if String.eqb k' k then Some v else dict_get k t
  | [] => None
  end.

(** [d[k] = v]: a key already present keeps its place. *)
Fixpoint dict_set (k : string) (v : V) (d : dict) : dict :=
  match d with
  | (k', v') :: t =>
      if String.eqb k' k then (k', v) :: t else (k', v') :: dict_set k v t
  | [] => [(k, v)]
  end.

(** [d.update(other)] *)
Definition dict_update (d other : dict) : dict :=
  fold_left (fun acc kv => dict_set (fst kv) (snd kv) acc) other d.

Definition dict_keys (d : dict) : list string := map fst d.

End Dict.

(** Truthiness of a list or a dict, and [a or b] on them. *)
Definition nonempty_list {A} (l : list A) : bool :=
  match l with [] => false | _ :: _ => true end.

Definition or_list {A} (a b : list A) : list A :=
  if nonempty_list a then a else b.

(* ================================================================== *)
(** * The data model of a parsed document *)
(* ================================================================== *)

(** A balance-sheet row. The rows of the document-wide fallback have no
    ["previous_period"] key: [previous_period = None]; a key that is present
    holds a number or [None]. *)
Record LineItem := {
  item : string;
  current_period : option float;
  previous_period : option (option float);
  confidence : string
}.

(** An entry of a key-value section; the fallbacks write no ["previous"]. *)
Record KVEntry := {
  value : option float;
  previous : option (option float)
}.

Definition kvdict := dict KVEntry.

(** [meta]: ["period_hint"] is set only when a period phrase was found, and
    then to a label or to [None]. *)
Record Meta := {
  company : string;
  meta_unit : string;
  period_hint : option (option string)
}.

(** [parsed["sections"]]: a field is [None] when the key is absent. *)
Record Sections := {
  balance_sheet : option (list LineItem);
  pnl : option kvdict;
  cash_flow : option kvdict;
  changes_in_equity : option kvdict
}.

(** The empty mapping [{}]. *)
Definition no_sections : Sections :=
  {| balance_sheet := None; pnl := None; cash_flow := None;
     changes_in_equity := None |}.

Definition table := list (list (option string)).

(** The result of the parser. [kpis] is the ["summary"] of the ["kpis"]
    entry that only the short-circuit result has; [validation_warning] is
    [str(e)] of the exception of the balance check. *)
Record ParsedDocument := {
  meta : Meta;
  scale : float;
  sections : Sections;
  tables : list table;
  kpis : option string;
  validation_warning : option exn
}.

(* ================================================================== *)
(** * app/services/preprocessing_service.py *)
(* ================================================================== *)

(** [parser_service] imports [parse_number] and [detect_document_scale]
    from [preprocessing_service], which is not among the sources: the
    parser is modelled over any pair of such functions. *)
Class Preprocessing := {
  parse_number : string -> option float;
  detect_document_scale : string -> float * string
}.

Module SpecPreprocessing.

Definition endswith (s p : string) : bool :=
  is_prefix (rev (chars p)) (rev (chars s)).

(** Modelled from the spec: [parse_number] of the missing
    [preprocessing_service] -- "given a numeric-looking token (digits,
    optional thousands separators, optional decimal point, optional
    surrounding parentheses denoting negation), return a float or null if
    unparseable"; "(1,234.5)" is -1234.5, "12,34,567" is 1234567, a token
    without digits is null. *)
Definition parse_number (token : string) : option float :=
  let t := strip token in
  let negative := startswith t "(" && endswith t ")" in
  let body := remove_char "," (strip_chars "()" t) in
  match Num.decimal_float false (chars body) with
  | Some x => Some (if negative then PrimFloat.opp x else x)
  | None => None
  end.

(** Modelled from the spec: [detect_document_scale] of the missing
    [preprocessing_service] -- the text is scanned for a unit declaration
    ("crore", "lakh", "thousand"); the multiplier is one of 1e7, 1e5, 1e3,
    and (1.0, "units") when no declaration is found. *)
Definition detect_document_scale (text : string) : float * string :=
  let t := lower text in
  if contains "crore" t then (1e7%float, "crores")
  else if contains "lakh" t then (1e5%float, "lakhs")
  else if contains "thousand" t then (1e3%float, "thousands")
  else (1%float, "units").

Definition instance : Preprocessing :=
  Build_Preprocessing parse_number detect_document_scale.

End SpecPreprocessing.

(* ================================================================== *)
(** * app/services/parser_service.py *)
(* ================================================================== *)

(** Core numeric token regex *)
Definition _NUM_TOKEN_RE : string := "\(?[0-9][0-9,\.()]*\)?".

(** ** Section splitter *)

Definition section_terms : list (string * list string) :=
  [ ("balance_sheet",
      ["balance sheet"; "statement of financial position"; "balancesheet";
       "financialposition"]);
    ("pnl",
      ["profit and loss"; "statement of profit and loss";
       "statement of profit"; "profitandloss"; "statementofprofitandloss";
       "operations"]);
    ("cash_flow",
      ["cash flow"; "statement of cash flows"; "cashflow";
       "statementofcashflows"]);
    ("changes_in_equity",
      ["changes in equity"; "statement of changes in equity";
       "changesinequity"]) ].

(** [re.escape(c)] of one character (the terms hold letters only). *)
Definition re_escape (c : ascii) : string :=
  if is_word c then String c "" else String "\" (String c "").

(** A pattern that allows any non-alphanumeric characters between the
    letters of a word and between the words of [term]. *)
Definition tolerant_pattern (term : string) : string :=
  let words := Re.split "\s+" (strip term) in
  let parts :=
    map (fun w =>
           String.concat ""
             (map (fun c => (re_escape c ++ "[^a-z0-9]*")%string)
                  (chars (lower w))))
        words in
  ("\b" ++ String.concat "[^a-z0-9]*" parts ++ "\b")%string.

(** The start of the match of the first term that matches. *)
Fixpoint first_term_position (text : string) (terms : list string)
  : option nat :=
  match terms with
  | term :: terms' =>
      match Re.search Re.ignorecase (tolerant_pattern term) text with
      | Some m => Some (Re.m_start m)
      | None => first_term_position text terms'
      end
  | [] => None
  end.

Definition find_positions (text : string) : dict nat :=
  flat_map
    (fun nt => match first_term_position text (snd nt) with
               | Some p => [(fst nt, p)]
               | None => []
               end)
    section_terms.

(** [sorted(items, key=lambda x: x[1])]: a stable sort by position. *)
Fixpoint insert_by_position (x : string * nat) (l : list (string * nat))
  : list (string * nat) :=
  match l with
  | y :: t =>
      if (snd x <? snd y)%nat then x :: l else y :: insert_by_position x t
  | [] => [x]
  end.

Definition sorted_by_position (l : list (string * nat))
  : list (string * nat) :=
  fold_left (fun acc x => insert_by_position x acc) l [].

(** The block of each detected section runs to the start of the next one;
    blocks of 50 characters or fewer are dropped. *)
Fixpoint slice_blocks (text : string) (sorted_items : list (string * nat))
  : dict string :=
  match sorted_items with
  | (sec_name, start_idx) :: rest =>
      let end_idx := match rest with
                     | (_, next) :: _ => next
                     | [] => len text
                     end in
      let block := strip (slice start_idx end_idx text) in
      if (50 <? len block)%nat
      then (sec_name, block) :: slice_blocks text rest
      else slice_blocks text rest
  | [] => []
  end.

Definition _split_into_sections (text : string) : dict string :=
  if negb (nonempty text) then []
  else
    let positions := find_positions text in
    if negb (nonempty_list positions)
    then [("balance_sheet", text)]
    else slice_blocks text (sorted_by_position positions).

(** ** Helpers *)

Definition _normalize_item_name (name : string) : string :=
  let name := strip (Re.sub "\s+" " " name) in
  let name := strip_chars ":;,." name in
  let name :=
    if (120 <? len name)%nat
    then match Re.search Re.no_flags "(.{80,120}?)[:;\.\-\,\n]" name with
         | Some cut =>
             strip (match Re.group cut 1 with Some g => g | None => "" end)
         | None => rsplit1_head (take 120 name)
         end
    else name in
  let name := Re.sub "^[\W\d]+" "" name in
  let name := Re.sub "[\W\d]+$" "" name in
  name.

(** Operands of the sum in the balance check: a [current_period] is a
    float or [None], the default of an absent side is the [int] 0. *)
Inductive pyval :=
| PyNone
| PyInt (z : Z)
| PyFloat (x : float).

Definition type_name (v : pyval) : string :=
  match v with
  | PyNone => "NoneType"
  | PyInt _ => "int"
  | PyFloat _ => "float"
  end.

Definition float_of_int (z : Z) : float :=
  Num.float_of_ratio (z <? 0)%Z (Z.abs z) 1.

Definition unsupported (op : string) (a b : pyval) : exn :=
  TypeError ("unsupported operand type(s) for " ++ op ++ ": '"
             ++ type_name a ++ "' and '" ++ type_name b ++ "'")%string.

(** [a + b] *)
Definition py_add (a b : pyval) : except pyval :=
  match a, b with
  | PyInt x, PyInt y => Ok (PyInt (x + y))
  | PyInt x, PyFloat y => Ok (PyFloat (float_of_int x + y))
  | PyFloat x, PyInt y => Ok (PyFloat (x + float_of_int y))
  | PyFloat x, PyFloat y => Ok (PyFloat (x + y))
  | _, _ => Raise (unsupported "+" a b)
  end.

(** [a - b] for a float [a] *)
Definition py_sub (a : float) (b : pyval) : except float :=
  match b with
  | PyInt y => Ok (a - float_of_int y)%float
  | PyFloat y => Ok (a - y)%float
  | PyNone => Raise (unsupported "-" (PyFloat a) b)
  end.

(** A value interpolated by an f-string. *)
Definition fmt (v : pyval) : frag :=
  match v with
  | PyFloat x => Float x
  | PyInt z => Text (NilZero.string_of_int (Z.to_int z))
  | PyNone => Text "None"
  end.

Definition of_period (v : option float) : pyval :=
  match v with Some x => PyFloat x | None => PyNone end.

(** [find_item] of [_validate_basic_balance]: the first row whose
    upper-cased label contains [key_substr]. *)
Fixpoint find_item (bs : list LineItem) (key_substr : string)
  : option LineItem :=
  match bs with
  | it :: rest =>
      if nonempty (item it) && contains key_substr (upper (item it))
      then Some it
      else find_item rest key_substr
  | [] => None
  end.

Definition is_some {A} (o : option A) : bool :=
  match o with Some _ => true | None => false end.

(** [it.get("current_period", 0) if it else 0] *)
Definition side (it : option LineItem) : pyval :=
  match it with
  | Some i => of_period (current_period i)
  | None => PyInt 0
  end.

(** [max(1.0, 0.001 * abs(assets))] *)
Definition balance_tolerance (assets : float) : float :=
  Num.max 1 (Num.thousandth * PrimFloat.abs assets).

Definition _validate_basic_balance (parsed : ParsedDocument) : except unit :=
  let bs := match balance_sheet (sections parsed) with
            | Some l => l
            | None => []
            end in
  let total_assets := find_item bs "TOTAL ASSETS" in
  let total_eq := find_item bs "TOTAL EQUITY" in
  let total_liab := find_item bs "TOTAL LIABILITIES" in
  match total_assets with
  | Some ta =>
      if is_some total_eq || is_some total_liab then
        let assets := current_period ta in
        rhs <- py_add (side total_eq) (side total_liab) ;;
        match assets with
        | Some a =>
            d <- py_sub a rhs ;;
            if Num.gt (PrimFloat.abs d) (balance_tolerance a)
            then Raise (ValueError
                          [Text "Balance mismatch: Assets="; Float a;
                           Text " vs Eq+Liab="; fmt rhs])
            else Ok tt
        | None => Ok tt
        end
      else Ok tt
  | None => Ok tt
  end.

(** ** Metadata *)

(** The fiscal-year numbers of the two branches of [_detect_period_hint]. *)
Definition fy_march (year : nat) : nat := (year + 1) mod 100.
Definition fy_other (year : nat) : nat := year mod 100 + 1.

Definition quarter_of (month : string) : string :=
  if String.eqb month "june" then "Q1"
  else if String.eqb month "september" then "Q2"
  else if String.eqb month "december" then "Q3"
  else if String.eqb month "march" then "Q4"
  else "".

Definition period_pattern : string :=
  "(June|September|December|March)\s+\d{1,2},?\s*(20\d{2})".

(** The period pattern as compiled: what precedes the year, and the year. *)
Definition period_head : Re.re :=
  Eval vm_compute in
  match Re.compile period_pattern with Re.Cat a _ => a | r => r end.

Definition year_group : Re.re :=
  Re.Group 2
    (Re.Cat (Re.Cat (Re.Lit "2") (Re.Lit "0"))
       (Re.Rep (Re.CharSet false [Re.CDigit]) 2 (Some 2) true)).

Definition group_or_empty (m : Re.match_) (n : nat) : string :=
  match Re.group m n with Some g => g | None => "" end.

(** Detect reporting period like 'As at June 30, 2024' -> 'Q1 FY25' *)
Definition _detect_period_hint (text : string) : option string :=
  match Re.search Re.no_flags period_pattern text with
  | None => None
  | Some m =>
      let month := lower (group_or_empty m 1) in
      let year := int_of_digits (group_or_empty m 2) in
      let fy :=
        if String.eqb month "march"
        then ("FY" ++ str_of_nat (fy_march year))%string
        else ("FY" ++ str_of_nat (fy_other year))%string in
      let quarter := quarter_of month in
      Some (quarter ++ " " ++ fy)%string
  end.

(** [max(l, key=len)]: the first of the longest. *)
Fixpoint longest (best : string) (l : list string) : string :=
  match l with
  | c :: t => longest (if (len best <? len c)%nat then c else best) t
  | [] => best
  end.

Definition blacklist : string :=
  "\b(BSE|NSE|Exchange|Societe|Luxembourg|SEBI|Board|Phiroze|Stock)\b".

Definition _extract_meta (text : string) (unit_label : string) : Meta :=
  let candidates :=
    Re.findall1 Re.ignorecase
      "\b([A-Z][A-Za-z&\.\s]+?(?:LIMITED|LTD\.))\b" text in
  let filtered_candidates :=
    map strip
      (filter (fun c => negb (is_some (Re.search Re.ignorecase blacklist c)))
              candidates) in
  let company : option string :=
    match filtered_candidates with
    | c :: t => Some (longest c t)
    | [] => None
    end in
  let truthy (c : option string) :=
    match c with Some s => nonempty s | None => false end in
  let company :=
    if truthy company then company
    else
      match Re.search Re.ignorecase
              "(?:For\s+)?([A-Z][A-Za-z\s&\.]+)\s+(?:Ltd\.?|LIMITED)" text with
      | Some fallback =>
          Some (strip (group_or_empty fallback 1) ++ " Limited")%string
      | None => company
      end in
  let company :=
    if truthy company then company
    else
      match Re.search Re.ignorecase
              "([A-Z][A-Za-z&\.\s]+)\s*(?=Regd\. Office)" text with
      | Some reg_match => Some (strip (group_or_empty reg_match 1))
      | None => company
      end in
  let period : option string :=
    match Re.search Re.ignorecase
            "(?:as at|as on|quarter ended|half year ended|year ended)\s+([A-Za-z0-9 ,\-]+[0-9]{4})"
            text with
    | Some period_match => Some (strip (group_or_empty period_match 1))
    | None => None
    end in
  {| company := if truthy company
                then match company with Some c => c | None => "" end
                else "Unknown";
     meta_unit := unit_label;
     period_hint := if truthy period
                    then Some (_detect_period_hint text)
                    else None |}.

(** ** Line-item extraction *)

Section Extraction.

Context {pre : Preprocessing}.

(** [v *= scale] when [v] is a number. *)
Definition scaled (scale : float) (v : option float) : option float :=
  match v with Some x => Some (x * scale)%float | None => None end.

Definition noise_pattern : string :=
  "(DIN|Partner|Director|Chartered Accountants|Mumbai|LLP|CFO|Secretary)".

Definition glued_pattern : string :=
  "([0-9]{1,3}(?:,[0-9]{2,3})+)([0-9]{1,3}(?:,[0-9]{2,3})+)$".

(** Lines of the section; a line of more than 500 characters is broken at
    punctuation into fragments of more than 5 characters. *)
Definition candidate_fragments (section_text : string) : list string :=
  flat_map
    (fun line =>
       let line := strip line in
       if negb (nonempty line) then []
       else if (500 <? len line)%nat
       then filter (fun f => (5 <? len f)%nat)
                   (map strip (Re.split "[;\.\:\-]{1,}\s+" line))
       else [line])
    (Re.split "[\n\r]+" section_text).

Definition abs_lt (v : option float) (bound : float) : bool :=
  match v with
  | Some x => Num.lt (PrimFloat.abs x) bound
  | None => false
  end.

(** The numeric tokens of a fragment and its label: the one or two tokens
    at its end and what precedes them, or else the first two tokens
    anywhere and the fragment without its tokens. *)
Definition values_and_name (line : string) (nums : list string)
  : list string * string :=
  match Re.search Re.no_flags
          ("(" ++ _NUM_TOKEN_RE ++ "(?:\s+" ++ _NUM_TOKEN_RE ++ ")?)\s*$")%string
          line with
  | Some tail_match =>
      (Re.findall Re.no_flags "\(?[0-9\.,]+\)?" (group_or_empty tail_match 1),
       strip (take (Re.m_start tail_match) line))
  | None =>
      (firstn 2 nums, strip (Re.sub "\(?[0-9][0-9,\.()]*\)?" "" line))
  end.

(** handle glued comma-grouped numbers inside a single token *)
Definition split_glued (vals : list string) : list string :=
  match vals with
  | [glued] =>
      match Re.search Re.no_flags glued_pattern glued with
      | Some m_glued => [group_or_empty m_glued 1; group_or_empty m_glued 2]
      | None => vals
      end
  | _ => vals
  end.

(** The row extracted from one fragment, if any. *)
Definition table_row (scale : float) (line : string) : option LineItem :=
  if is_some (Re.search Re.ignorecase noise_pattern line) then None
  else
    let nums := Re.findall Re.no_flags "\(?[0-9][0-9,\.()]*\)?" line in
    if negb (nonempty_list nums) then None
    else
      let '(vals, name) := values_and_name line nums in
      let name := _normalize_item_name name in
      let vals := split_glued vals in
      let curr := match vals with
                  | v0 :: _ => parse_number v0
                  | [] => None
                  end in
      let prev := match vals with
                  | _ :: v1 :: _ => parse_number v1
                  | _ => None
                  end in
      let curr := scaled scale curr in
      let prev := scaled scale prev in
      if startswith (lower name) "note" || startswith (lower name) "annexure"
      then None
      else if is_some curr && abs_lt curr 100 && (split_len name <? 3)%nat
      then None
      else Some {| item := name;
                   current_period := curr;
                   previous_period := Some prev;
                   confidence := if is_some curr then "high" else "low" |}.

Definition _extract_table_like_section (section_text : string) (scale : float)
  : list LineItem :=
  if negb (nonempty section_text) then []
  else
    flat_map
      (fun line => match table_row scale line with
                   | Some it => [it]
                   | None => []
                   end)
      (candidate_fragments section_text).

Definition kv_pattern : string :=
  ("(.{3,200}?)\s+(" ++ _NUM_TOKEN_RE ++ ")(?:\s+(" ++ _NUM_TOKEN_RE
   ++ "))?\s*$")%string.

(** The entry read from one line of a key-value section, if any. *)
Definition kv_row (scale : float) (raw : string)
  : option (string * KVEntry) :=
  let line := strip raw in
  if negb (nonempty line) then None
  else
    match Re.search Re.no_flags kv_pattern line with
    | None => None
    | Some m =>
        let key := _normalize_item_name (group_or_empty m 1) in
        let val1 := parse_number (group_or_empty m 2) in
        let val2 :=
          match Re.group m 3 with
          | Some g3 => if nonempty g3 then parse_number g3 else None
          | None => None
          end in
        Some (key, {| value := scaled scale val1;
                      previous := Some (scaled scale val2) |})
    end.

Definition _extract_simple_kv (section_text : string) (scale : float)
  : kvdict :=
  if negb (nonempty section_text) then []
  else
    fold_left
      (fun out raw => match kv_row scale raw with
                      | Some (key, entry) => dict_set key entry out
                      | None => out
                      end)
      (Re.split "[\n\r]+" section_text) [].

(** ** Fallback text extraction (when structured parsing fails) *)

Record Fallback := {
  fb_balance_sheet : list LineItem;
  fb_pnl : kvdict;
  fb_cash_flow : kvdict
}.

Definition fallback_patterns : list (string * string) :=
  [ ("TOTAL ASSETS", "TOTAL\s*ASSETS.*?([0-9\)\(][0-9\.,\(\)-]*)");
    ("TOTAL EQUITY", "TOTAL\s*EQUITY.*?([0-9\)\(][0-9\.,\(\)-]*)");
    ("TOTAL LIABILITIES",
     "TOTAL\s*(?:LIABILITIES|CURRENT\s*LIABILITIES).*?([0-9\)\(][0-9\.,\(\)-]*)");
    ("REVENUE",
     "(?:REVENUE|TOTAL\s+INCOME|REVENUE\s+FROM\s+OPERATIONS).*?([0-9\)\(][0-9\.,\(\)-]*)");
    ("PROFIT FOR THE PERIOD",
     "PROFIT\s*FOR\s*THE\s*PERIOD.*?([0-9\)\(][0-9\.,\(\)-]*)") ].

(** [float(m.group(1).replace(",", "").replace("(", "").replace(")", ""))],
    [None] for its [ValueError]. *)
Definition fallback_number (m : Re.match_) : option float :=
  Num.float_of_str
    (remove_char ")" (remove_char "(" (remove_char "," (group_or_empty m 1)))).

Definition fallback_step (text : string) (extracted : Fallback)
    (lp : string * string) : Fallback :=
  let '(label, pattern) := lp in
  match Re.search Re.ignorecase_dotall pattern text with
  | None => extracted
  | Some m =>
      match fallback_number m with
      | None => extracted
      | Some num =>
          if contains "ASSET" label || contains "EQUITY" label
             || contains "LIABIL" label
          then {| fb_balance_sheet :=
                    fb_balance_sheet extracted
                    ++ [{| item := label; current_period := Some num;
                           previous_period := None; confidence := "high" |}];
                  fb_pnl := fb_pnl extracted;
                  fb_cash_flow := fb_cash_flow extracted |}
          else if contains "REV" label
          then {| fb_balance_sheet := fb_balance_sheet extracted;
                  fb_pnl := dict_set "Revenue"
                              {| value := Some num; previous := None |}
                              (fb_pnl extracted);
                  fb_cash_flow := fb_cash_flow extracted |}
          else if contains "PROFIT" label
          then {| fb_balance_sheet := fb_balance_sheet extracted;
                  fb_pnl := dict_set "Profit for the Period"
                              {| value := Some num; previous := None |}
                              (fb_pnl extracted);
                  fb_cash_flow := fb_cash_flow extracted |}
          else extracted
      end
  end.

Definition _extract_from_text (raw_text : string) : Fallback :=
  let text := remove_char "," (upper raw_text) in
  let text := Re.sub "\s+" " " text in
  fold_left (fallback_step text) fallback_patterns
    {| fb_balance_sheet := []; fb_pnl := []; fb_cash_flow := [] |}.

Definition pnl_patterns : list (string * string) :=
  [ ("(?:TOTAL\s+INCOME|TOTAL\s+REVENUE|REVENUE\s+FROM\s+OPERATIONS|REVENUE)\s*[:\-]?\s*([0-9\(\)\.,]+)",
     "Revenue");
    ("(?:PROFIT\s+FOR\s+THE\s+PERIOD|NET\s+PROFIT|PROFIT\s+AFTER\s+TAX|PAT)\s*[:\-]?\s*([0-9\(\)\.,]+)",
     "Profit for the Period");
    ("(?:PROFIT\s+BEFORE\s+TAX|PBT)\s*[:\-]?\s*([0-9\(\)\.,]+)",
     "Profit Before Tax") ].

(** Document-wide P&L fallback: search for revenue/total income and profit
    numbers anywhere. *)
Definition _extract_pnl_from_text (text : string) (scale : float) : kvdict :=
  if negb (nonempty text) then []
  else
    fold_left
      (fun out pl =>
         let '(pat, label) := pl in
         match Re.search Re.ignorecase pat text with
         | Some m =>
             match parse_number (group_or_empty m 1) with
             | Some num =>
                 dict_set label
                   {| value := Some (num * scale)%float; previous := None |}
                   out
             | None => out
             end
         | None => out
         end)
      pnl_patterns [].

(** ** Core parser logic *)

(** [parsed["validation_warning"] = str(e)] *)
Definition with_warning (parsed : ParsedDocument) (e : exn) : ParsedDocument :=
  {| meta := meta parsed; scale := scale parsed;
     sections := sections parsed; tables := tables parsed;
     kpis := kpis parsed; validation_warning := Some e |}.

Definition get_str (k : string) (d : dict string) : string :=
  match dict_get k d with Some s => s | None => "" end.

(** [any([sections.get("balance_sheet"), sections.get("pnl")])] *)
Definition statements_detected (blocks : dict string) : bool :=
  nonempty (get_str "balance_sheet" blocks)
  || nonempty (get_str "pnl" blocks).

Definition no_statements_summary : string :=
  "No financial statements detected — likely a narrative, CSR, or management discussion section.".

Definition parse_financial_document (cleaned_text : string)
    (tables : list table) : except ParsedDocument :=
  if negb (nonempty cleaned_text)
  then Raise (HTTPException 400 "Empty cleaned_text")
  else
    let '(scale, unit_label) := detect_document_scale cleaned_text in
    let blocks := _split_into_sections cleaned_text in
    if negb (statements_detected blocks)
    then
      Ok {| meta := _extract_meta cleaned_text "units";
            scale := 1;
            sections := no_sections;
            tables := tables;
            kpis := Some no_statements_summary;
            validation_warning := None |}
    else
      (* Structured section parsing *)
      let bs :=
        _extract_table_like_section (get_str "balance_sheet" blocks) scale in
      let pnl := _extract_simple_kv (get_str "pnl" blocks) scale in
      let cf := _extract_simple_kv (get_str "cash_flow" blocks) scale in
      let ce :=
        _extract_simple_kv (get_str "changes_in_equity" blocks) scale in
      (* If P&L not detected, try a document-wide P&L extraction *)
      let pnl :=
        if negb (nonempty_list pnl)
        then
          let pnl_fb := _extract_pnl_from_text cleaned_text scale in
          if nonempty_list pnl_fb then dict_update pnl pnl_fb else pnl
        else pnl in
      (* Fallback extraction for missing or incomplete balance sheet *)
      let '(bs, pnl, cf) :=
        if negb (nonempty_list bs)
        then
          let fallback := _extract_from_text cleaned_text in
          (or_list bs (fb_balance_sheet fallback),
           or_list pnl (fb_pnl fallback),
           or_list cf (fb_cash_flow fallback))
        else (bs, pnl, cf) in
      let parsed :=
        {| meta := _extract_meta cleaned_text unit_label;
           scale := scale;
           sections := {| balance_sheet := Some bs; pnl := Some pnl;
                          cash_flow := Some cf;
                          changes_in_equity := Some ce |};
           tables := tables;
           kpis := None;
           validation_warning := None |} in
      (* Validate basic balance (may raise) *)
      match _validate_basic_balance parsed with
      | Ok _ => Ok parsed
      | Raise e =>
          (* record validation warning instead of failing endpoint *)
          Ok (with_warning parsed e)
      end.

End Extraction.

(* ================================================================== *)
(** * app/services/financial_analysis_service.py *)
(* ================================================================== *)

(** A value of the KPI dictionary: a number, or a string built from
    numbers (["summary"]). *)
Inductive kpival :=
| KNum (x : float)
| KStr (s : fstring).

Definition kpidict := dict kpival.

(** [section] of [_extract_numeric] may be a dict (pnl) or a list (bs). *)
Inductive section_value :=
| SDict (d : kvdict)
| SList (l : list LineItem).

Fixpoint any_in (key_snippets : list string) (label : string) : bool :=
  match key_snippets with
  | key :: rest => contains key label || any_in rest label
  | [] => false
  end.

(** The [current_period] of the first row whose upper-cased label contains
    one of the snippets. *)
Fixpoint _find_single_value (items : list LineItem)
    (key_snippets : list string) : option float :=
  match items with
  | it :: rest =>
      if nonempty (item it) && any_in key_snippets (upper (item it))
      then current_period it
      else _find_single_value rest key_snippets
  | [] => None
  end.

Fixpoint first_entry (d : kvdict) (key_snippets : list string)
  : option float :=
  match d with
  | (k, v) :: rest =>
      if any_in key_snippets (upper k) then value v
      else first_entry rest key_snippets
  | [] => None
  end.

Definition _extract_numeric (section : section_value)
    (key_snippets : list string) : option float :=
  match section with
  | SDict d => first_entry d key_snippets
  | SList l => _find_single_value l key_snippets
  end.

(** Truthiness of a value that is a float or [None]. *)
Definition truthy (v : option float) : bool :=
  match v with Some x => Num.truthy x | None => false end.

(** [metrics.get(k)] when it is not [None]. *)
Definition metric (metrics : kpidict) (k : string) : option kpival :=
  dict_get k metrics.

Definition shown (v : kpival) : fstring :=
  match v with KNum x => [Float x] | KStr s => s end.

Definition summary_part (metrics : kpidict) (k : string)
    (before after : string) : list fstring :=
  match metric metrics k with
  | Some v =>
      [Text before :: shown v ++ (if nonempty after then [Text after] else [])]
  | None => []
  end.

Definition _generate_summary (metrics : kpidict) : fstring :=
  if negb (nonempty_list metrics)
  then [Text "Insufficient parsed metrics for summary."]
  else
    let parts :=
      summary_part metrics "net_profit_margin_pct" "Net profit margin ~ " "%"
      ++ summary_part metrics "debt_to_equity" "Debt-to-equity ratio ~ " ""
      ++ summary_part metrics "equity_to_assets_pct"
           "Equity-to-assets ratio ~ " "%"
      ++ summary_part metrics "free_cash_flow" "Free cash flow ≈ ₹" " crore"
      ++ summary_part metrics "return_on_equity_pct" "Return on equity ~ " "%"
      ++ summary_part metrics "asset_turnover_ratio"
           "Asset turnover ratio ~ " "" in
    let parts :=
      if negb (nonempty_list parts)
      then match metric metrics "revenue", metric metrics "net_profit" with
           | Some r, Some p =>
               [Text "Revenue: ₹" :: shown r
                ++ Text ", Net profit: ₹" :: shown p]
           | _, _ => []
           end
      else parts in
    if nonempty_list parts then join "; " parts
    else [Text "Insufficient parsed data."].

(** [if cond: try: result[k] = round(q, 2) except Exception: pass],
    where [q] is the outcome of the computation of the ratio. *)
Definition store_ratio (cond : bool) (k : string) (q : except float)
    (result : kpidict) : kpidict :=
  if cond
  then match q with
       | Ok x => dict_set k (KNum (Num.round2 x)) result
       | Raise _ => result
       end
  else result.

(** [if v is not None: result[k] = v] *)
Definition store_raw (k : string) (v : option float) (result : kpidict)
  : kpidict :=
  match v with
  | Some x => dict_set k (KNum x) result
  | None => result
  end.

Definition unsupported_none (op : string) : exn :=
  TypeError ("unsupported operand type(s) for " ++ op ++ ": 'NoneType'")%string.

(** [a / b] and [a - b] on values that are floats or [None]. *)
Definition ratio (a b : option float) : except float :=
  match a, b with
  | Some x, Some y => Num.div x y
  | _, _ => Raise (unsupported_none "/")
  end.

Definition difference (a b : option float) : except float :=
  match a, b with
  | Some x, Some y => Ok (x - y)%float
  | _, _ => Raise (unsupported_none "-")
  end.

Definition pct (q : except float) : except float :=
  x <- q ;; Ok (x * 100)%float.

(** The local values of [compute_kpis] that the later statements read. *)
Record Locals := {
  result : kpidict;
  revenue : option float;
  net_profit : option float
}.

(** [compute_kpis] up to and including the raw values. *)
Definition kpi_metrics (parsed : ParsedDocument) : Locals :=
  let bs_items := match balance_sheet (sections parsed) with
                  | Some l => l
                  | None => []
                  end in
  let pnl := match pnl (sections parsed) with Some d => d | None => [] end in
  let cf := match cash_flow (sections parsed) with
            | Some d => d
            | None => []
            end in
  let total_assets := _find_single_value bs_items ["TOTAL ASSETS"] in
  let total_equity := _find_single_value bs_items ["TOTAL EQUITY"] in
  let total_liabilities := _find_single_value bs_items ["TOTAL LIABILITIES"] in
  let revenue := _extract_numeric (SDict pnl) ["REVENUE"; "TOTAL INCOME"] in
  let net_profit :=
    _extract_numeric (SDict pnl)
      ["PROFIT"; "NET PROFIT"; "PROFIT FOR THE PERIOD"] in
  let result : kpidict := [] in
  (* ratios *)
  let result :=
    store_ratio (truthy revenue && truthy net_profit)
      "net_profit_margin_pct" (pct (ratio net_profit revenue)) result in
  let result :=
    store_ratio (truthy total_equity && truthy total_liabilities)
      "debt_to_equity" (ratio total_liabilities total_equity) result in
  let result :=
    store_ratio (truthy total_assets && truthy total_equity)
      "equity_to_assets_pct" (pct (ratio total_equity total_assets)) result in
  let result :=
    store_ratio (truthy total_assets && truthy revenue)
      "asset_turnover_ratio" (ratio revenue total_assets) result in
  let result :=
    store_ratio (truthy total_equity && truthy net_profit)
      "return_on_equity_pct" (pct (ratio net_profit total_equity)) result in
  (* cash-related *)
  let operating_cf :=
    _extract_numeric (SDict cf)
      ["NET CASH GENERATED"; "OPERATING"; "CASH GENERATED FROM OPERATIONS"] in
  let capex := _extract_numeric (SDict cf) ["Purchase"; "CAPEX"] in
  let result :=
    store_ratio (is_some operating_cf && is_some capex)
      "free_cash_flow" (difference operating_cf capex) result in
  (* include raw values where available to help debugging *)
  let result := store_raw "revenue" revenue result in
  let result := store_raw "net_profit" net_profit result in
  let result := store_raw "total_assets" total_assets result in
  let result := store_raw "total_equity" total_equity result in
  let result := store_raw "total_liabilities" total_liabilities result in
  {| result := result; revenue := revenue; net_profit := net_profit |}.

(** The scale correction: when profit exceeds five times the revenue, the
    local [revenue] or [net_profit] is rebound. *)
Definition scale_correction (l : Locals) : Locals :=
  match revenue l, net_profit l with
  | Some r, Some p =>
      if Num.truthy r && Num.truthy p && Num.gt p (5 * r)
      then
        if Num.lt r 1000
        then {| result := result l; revenue := Some (r * 1000)%float;
                net_profit := net_profit l |}
        else if Num.gt p 1e6
        then {| result := result l; revenue := revenue l;
                net_profit := Some (p / 100)%float |}
        else l
      else l
  | _, _ => l
  end.

(** [result["summary"] = _generate_summary(result)]; [return result] *)
Definition finish (l : Locals) : kpidict :=
  dict_set "summary" (KStr (_generate_summary (result l))) (result l).

(** No statement of the [try] body raises on a parsed document (the
    divisions, its partial operations, have handlers of their own), so the
    outer handler, which would set ["error"], is not entered. *)
Definition compute_kpis (parsed : ParsedDocument) : kpidict :=
  finish (scale_correction (kpi_metrics parsed)).

(** [compute_kpis] with the scale-correction statement removed. *)
Definition compute_kpis_without_correction (parsed : ParsedDocument)
  : kpidict :=
  finish (kpi_metrics parsed).

(* ================================================================== *)
(** * app/services/trend_analysis_service.py *)
(* ================================================================== *)

Record PeriodEntry := {
  entry_meta : Meta;
  entry_kpis : kpidict
}.

Record Comparison := {
  latest : float;
  previous_value : float;
  growth_pct : option float
}.

(** [result["comparisons"]]: [None] is the initial [{}]. *)
Record Comparisons := {
  periods : list string;
  metrics : dict Comparison
}.

Record Trend := {
  timeseries : dict PeriodEntry;
  comparisons : option Comparisons
}.

(** [meta.get("period_hint") or meta.get("company") or f"period_{n+1}"] *)
Definition period_key (m : Meta) (n : nat) : string :=
  match period_hint m with
  | Some (Some h) =>
      if nonempty h then h
      else if nonempty (company m) then company m
      else ("period_" ++ str_of_nat (n + 1))%string
  | _ =>
      if nonempty (company m) then company m
      else ("period_" ++ str_of_nat (n + 1))%string
  end.

Definition add_period (ts : dict PeriodEntry) (p : ParsedDocument)
  : dict PeriodEntry :=
  let m := meta p in
  let period := period_key m (List.length ts) in
  let kpis := compute_kpis p in
  dict_set period {| entry_meta := m; entry_kpis := kpis |} ts.

(** [sorted(keys)] *)
Fixpoint insert_key (k : string) (l : list string) : list string :=
  match l with
  | y :: t => if str_ltb k y then k :: l else y :: insert_key k t
  | [] => [k]
  end.

Definition sorted_keys (l : list string) : list string :=
  fold_left (fun acc k => insert_key k acc) l [].

(** [periods[-2]] and [periods[-1]] of a list of at least two. *)
Definition last_two (l : list string) : option (string * string) :=
  match rev l with
  | latest :: prev :: _ => Some (prev, latest)
  | _ => None
  end.

(** The growth of a metric, in percent, or [None] when the previous value
    is 0 (or the computation raises). *)
Definition growth (latest_v prev_v : float) : option float :=
  if Num.ne prev_v 0
  then match pct (Num.div (latest_v - prev_v) (PrimFloat.abs prev_v)) with
       | Ok x => Some (Num.round2 x)
       | Raise _ => None
       end
  else None.

(** One step of the loop over the metrics of the latest period: a metric
    that is a number in both periods gets its comparison. *)
Definition comparison_of (latest_kpis prev_kpis : kpidict)
    (comparisons : dict Comparison) (kv : string * kpival) : dict Comparison :=
  let k := fst kv in
  match dict_get k latest_kpis, dict_get k prev_kpis with
  | Some (KNum l), Some (KNum p) =>
      dict_set k {| latest := l; previous_value := p;
                    growth_pct := growth l p |} comparisons
  | _, _ => comparisons
  end.

Definition compare_kpis (latest_kpis prev_kpis : kpidict) : dict Comparison :=
  fold_left (comparison_of latest_kpis prev_kpis) latest_kpis [].

Definition kpis_of (ts : dict PeriodEntry) (k : string) : kpidict :=
  match dict_get k ts with
  | Some e => entry_kpis e
  | None => []
  end.

Definition aggregate_periods (parsed_list : list ParsedDocument) : Trend :=
  let ts := fold_left add_period parsed_list [] in
  (* compute pairwise comparisons (eg latest vs previous) *)
  let sorted_periods := sorted_keys (dict_keys ts) in
  match last_two sorted_periods with
  | Some (prev, latest_period) =>
      let latest_kpis := kpis_of ts latest_period in
      let prev_kpis := kpis_of ts prev in
      {| timeseries := ts;
         comparisons :=
           Some {| periods := [prev; latest_period];
                   metrics := compare_kpis latest_kpis prev_kpis |} |}
  | None => {| timeseries := ts; comparisons := None |}
  end.

(* ================================================================== *)
(** * Sample documents *)
(* ================================================================== *)

(** Narrative text: no statement heading, one sentence with numbers. *)
Definition narrative_text : string :=
  "Our company hired 1,200 engineers in 2023".

(** A text whose only recognised heading is the cash-flow one. *)
Definition cash_flow_only_text : string :=
  "Cash flow statement
Net cash generated 500".

(** A balance sheet followed by a statement of profit and loss. *)
Definition two_statements_text : string :=
  "ACME LIMITED
Balance Sheet as at March 31, 2024
Total Assets 1,000 900
Total Equity 600 500
Total Liabilities 400 400
Statement of Profit and Loss for the year ended March 31, 2024
Revenue from operations 2,000 1,500
Profit for the period 300 200
".

(** A profit-and-loss statement in crore that also mentions total assets;
    no balance-sheet heading. *)
Definition pnl_in_crore_text : string :=
  "Statement of Profit and Loss (Rs. in crore)
Revenue from operations 900 800
Total Assets 5,000 4,500
".

(** A balance sheet whose first "Total Equity" line ends in a date, which
    is a numeric token but not a number. *)
Definition unparsable_equity_text : string :=
  "Balance Sheet of the Company
Total Assets 1,000
Total Equity as at 31.03.2024
Total Liabilities 1,000
".

Definition balance_sheet_text (assets equity liabilities : string) : string :=
  ("Balance Sheet of the Company
Total Assets " ++ assets ++ "
Total Equity " ++ equity ++ "
Total Liabilities " ++ liabilities ++ "
")%string.

Definition row (label : string) (v : option float) : LineItem :=
  {| item := label; current_period := v; previous_period := Some None;
     confidence := if is_some v then "high" else "low" |}.

(** A parsed document with the given balance sheet and P&L. *)
Definition document (bs : list LineItem) (p : kvdict) : ParsedDocument :=
  {| meta := {| company := "Unknown"; meta_unit := "units";
                period_hint := None |};
     scale := 1;
     sections := {| balance_sheet := Some bs; pnl := Some p;
                    cash_flow := Some []; changes_in_equity := Some [] |};
     tables := [];
     kpis := None;
     validation_warning := None |}.

(** A stored value that is a parsed token multiplied by the scale. *)
Definition scaled_value {pre : Preprocessing} (scale : float)
    (v : option float) : Prop :=
  v = None
  \/ exists token x, parse_number token = Some x /\ v = Some (x * scale)%float.

(** A stored value that is the float read from a token, as it is. *)
Definition unscaled_value (v : option float) : Prop :=
  exists token x, Num.float_of_str token = Some x /\ v = Some x.

(** A parsed document of the period [hint] with the given revenue. *)
Definition period_document (hint : string) (rev : float) : ParsedDocument :=
  {| meta := {| company := "ACME LIMITED"; meta_unit := "units";
                period_hint := Some (Some hint) |};
     scale := 1;
     sections := {| balance_sheet := Some [];
                    pnl := Some [("Revenue",
                                  {| value := Some rev; previous := None |})];
                    cash_flow := Some []; changes_in_equity := Some [] |};
     tables := [];
     kpis := None;
     validation_warning := None |}.

(** Two quarters: revenue 100, then 120. *)
Definition two_periods : list ParsedDocument :=
  [period_document "Q2 FY25" 120; period_document "Q1 FY25" 100].

(* ================================================================== *)
(** * Notions used by the properties *)
(* ================================================================== *)

(** The value of a side of the balance: that of the row found, zero when
    no row was found. *)
Definition side_value (it : option LineItem) : option float :=
  match it with
  | Some i => current_period i
  | None => Some 0%float
  end.

(** [|assets - (equity + liabilities)| > max(1.0, 0.001 * |assets|)] *)
Definition mismatch (assets equity liabilities : float) : bool :=
  Num.gt (PrimFloat.abs (assets - (equity + liabilities)))
         (Num.max 1 (Num.thousandth * PrimFloat.abs assets)).

(** [a <= b] for period keys: [b] is not before [a]. *)
Definition key_le (a b : string) : Prop := str_ltb b a = false.

(** A document on which the branch is taken and rebinds [revenue]. *)
Definition profit_above_revenue : ParsedDocument :=
  document []
    [("Revenue", {| value := Some 10%float; previous := None |});
     ("Net Profit", {| value := Some 100%float; previous := None |})].

(** A document whose net profit is zero and whose revenue is not. *)
Definition zero_profit_document : ParsedDocument :=
  document [row "Total Assets" (Some 1000%float);
            row "Total Equity" (Some 600%float)]
    [("Revenue", {| value := Some 100%float; previous := None |});
     ("Net Profit", {| value := Some 0%float; previous := None |})].


(** The row that the fallback extractor writes for a total it has read,
    and the entry that a fallback writes for a P&L figure. *)
Definition total_row (label : string) (v : option float) : list LineItem :=
  match v with
  | Some x => [{| item := label; current_period := Some x;
                  previous_period := None; confidence := "high" |}]
  | None => []
  end.

Definition fallback_entry (label : string) (v : option float) : kvdict :=
  match v with
  | Some x => [(label, {| value := Some x; previous := None |})]
  | None => []
  end.

(** The sections of a parse on which extraction takes place, by the
    source of each: [bs0], [pnl0], [cf0] and [ce0] are the section-based
    extractions, [pnl_fb] the document-wide P&L fallback, [fb] the fallback
    extractor. *)
Definition sections_by_source {pre : Preprocessing} (cleaned_text : string)
  : Sections :=
  let blocks := _split_into_sections cleaned_text in
  let factor := fst (detect_document_scale cleaned_text) in
  let bs0 :=
    _extract_table_like_section (get_str "balance_sheet" blocks) factor in
  let pnl0 := _extract_simple_kv (get_str "pnl" blocks) factor in
  let cf0 := _extract_simple_kv (get_str "cash_flow" blocks) factor in
  let ce0 := _extract_simple_kv (get_str "changes_in_equity" blocks) factor in
  let pnl_fb := _extract_pnl_from_text cleaned_text factor in
  let fb := _extract_from_text cleaned_text in
  {| balance_sheet :=
       Some (if nonempty_list bs0 then bs0 else fb_balance_sheet fb);
     pnl :=
       Some (if nonempty_list pnl0 then pnl0
             else if nonempty_list pnl_fb then pnl_fb
             else if nonempty_list bs0 then []
             else fb_pnl fb);
     cash_flow := Some cf0;
     changes_in_equity := Some ce0 |}.


(** The profit-and-loss sample in crore, as parsed. *)
Definition pnl_in_crore_document : ParsedDocument :=
  Eval vm_compute in
  match @parse_financial_document SpecPreprocessing.instance
          pnl_in_crore_text [] with
  | Ok parsed => parsed
  | Raise _ => document [] []
  end.

(** ** Groups and literal words of a pattern *)

(** The numbers of the capturing groups of a pattern. *)
Fixpoint groups_of (r : Re.re) : list nat :=
  match r with
  | Re.Cat a b | Re.Alt a b => groups_of a ++ groups_of b
  | Re.Rep a _ _ _ | Re.LookAhead a => groups_of a
  | Re.Group n a => n :: groups_of a
  | _ => []
  end.

(** [body] hands to its continuation the captures it was given, with
    captures of the groups [gs] added in front. *)
Definition adds (gs : list nat) (body : Re.matcher) : Prop :=
  forall k c cs res,
    body k c cs = Some res ->
    exists c' added,
      k c' (added ++ cs) = Some res
      /\ Forall (fun e : nat * string => In (fst e) gs) added.

(** The words of a pattern made of literals, sequences, alternatives and
    groups only. *)
Fixpoint literal_words (r : Re.re) : option (list (list ascii)) :=
  match r with
  | Re.Lit c => Some [[c]]
  | Re.Empty => Some [[]]
  | Re.Cat a b =>
      match literal_words a, literal_words b with
      | Some x, Some y => Some (flat_map (fun u => map (app u) y) x)
      | _, _ => None
      end
  | Re.Alt a b =>
      match literal_words a, literal_words b with
      | Some x, Some y => Some (x ++ y)
      | _, _ => None
      end
  | Re.Group _ a => literal_words a
  | _ => None
  end.

(** The months of the period pattern. *)
Definition period_months : Re.re :=
  Eval vm_compute in
  match period_head with
  | Re.Cat (Re.Cat (Re.Cat (Re.Cat (Re.Group _ months) _) _) _) _ => months
  | r => r
  end.

(** What follows the month group in the period pattern. *)
Definition period_tail : Re.re :=
  Eval vm_compute in
  match period_head with
  | Re.Cat (Re.Cat (Re.Cat (Re.Cat _ a) b) c) d =>
      Re.Cat a (Re.Cat b (Re.Cat c (Re.Cat d year_group)))
  | r => r
  end.

(** A balance sheet whose sides differ, as parsed. *)
Definition unbalanced_document : ParsedDocument :=
  Eval vm_compute in
  match @parse_financial_document SpecPreprocessing.instance
          (balance_sheet_text "1,000" "500" "300") [] with
  | Ok parsed => parsed
  | Raise _ => document [] []
  end.

(** The two-statement sample, as parsed. *)
Definition two_statements_document : ParsedDocument :=
  Eval vm_compute in
  match @parse_financial_document SpecPreprocessing.instance
          two_statements_text [] with
  | Ok parsed => parsed
  | Raise _ => document [] []
  end.

(** Two documents of one period: revenue 100, then 120. *)
Definition one_period_twice : list ParsedDocument :=
  [period_document "Q1 FY25" 100; period_document "Q1 FY25" 120].

(** A string with a lower-case letter. *)
Definition has_lower (s : string) : bool := existsb is_lower (chars s).

(** The ratio of two inputs as [compute_kpis] stores it: computed when
    both are numbers other than zero, rounded to two decimals, in percent
    or not. *)
Definition ratio_metric (percent : bool) (num den : option float)
  : option kpival :=
  match num, den with
  | Some n, Some d =>
      if Num.truthy n && Num.truthy d
      then Some (KNum (Num.round2 (if percent then n / d * 100 else n / d)))
      else None
  | _, _ => None
  end.

(** ** Cursors and matches in a subject *)

(** The cursor [c] is a position in the subject [l]. *)
Definition cursor_in (l : list ascii) (c : Re.cursor) : Prop :=
  Re.rest c = skipn (Re.pos c) l /\ Re.pos c <= List.length l.

(** The matches [ms] follow each other from index [from] on, within a
    subject of [n] characters. *)
Fixpoint in_order (n from : nat) (ms : list Re.match_) : Prop :=
  match ms with
  | [] => True
  | m :: ms' =>
      from <= Re.m_start m /\ Re.m_start m <= Re.m_end m /\ Re.m_end m <= n
      /\ in_order n (Re.m_end m) ms'
  end.

(** The total length of a list of strings. *)
Definition total_len (l : list string) : nat :=
  fold_right (fun s n => len s + n) 0 l.

(** ** Runs of characters and fields between separators *)

(** The length of the longest prefix of [l] whose characters satisfy
    [ok]. *)
Fixpoint run_length (ok : ascii -> bool) (l : list ascii) : nat :=
  match l with
  | a :: t => if ok a then S (run_length ok t) else 0
  | [] => 0
  end.

(** The fields of [l] between its maximal runs of separators; [in_sep]
    tells that the character before [l] was a separator. A separator at
    either end leaves an empty field there. *)
Fixpoint fields (sep : ascii -> bool) (in_sep : bool) (l : list ascii)
  : list (list ascii) :=
  match l with
  | [] => [[]]
  | a :: t =>
      if sep a
      then if in_sep then fields sep true t else [] :: fields sep true t
      else match fields sep false t with
           | p :: ps => (a :: p) :: ps
           | [] => [[a]]
           end
  end.

(** A pattern that is one bracketed set repeated once or more. *)
Definition set_plus (negated : bool) (items : list Re.citem) : Re.re :=
  Re.Rep (Re.CharSet negated items) 1 None true.

(** The continuation of a whole match: it accepts wherever it is
    reached. *)
Definition accept : Re.cursor -> Re.captures -> Re.outcome :=
  fun c' cs' => Some (c', cs').

(* ================================================================== *)
(** * Paths: [os.path] on a POSIX host *)
(* ================================================================== *)

Module OsPath.

(** [s.rfind(c)] for a one-character [c]: the index of its last
    occurrence, or -1. *)
Fixpoint rfind_from (c : ascii) (l : list ascii) (i found : Z) : Z :=
  match l with
  | [] => found
  | a :: t => rfind_from c t (i + 1) (if Ascii.eqb a c then i else found)
  end.

Definition rfind (c : ascii) (s : string) : Z :=
  rfind_from c (chars s) 0 (-1).

(** [os.path.basename(p)]: what follows the last slash. *)
Definition basename (p : string) : string :=
  let i := (rfind "/" p + 1)%Z in
  str (skipn (Z.to_nat i) (chars p)).

(** The loop of [splitext] over the characters between the last slash and
    the last dot: it returns as soon as one of them is not a dot. *)
Fixpoint has_name (between_sep_and_dot : list ascii) : bool :=
  match between_sep_and_dot with
  | [] => false
  | a :: t => if negb (Ascii.eqb a ".") then true else has_name t
  end.

(** [os.path.splitext(p)]: the extension starts at the last dot of the
    last component, unless that component has only dots before it. *)
Definition splitext (p : string) : string * string :=
  let sepIndex := rfind "/" p in
  let dotIndex := rfind "." p in
  if (sepIndex <? dotIndex)%Z
     && has_name (firstn (Z.to_nat (dotIndex - (sepIndex + 1)))
                         (skipn (Z.to_nat (sepIndex + 1)) (chars p)))
  then (str (firstn (Z.to_nat dotIndex) (chars p)),
        str (skipn (Z.to_nat dotIndex) (chars p)))
  else (p, "").

End OsPath.

(** [re.fullmatch(pattern, s)]: a match of the whole of [s]. *)
Definition fullmatch (fl : Re.flags) (pattern : string) (s : string)
  : option Re.match_ :=
  match Re.run fl (Re.compile pattern)
          (fun c' cs' =>
             if Num.is_nil (Re.rest c') then Some (c', cs') else None)
          (Re.start_of (chars s)) [] with
  | Some (c', cs) =>
      Some {| Re.m_start := 0; Re.m_end := Re.pos c'; Re.m_caps := cs |}
  | None => None
  end.

(* ================================================================== *)
(** * app/utils/company_extract.py *)
(* ================================================================== *)

(** Regex to split on spaces, underscores, or hyphens *)
Definition DELIMITER_PATTERN : string := "[\s_\-]+".

(** The loop over the tokens: the first one that is not blank and not a
    UUID-like string of 32 hexadecimal digits, in upper case. *)
Fixpoint first_company_token (tokens : list string) : option string :=
  match tokens with
  | [] => None
  | token :: rest =>
      let cleaned := strip token in
      if negb (nonempty cleaned) then first_company_token rest
      else if is_some (fullmatch Re.no_flags "[0-9a-f]{32}" (lower cleaned))
      then first_company_token rest
      else Some (upper cleaned)
  end.

Definition extract_company_name (filename : string) : string :=
  if negb (nonempty filename) then "UNKNOWN"
  else
    let base := fst (OsPath.splitext (OsPath.basename filename)) in
    if negb (nonempty base) then "UNKNOWN"
    else
      let tokens := Re.split DELIMITER_PATTERN base in
      match first_company_token tokens with
      | Some name => name
      | None =>
          (* If every token was empty/uuid, fall back to the original base *)
          upper base
      end.

(** The delimiters of [DELIMITER_PATTERN]. *)
Definition is_delimiter (a : ascii) : bool :=
  is_space a || Ascii.eqb a "_" || Ascii.eqb a "-".

(** A field that [extract_company_name] takes for a name: not empty and
    not 32 hexadecimal digits. *)
Definition usable (f : list ascii) : bool :=
  negb (Num.is_nil f)
  && negb (is_some (fullmatch Re.no_flags "[0-9a-f]{32}" (lower (str f)))).

(** A character that is neither a slash nor a dot. *)
Definition plain (a : ascii) : bool :=
  negb (Ascii.eqb a "/") && negb (Ascii.eqb a ".").

(* ================================================================== *)
(** * app/services/ocr_service.py *)
(* ================================================================== *)

(** [s.endswith(suffix)] *)
Definition endswith (s suffix : string) : bool :=
  is_prefix (rev (chars suffix)) (rev (chars s)).

Module Ocr.

(** What [raise] raises: an [HTTPException], or an exception of a library
    of which the handlers only use the name of its type. *)
Inductive raised :=
| HTTP (status_code : nat) (detail : string)
| Other (type_name : string).

Section Service.

(** The cells of a table: strings or [None] from pdfplumber, any value
    from pandas. *)
Variable cell : Type.

Definition sheet := list (list cell).

(** A page of [pdfplumber]: [extract_text()], a string or [None], and
    [extract_tables() or []]. *)
Record Page := {
  page_text : option string;
  page_tables : list sheet
}.

(** What the service reads from outside: the file system, the pages of a
    PDF, the values and the rendering of an Excel sheet, and [clean_text]
    of [preprocessing_service]; a call that raises gives the name of the
    type of the exception ([clean_text]: [None], its handler does not look
    at the exception). *)
Record World := {
  path_exists : string -> bool;
  pdf_pages : string -> string + list Page;
  read_excel : string -> string + (sheet * string);
  clean_text : string -> option string
}.

Record Extracted := {
  raw_text : string;
  cleaned_text : string;
  tables : list sheet
}.

Variable w : World.

Definition allowed_ext : list string :=
  [".pdf"; ".xlsx"; ".xls"; ".jpg"; ".jpeg"; ".png"].

(** Validate file path and extensions *)
Definition validate_file (file_path : string) : raised + unit :=
  if negb (path_exists w file_path)
  then inl (HTTP 400 "File not found on server")
  else if negb (existsb (endswith (lower file_path)) allowed_ext)
  then inl (HTTP 415 "Unsupported file format.")
  else inr tt.

(** One turn of the loop over the pages: the text of the page is added
    after a line break when there is some, and so are its tables that are
    not empty. *)
Definition read_page (acc : string * list sheet) (page : Page)
  : string * list sheet :=
  let '(raw_text, tables) := acc in
  let raw_text :=
    match page_text page with
    | Some t =>
        if nonempty t then (raw_text ++ String "010" "" ++ t)%string
        else raw_text
    | None => raw_text
    end in
  (raw_text, tables ++ filter nonempty_list (page_tables page)).

(** The texts are returned cut to their first 50000 characters. *)
Definition text_limit : nat := Z.to_nat 50000.

Definition scanned_pdf : string :=
  "It is a scanned PDF or PDF text extraction returned empty. Upload a text-based PDF or enable OCR pathway.".

(** The branch of [extract_text] on the extension: the raw text and the
    tables, or what is raised inside the [try]. *)
Definition read_file (file_path ext : string)
  : raised + (string * list sheet) :=
  if String.eqb ext ".pdf"
  then match pdf_pages w file_path with
       | inl type_name => inl (Other type_name)
       | inr pages =>
           let '(raw_text, tables) := fold_left read_page pages ("", []) in
           if negb (nonempty (strip raw_text))
           then inl (HTTP 500 scanned_pdf)
           else inr (raw_text, tables)
       end
  else if String.eqb ext ".xlsx" || String.eqb ext ".xls"
  then match read_excel w file_path with
       | inl type_name =>
           inl (HTTP 500 ("Excel parsing failed (" ++ type_name ++ ")"))
       | inr (values, rendered) => inr (rendered, [values])
       end
  else inl (HTTP 415 "Unsupported file type.").

(** Extracts text and simple table structures from supported file types. *)
Definition extract_text (file_path : string) : raised + Extracted :=
  match validate_file file_path with
  | inl e => inl e
  | inr _ =>
      let ext := lower (snd (OsPath.splitext file_path)) in
      match read_file file_path ext with
      | inl (HTTP status_code detail) => inl (HTTP status_code detail)
      | inl (Other type_name) =>
          inl (HTTP 500 ("Unexpected extraction failure: " ++ type_name))
      | inr (raw_text, tables) =>
          let cleaned_text :=
            match clean_text w raw_text with
            | Some cleaned =>
                if negb (nonempty (strip cleaned)) then raw_text else cleaned
            | None => raw_text
            end in
          inr {| raw_text := take text_limit (strip raw_text);
                 cleaned_text := take text_limit (strip cleaned_text);
                 tables := tables |}
      end
  end.

End Service.

End Ocr.

(** A file system with every file, a PDF of one page with the
    two-statement sample and no table, and a [clean_text] that returns
    its argument. *)
Definition sample_world : Ocr.World (option string) :=
  {| Ocr.path_exists := fun _ => true;
     Ocr.pdf_pages :=
       fun _ => inr [{| Ocr.page_text := Some two_statements_text;
                        Ocr.page_tables := [] |}];
     Ocr.read_excel := fun _ => inl "ValueError";
     Ocr.clean_text := fun s => Some s |}.

(** What [extract_text] returns for a PDF in that world. *)
Definition sample_extraction : Ocr.Extracted (option string) :=
  Eval vm_compute in
  match Ocr.extract_text sample_world "uploads/report.pdf" with
  | inr r => r
  | inl _ => {| Ocr.raw_text := ""; Ocr.cleaned_text := "";
                Ocr.tables := [] |}
  end.

(** The cash-flow-only sample, as parsed. *)
Definition cash_flow_only_document : ParsedDocument :=
  Eval vm_compute in
  match @parse_financial_document SpecPreprocessing.instance
          cash_flow_only_text [] with
  | Ok parsed => parsed
  | Raise _ => document [] []
  end.

(** ** Blanks collapsed, and the characters of a name *)

(** [l] with every run of blanks replaced by one space; [in_sep] tells that
    the character before [l] was a blank. *)
Fixpoint collapse (in_sep : bool) (l : list ascii) : list ascii :=
  match l with
  | [] => []
  | a :: t =>
      if is_space a
      then if in_sep then collapse true t else " "%char :: collapse true t
      else a :: collapse false t
  end.

(** The only blanks of [l] are single spaces; [prev_space] tells that the
    character before [l] was a space. *)
Fixpoint single_spaced (prev_space : bool) (l : list ascii) : bool :=
  match l with
  | [] => true
  | a :: t =>
      if is_space a
      then Ascii.eqb a " " && negb prev_space && single_spaced true t
      else single_spaced false t
  end.

(** The characters that the last two substitutions of
    [_normalize_item_name] remove at the ends of a name: [[\W\d]]. *)
Definition not_name_char (a : ascii) : bool := negb (is_word a) || is_digit a.

(** A set repeated once or more at the start, and at the end, of the
    subject. *)
Definition set_plus_at_start (negated : bool) (items : list Re.citem) : Re.re :=
  Re.Cat Re.LineStart (set_plus negated items).

Definition set_plus_at_end (negated : bool) (items : list Re.citem) : Re.re :=
  Re.Cat (set_plus negated items) Re.LineEnd.

(** The continuation that accepts at the end of the subject only, as
    what follows a run that [$] ends. *)
Definition accept_at_end : Re.cursor -> Re.captures -> Re.outcome :=
  fun c' cs' => if Re.at_end c' then Some (c', cs') else None.

(** The first and the last character of a string satisfy [p], if any. *)
Definition ends_satisfy (p : ascii -> bool) (l : list ascii) : Prop :=
  match l with a :: _ => p a = true | [] => True end
  /\ match rev l with a :: _ => p a = true | [] => True end.

(** [x] is a run of consecutive characters of [l]. *)
Definition part_of (x l : list ascii) : Prop :=
  exists p q, l = p ++ x ++ q.

(* ================================================================== *)
(** * The objects of a parse *)
(* ================================================================== *)

(** [parse_financial_document] is given a list object, [tables], and
    builds the dicts and lists of its result, some of which it changes
    after they are built ([parsed["sections"][sec] = ...], [.update]) and
    some of which are shared ([tables or []], the objects of the fallback).
    Here these objects live in a heap, and the function is the sequence of
    its allocations and assignments. The extraction helpers are called with
    strings and floats only and the module binds no name that a function
    assigns ([logger] and the string [_NUM_TOKEN_RE] apart): what a helper
    returns is an object built in the call, allocated when it returns; the
    dicts of [meta] and [kpis] and the rows and entries, which nothing
    changes once built, are values of the object that holds them. *)

Module Heap.

Definition loc := nat.

Inductive obj :=
| TablesObj (tables : list table)
| RowsObj (rows : list LineItem)
| KvObj (entries : kvdict)
| SectionsObj (names : dict loc)
| DocObj (meta : Meta) (scale : float) (sections tables : loc)
         (kpis : option string) (validation_warning : option exn).

Definition heap := list obj.

(** A computation on the heap; [None]: a location that holds no object,
    or not one of the expected type, was read. *)
Definition M (A : Type) : Type := heap -> option (A * heap).

Definition ret {A} (a : A) : M A := fun h => Some (a, h).

Definition bind {A B} (m : M A) (f : A -> M B) : M B :=
  fun h => match m h with
           | Some (a, h') => f a h'
           | None => None
           end.

Definition stuck {A} : M A := fun _ => None.

Local Notation "'let*' x ':=' m 'in' f" := (bind m (fun x => f))
  (at level 10, x name, m at level 100, f at level 200).

(** A new object, at the end of the heap. *)
Definition new (o : obj) : M loc :=
  fun h => Some (List.length h, h ++ [o]).

Definition deref (l : loc) : M obj :=
  fun h => match nth_error h l with
           | Some o => Some (o, h)
           | None => None
           end.

Fixpoint replace (l : loc) (o : obj) (h : heap) : heap :=
  match h, l with
  | [], _ => []
  | _ :: t, 0 => o :: t
  | x :: t, S n => x :: replace n o t
  end.

(** The object at [l] becomes [o]. *)
Definition assign (l : loc) (o : obj) : M unit :=
  fun h => if (l <? List.length h)%nat then Some (tt, replace l o h)
           else None.

Fixpoint for_each {A} (l : list A) (body : A -> M unit) : M unit :=
  match l with
  | [] => ret tt
  | a :: t => let* _ := body a in for_each t body
  end.

(** Truthiness of an object: a list or a dict is true when it is not
    empty. *)
Definition truthy (o : obj) : bool :=
  match o with
  | TablesObj l => nonempty_list l
  | RowsObj l => nonempty_list l
  | KvObj d => nonempty_list d
  | SectionsObj d => nonempty_list d
  | DocObj _ _ _ _ _ _ => true
  end.

(** ** What a reader of the heap sees *)

Definition tables_at (h : heap) (l : loc) : option (list table) :=
  match nth_error h l with
  | Some (TablesObj t) => Some t
  | _ => None
  end.

Definition rows_at (h : heap) (l : loc) : option (list LineItem) :=
  match nth_error h l with
  | Some (RowsObj r) => Some r
  | _ => None
  end.

Definition kv_at (h : heap) (l : loc) : option kvdict :=
  match nth_error h l with
  | Some (KvObj d) => Some d
  | _ => None
  end.

(** The value under a key of the sections: [Some None] when the key is
    absent. *)
Definition entry_at {A} (read : loc -> option A) (l : option loc)
  : option (option A) :=
  match l with
  | Some l => match read l with
              | Some a => Some (Some a)
              | None => None
              end
  | None => Some None
  end.

Definition sections_at (h : heap) (l : loc) : option Sections :=
  match nth_error h l with
  | Some (SectionsObj d) =>
      match entry_at (rows_at h) (dict_get "balance_sheet" d),
            entry_at (kv_at h) (dict_get "pnl" d),
            entry_at (kv_at h) (dict_get "cash_flow" d),
            entry_at (kv_at h) (dict_get "changes_in_equity" d) with
      | Some bs, Some pnl, Some cf, Some ce =>
          Some {| balance_sheet := bs; pnl := pnl; cash_flow := cf;
                  changes_in_equity := ce |}
      | _, _, _, _ => None
      end
  | _ => None
  end.

(** The document at [l], with what its sections and tables hold. *)
Definition doc_at (h : heap) (l : loc) : option ParsedDocument :=
  match nth_error h l with
  | Some (DocObj m sc s t k w) =>
      match sections_at h s, tables_at h t with
      | Some secs, Some tbls =>
          Some {| meta := m; scale := sc; sections := secs; tables := tbls;
                  kpis := k; validation_warning := w |}
      | _, _ => None
      end
  | _ => None
  end.

(** What a call has returned or raised, read in the heap it leaves. *)
Definition outcome_at (h : heap) (o : except loc)
  : option (except ParsedDocument) :=
  match o with
  | Ok l => option_map Ok (doc_at h l)
  | Raise e => Some (Raise e)
  end.

(** [h'] is [h] with new objects: every object of [h] is as it was. *)
Definition extends (h h' : heap) : Prop := exists ext, h' = h ++ ext.

(** ** The parser *)

Section Parser.

Context {pre : Preprocessing}.

(** [tables or []] *)
Definition tables_or_new (tables : loc) : M loc :=
  let* o := deref tables in
  if truthy o then ret tables else new (TablesObj []).

(** [parsed["sections"]] *)
Definition sections_of (parsed : loc) : M loc :=
  let* o := deref parsed in
  match o with
  | DocObj _ _ s _ _ _ => ret s
  | _ => stuck
  end.

(** [parsed["sections"].get(sec)] *)
Definition get_section (parsed : loc) (sec : string) : M (option loc) :=
  let* s := sections_of parsed in
  let* o := deref s in
  match o with
  | SectionsObj d => ret (dict_get sec d)
  | _ => stuck
  end.

(** [parsed["sections"][sec]] *)
Definition section (parsed : loc) (sec : string) : M loc :=
  let* l := get_section parsed sec in
  match l with
  | Some l => ret l
  | None => stuck
  end.

(** [parsed["sections"][sec] = v] *)
Definition set_section (parsed : loc) (sec : string) (v : loc) : M unit :=
  let* s := sections_of parsed in
  let* o := deref s in
  match o with
  | SectionsObj d => assign s (SectionsObj (dict_set sec v d))
  | _ => stuck
  end.

(** [not parsed["sections"][sec]] *)
Definition section_is_empty (parsed : loc) (sec : string) : M bool :=
  let* l := section parsed sec in
  let* o := deref l in
  ret (negb (truthy o)).

(** [parsed["sections"]["pnl"].update(pnl_fb)]: the dict changes in
    place. *)
Definition update_section (parsed : loc) (sec : string) (other : kvdict)
  : M unit :=
  let* l := section parsed sec in
  let* o := deref l in
  match o with
  | KvObj d => assign l (KvObj (dict_update d other))
  | _ => stuck
  end.

(** [fallback = _extract_from_text(cleaned_text)]: a dict of three
    objects. *)
Definition new_fallback (cleaned_text : string) : M (dict loc) :=
  let fallback := _extract_from_text cleaned_text in
  let* bs := new (RowsObj (fb_balance_sheet fallback)) in
  let* pnl := new (KvObj (fb_pnl fallback)) in
  let* cf := new (KvObj (fb_cash_flow fallback)) in
  ret [("balance_sheet", bs); ("pnl", pnl); ("cash_flow", cf)].

(** [parsed["sections"][sec] =
       parsed["sections"].get(sec) or fallback.get(sec, {})]:
    the object that is there when it is true, the object of the fallback
    otherwise. *)
Definition or_fallback (parsed : loc) (fallback : dict loc) (sec : string)
  : M unit :=
  let* cur := get_section parsed sec in
  let* kept :=
    match cur with
    | Some l => let* o := deref l in ret (if truthy o then Some l else None)
    | None => ret None
    end in
  let* v :=
    match kept with
    | Some l => ret l
    | None => match dict_get sec fallback with
              | Some l => ret l
              | None => new (KvObj [])
              end
    end in
  set_section parsed sec v.

(** [_validate_basic_balance(parsed)] reads [parsed]. *)
Definition read_doc (parsed : loc) : M ParsedDocument :=
  fun h => match doc_at h parsed with
           | Some d => Some (d, h)
           | None => None
           end.

(** [parsed["validation_warning"] = str(e)] *)
Definition set_warning (parsed : loc) (e : exn) : M unit :=
  let* o := deref parsed in
  match o with
  | DocObj m sc s t k _ => assign parsed (DocObj m sc s t k (Some e))
  | _ => stuck
  end.

Definition parse_financial_document (cleaned_text : string) (tables : loc)
  : M (except loc) :=
  if negb (nonempty cleaned_text)
  then ret (Raise (HTTPException 400 "Empty cleaned_text"))
  else
    let '(scale, unit_label) := detect_document_scale cleaned_text in
    let blocks := _split_into_sections cleaned_text in
    if negb (statements_detected blocks)
    then
      let meta_info := _extract_meta cleaned_text "units" in
      let* s := new (SectionsObj []) in
      let* t := tables_or_new tables in
      let* parsed :=
        new (DocObj meta_info 1 s t (Some no_statements_summary) None) in
      ret (Ok parsed)
    else
      let meta_info := _extract_meta cleaned_text unit_label in
      let* s := new (SectionsObj []) in
      let* t := tables_or_new tables in
      let* parsed := new (DocObj meta_info scale s t None None) in
      (* Structured section parsing *)
      let* bs :=
        new (RowsObj (_extract_table_like_section
                        (get_str "balance_sheet" blocks) scale)) in
      let* _ := set_section parsed "balance_sheet" bs in
      let* pnl :=
        new (KvObj (_extract_simple_kv (get_str "pnl" blocks) scale)) in
      let* _ := set_section parsed "pnl" pnl in
      let* cf :=
        new (KvObj (_extract_simple_kv (get_str "cash_flow" blocks) scale)) in
      let* _ := set_section parsed "cash_flow" cf in
      let* ce :=
        new (KvObj (_extract_simple_kv
                      (get_str "changes_in_equity" blocks) scale)) in
      let* _ := set_section parsed "changes_in_equity" ce in
      (* If P&L not detected, try a document-wide P&L extraction *)
      let* no_pnl := section_is_empty parsed "pnl" in
      let* _ :=
        if no_pnl
        then
          let pnl_fb := _extract_pnl_from_text cleaned_text scale in
          if nonempty_list pnl_fb
          then update_section parsed "pnl" pnl_fb
          else ret tt
        else ret tt in
      (* Fallback extraction for missing or incomplete balance sheet *)
      let* no_bs := section_is_empty parsed "balance_sheet" in
      let* _ :=
        if no_bs
        then
          let* fallback := new_fallback cleaned_text in
          for_each ["balance_sheet"; "pnl"; "cash_flow"]
            (or_fallback parsed fallback)
        else ret tt in
      (* Validate basic balance (may raise) *)
      let* doc := read_doc parsed in
      match _validate_basic_balance doc with
      | Ok _ => ret (Ok parsed)
      | Raise e =>
          (* record validation warning instead of failing endpoint *)
          let* _ := set_warning parsed e in
          ret (Ok parsed)
      end.

End Parser.

End Heap.

(** A heap with the objects of a caller, the list of its tables among
    them, at location 1. *)
Definition caller_heap : Heap.heap :=
  [Heap.KvObj []; Heap.TablesObj [[[Some "Particulars"; None]]];
   Heap.RowsObj []].

(* ================================================================== *)
(** * Properties *)
(* ================================================================== *)

Unset Implicit Arguments.

(** ** Strings and dictionaries *)

Lemma nonempty_false s : nonempty s = false <-> s = "".
Proof. destruct s; simpl; split; intros H; try reflexivity; discriminate. Qed.

Lemma nonempty_list_false {A} (l : list A) : nonempty_list l = false <-> l = [].
Proof. destruct l; simpl; split; intros H; try reflexivity; discriminate. Qed.

Lemma nonempty_list_true {A} (l : list A) : nonempty_list l = true <-> l <> [].
Proof.
  destruct l; simpl; split; intros H; try reflexivity; try discriminate.
  now destruct H.
Qed.

Lemma chars_str l : chars (str l) = l.
Proof. apply list_ascii_of_string_of_list_ascii. Qed.

Lemma or_list_nonempty {A} (a b : list A) : a <> [] -> or_list a b = a.
Proof. destruct a; simpl; intros H; [now destruct H|reflexivity]. Qed.

Lemma dict_get_set {V} (k k' : string) (v : V) (d : dict V) :
  dict_get k (dict_set k' v d)
  = if String.eqb k' k then Some v else dict_get k d.
Proof.
  induction d as [|[k0 v0] d IH]; simpl.
  - reflexivity.
  - destruct (String.eqb k0 k') eqn:E0; simpl.
    + apply String.eqb_eq in E0. subst k0.
      destruct (String.eqb k' k); reflexivity.
    + destruct (String.eqb k0 k) eqn:E1.
      * apply String.eqb_eq in E1. rewrite <- E1, String.eqb_sym, E0.
        reflexivity.
      * exact IH.
Qed.

(** ** The matcher *)

Module ReFacts.
Import Re.

Lemma leads_nil c : leads c [] c.
Proof. split; simpl; auto. Qed.

Lemma leads_app c w1 c1 w2 c2 :
  leads c w1 c1 -> leads c1 w2 c2 -> leads c (w1 ++ w2) c2.
Proof.
  intros [R1 P1] [R2 P2]. split.
  - rewrite R1, R2, app_assoc. reflexivity.
  - rewrite P2, P1, length_app. lia.
Qed.

Lemma step_leads c a c' : step c = Some (a, c') -> leads c [a] c'.
Proof.
  unfold step. destruct c as [b l p]; simpl.
  destruct l as [|x l]; [discriminate|].
  intros H. injection H as <- <-. split; simpl; auto; lia.
Qed.

Lemma firstn_leads c w c' :
  leads c w c' -> firstn (pos c' - pos c) (rest c) = w.
Proof.
  intros [R P]. rewrite R, P.
  replace (pos c + List.length w - pos c) with (List.length w + 0) by lia.
  rewrite firstn_app_2. simpl. apply app_nil_r.
Qed.

Lemma one_sound ok k c cs res :
  one ok k c cs = Some res ->
  exists a c', ok a = true /\ leads c [a] c' /\ k c' cs = Some res.
Proof.
  unfold one. destruct (step c) as [[a c']|] eqn:S; [|discriminate].
  destruct (ok a) eqn:E; [|discriminate].
  intros H. exists a, c'. auto using step_leads.
Qed.

Lemma or_else_inv x y res :
  or_else x y = Some res -> x = Some res \/ y tt = Some res.
Proof. destruct x; simpl; auto. Qed.

Lemma below_within count hi : below count hi = true -> within (S count) hi.
Proof.
  destruct hi as [h|]; simpl; auto. intros H. apply Nat.ltb_lt in H. lia.
Qed.

Lemma iterate_sound L body lo hi greedy k :
  sound L body ->
  forall fuel count c cs res,
    within count hi ->
    iterate body lo hi greedy k fuel count c cs = Some res ->
    exists n w c' cs',
      times L n w /\ lo <= count + n /\ within (count + n) hi
      /\ leads c w c' /\ k c' cs' = Some res.
Proof.
  intros Hb. induction fuel as [|fuel IH]; intros count c cs res Hw H.
  - simpl in H. destruct (lo <=? count)%nat eqn:E; [|discriminate].
    apply Nat.leb_le in E.
    exists 0, [], c, cs. rewrite Nat.add_0_r.
    auto using times_O, leads_nil.
  - assert (Hstop :
      (if (lo <=? count)%nat then k c cs else None) = Some res ->
      exists n w c' cs',
        times L n w /\ lo <= count + n /\ within (count + n) hi
        /\ leads c w c' /\ k c' cs' = Some res).
    { destruct (lo <=? count)%nat eqn:E; [|discriminate].
      apply Nat.leb_le in E. intros Hk.
      exists 0, [], c, cs. rewrite Nat.add_0_r.
      auto using times_O, leads_nil. }
    assert (Hmore :
      (if below count hi
       then body (fun c' cs' =>
                    if (pos c <? pos c')%nat
                    then iterate body lo hi greedy k fuel (S count) c' cs'
                    else None) c cs
       else None) = Some res ->
      exists n w c' cs',
        times L n w /\ lo <= count + n /\ within (count + n) hi
        /\ leads c w c' /\ k c' cs' = Some res).
    { destruct (below count hi) eqn:B; [|discriminate]. intros Hm.
      apply Hb in Hm. destruct Hm as (w1 & c1 & cs1 & L1 & W1 & Hm).
      destruct (pos c <? pos c1)%nat; [|discriminate].
      apply IH in Hm; [|auto using below_within].
      destruct Hm as (n & w2 & c2 & cs2 & T & Hlo & Hhi & W2 & Hk).
      exists (S n), (w1 ++ w2), c2, cs2.
      replace (count + S n) with (S count + n) by lia.
      repeat split; eauto using times_S.
      - apply (proj1 (leads_app _ _ _ _ _ W1 W2)).
      - apply (proj2 (leads_app _ _ _ _ _ W1 W2)). }
    simpl in H. destruct greedy; apply or_else_inv in H; destruct H; auto.
Qed.

(** Soundness of the matcher: a successful run has consumed a word of the
    language of the pattern and then succeeded through its continuation. *)
Theorem run_sound fl r : sound (lang fl r) (run fl r).
Proof.
  induction r as [x| |neg items| | | | |r1 IHr1 r2 IHr2|r1 IHr1 r2 IHr2
                 |r IHr lo hi g|n r IHr|r IHr| ];
    intros k c cs res H; simpl in H.
  - apply one_sound in H. destruct H as (a & c' & ? & ? & ?).
    exists [a], c', cs. simpl. eauto.
  - apply one_sound in H. destruct H as (a & c' & ? & ? & ?).
    exists [a], c', cs. simpl. eauto.
  - apply one_sound in H. destruct H as (a & c' & ? & ? & ?).
    exists [a], c', cs. simpl. eauto.
  - destruct (at_boundary c); [|discriminate].
    exists [], c, cs. simpl. auto using leads_nil.
  - destruct (pos c =? 0)%nat; [|discriminate].
    exists [], c, cs. simpl. auto using leads_nil.
  - destruct (at_end c); [|discriminate].
    exists [], c, cs. simpl. auto using leads_nil.
  - exists [], c, cs. simpl. auto using leads_nil.
  - apply IHr1 in H. destruct H as (w1 & c1 & cs1 & L1 & W1 & H).
    apply IHr2 in H. destruct H as (w2 & c2 & cs2 & L2 & W2 & H).
    exists (w1 ++ w2), c2, cs2. simpl. eauto 8 using leads_app.
  - apply or_else_inv in H. destruct H as [H|H].
    + apply IHr1 in H. destruct H as (w & c' & cs' & ? & ? & ?).
      exists w, c', cs'. simpl. auto.
    + apply IHr2 in H. destruct H as (w & c' & cs' & ? & ? & ?).
      exists w, c', cs'. simpl. auto.
  - eapply iterate_sound in H; eauto.
    + destruct H as (n & w & c' & cs' & T & Hlo & Hhi & W & H).
      exists w, c', cs'. simpl. eauto 6.
    + destruct hi; simpl; auto. lia.
  - apply IHr in H. destruct H as (w & c' & cs' & ? & ? & ?).
    exists w, c'. eexists. simpl. eauto.
  - destruct (run fl r _ c cs) as [[c1 cs1]|]; [|discriminate].
    exists [], c, cs1. simpl. auto using leads_nil.
  - discriminate.
Qed.

(** *** The bound on the iterations is never reached *)

Lemma after_refl c : after c c.
Proof. exists []. apply leads_nil. Qed.

Lemma after_trans c c1 c2 : after c c1 -> after c1 c2 -> after c c2.
Proof. intros [w1 H1] [w2 H2]. exists (w1 ++ w2). eapply leads_app; eauto. Qed.

Lemma after_step c a c' : step c = Some (a, c') -> after c c'.
Proof. intros H. exists [a]. apply step_leads. exact H. Qed.

Lemma one_local ok : local (one ok).
Proof.
  intros k k' c cs H. unfold one.
  destruct (step c) as [[a c']|] eqn:S; [|reflexivity].
  destruct (ok a); [|reflexivity]. apply H. eapply after_step; eauto.
Qed.

Lemma iterate_local body lo hi greedy :
  local body ->
  forall fuel k k' count c cs,
    (forall c' cs', after c c' -> k c' cs' = k' c' cs') ->
    iterate body lo hi greedy k fuel count c cs
    = iterate body lo hi greedy k' fuel count c cs.
Proof.
  intros Hb. induction fuel as [|fuel IH]; intros k k' count c cs H; simpl.
  - rewrite (H c cs (after_refl c)). reflexivity.
  - rewrite (H c cs (after_refl c)).
    assert (E : body (fun c' cs' =>
                        if (pos c <? pos c')%nat
                        then iterate body lo hi greedy k fuel (S count) c' cs'
                        else None) c cs
                = body (fun c' cs' =>
                          if (pos c <? pos c')%nat
                          then iterate body lo hi greedy k' fuel (S count) c' cs'
                          else None) c cs).
    { apply Hb. intros c' cs' Hc'.
      destruct (pos c <? pos c')%nat; [|reflexivity].
      apply IH. intros c2 cs2 Hc2. apply H. eapply after_trans; eauto. }
    rewrite E. reflexivity.
Qed.

Lemma run_local fl r : local (run fl r).
Proof.
  induction r as [x| |neg items| | | | |r1 IHr1 r2 IHr2|r1 IHr1 r2 IHr2
                 |r IHr lo hi g|n r IHr|r IHr| ];
    intros k k' c cs H; simpl.
  - apply one_local; exact H.
  - apply one_local; exact H.
  - apply one_local; exact H.
  - rewrite (H c cs (after_refl c)). reflexivity.
  - rewrite (H c cs (after_refl c)). reflexivity.
  - rewrite (H c cs (after_refl c)). reflexivity.
  - apply H, after_refl.
  - apply IHr1. intros c1 cs1 H1. apply IHr2. intros c2 cs2 H2.
    apply H. eapply after_trans; eauto.
  - rewrite (IHr1 k k' c cs H), (IHr2 k k' c cs H). reflexivity.
  - apply iterate_local; auto.
  - apply IHr. intros c' cs' Hc'. apply H. exact Hc'.
  - destruct (run fl r _ c cs) as [[c1 cs1]|]; [|reflexivity].
    apply H, after_refl.
  - reflexivity.
Qed.

(** A sound matcher fails when its continuation always fails. *)
Lemma sound_none L body c cs :
  sound L body -> body (fun _ _ => None) c cs = None.
Proof.
  intros Hs. destruct (body (fun _ _ => None) c cs) as [res|] eqn:E;
    [|reflexivity].
  apply Hs in E. destruct E as (w & c' & cs' & _ & _ & E). discriminate.
Qed.

Lemma after_end c c' : rest c = [] -> after c c' -> pos c' = pos c.
Proof.
  intros Hc [w [R P]]. rewrite Hc in R.
  destruct w; [|discriminate]. simpl in P. lia.
Qed.

Lemma after_shorter c c' :
  after c c' -> (pos c <? pos c')%nat = true ->
  List.length (rest c') < List.length (rest c).
Proof.
  intros [w [R P]] H. apply Nat.ltb_lt in H.
  rewrite R, length_app. lia.
Qed.

(** At the end of the subject one more iteration cannot succeed. *)
Lemma no_more_at_end L body lo hi greedy k fuel count c cs :
  sound L body -> local body -> rest c = [] ->
  body (fun c' cs' =>
          if (pos c <? pos c')%nat
          then iterate body lo hi greedy k fuel count c' cs'
          else None) c cs = None.
Proof.
  intros Hs Hl Hc.
  rewrite (Hl _ (fun _ _ => None) c cs); [eapply sound_none; eauto|].
  intros c' cs' Hc'. rewrite (after_end _ _ Hc Hc'), Nat.ltb_irrefl.
  reflexivity.
Qed.

Lemma iterate_at_end L body lo hi greedy k fuel count c cs :
  sound L body -> local body -> rest c = [] ->
  iterate body lo hi greedy k fuel count c cs
  = if (lo <=? count)%nat then k c cs else None.
Proof.
  intros Hs Hl Hc. destruct fuel as [|fuel]; simpl; [reflexivity|].
  rewrite (no_more_at_end L) by assumption.
  destruct (below count hi), greedy; simpl; try reflexivity;
    destruct (if (lo <=? count)%nat then k c cs else None); reflexivity.
Qed.

(** Any fuel that is at least the length of the remaining subject gives
    the same result: the repetition is not cut short by its bound. *)
Theorem iterate_enough_fuel L body lo hi greedy k :
  sound L body -> local body ->
  forall fuel1 fuel2 count c cs,
    List.length (rest c) <= fuel1 ->
    List.length (rest c) <= fuel2 ->
    iterate body lo hi greedy k fuel1 count c cs
    = iterate body lo hi greedy k fuel2 count c cs.
Proof.
  intros Hs Hl. induction fuel1 as [|fuel1 IH]; intros fuel2 count c cs H1 H2.
  - assert (Hc : rest c = []) by (destruct (rest c); [reflexivity|simpl in H1; lia]).
    rewrite !(iterate_at_end L) by assumption. reflexivity.
  - destruct fuel2 as [|fuel2].
    + assert (Hc : rest c = []) by (destruct (rest c); [reflexivity|simpl in H2; lia]).
      rewrite !(iterate_at_end L) by assumption. reflexivity.
    + simpl.
      assert (E : body (fun c' cs' =>
                          if (pos c <? pos c')%nat
                          then iterate body lo hi greedy k fuel1 (S count) c' cs'
                          else None) c cs
                  = body (fun c' cs' =>
                            if (pos c <? pos c')%nat
                            then iterate body lo hi greedy k fuel2 (S count) c' cs'
                            else None) c cs).
      { apply Hl. intros c' cs' Hc'.
        destruct (pos c <? pos c')%nat eqn:Hp; [|reflexivity].
        pose proof (after_shorter _ _ Hc' Hp). apply IH; lia. }
      rewrite E. reflexivity.
Qed.

(** In particular for the repetitions of a pattern. *)
Corollary rep_enough_fuel fl r lo hi greedy k c cs fuel :
  List.length (rest c) <= fuel ->
  run fl (Rep r lo hi greedy) k c cs
  = iterate (run fl r) lo hi greedy k fuel 0 c cs.
Proof.
  intros H. simpl.
  apply (iterate_enough_fuel (lang fl r));
    auto using run_sound, run_local.
Qed.

(** A match found by a search is a match at some cursor. *)
Lemma search_from_inv fl r : forall fuel c m,
  search_from fl r fuel c = Some m -> exists c0, match_at fl r c0 = Some m.
Proof.
  induction fuel as [|fuel IH]; intros c m H; simpl in H.
  - destruct (match_at fl r c) eqn:E; [injection H as <-; eauto|discriminate].
  - destruct (match_at fl r c) eqn:E; [injection H as <-; eauto|].
    destruct (step c) as [[a c']|]; [eauto|discriminate].
Qed.

Lemma run_group fl n r k c cs :
  run fl (Group n r) k c cs
  = run fl r (fun c' cs' =>
                k c' ((n, str (firstn (pos c' - pos c) (rest c))) :: cs')) c cs.
Proof. reflexivity. Qed.

Lemma run_cat fl r1 r2 k c cs :
  run fl (Cat r1 r2) k c cs
  = run fl r1 (fun c' cs' => run fl r2 k c' cs') c cs.
Proof. reflexivity. Qed.

Lemma times_inv_2 P w :
  times P 2 w -> exists w1 w2, w = w1 ++ w2 /\ P w1 /\ P w2.
Proof.
  intros H. inversion H as [|n w1 w' H1 H2]; subst.
  inversion H2 as [|n w2 w'' H3 H4]; subst.
  inversion H4; subst. exists w1, w2. rewrite app_nil_r. auto.
Qed.

End ReFacts.

(** ** The reporting period *)

Lemma period_pattern_compiled :
  Re.compile period_pattern = Re.Cat period_head year_group.
Proof. vm_compute. reflexivity. Qed.

(** The year group of the period pattern captures "20" and two digits. *)
Lemma year_group_captures c cs c' cs' :
  Re.run Re.no_flags year_group (fun c' cs' => Some (c', cs')) c cs
  = Some (c', cs') ->
  exists d1 d2, is_digit d1 = true /\ is_digit d2 = true /\
    Re.lookup 2 cs' = Some (str ["2"%char; "0"%char; d1; d2]).
Proof.
  unfold year_group. rewrite ReFacts.run_group. intros H.
  apply ReFacts.run_sound in H. destruct H as (w & c2 & cs2 & L & W & H).
  injection H as <- <-. rewrite (ReFacts.firstn_leads _ _ _ W).
  cbn [Re.lang] in L.
  destruct L as (w12 & w34 & -> & (w1 & w2 & -> & (a1 & -> & L1) & (a2 & -> & L2))
                 & (n & Hlo & Hhi & T)).
  cbn [Re.within] in Hhi. assert (n = 2) by lia. subst n.
  apply ReFacts.times_inv_2 in T.
  destruct T as (w3 & w4 & -> & (d1 & -> & D1) & (d2 & -> & D2)).
  unfold Re.lit_has in L1, L2. cbn in L1, L2.
  apply Ascii.eqb_eq in L1, L2. subst.
  unfold Re.set_has in D1, D2. cbn in D1, D2. rewrite orb_false_r in D1, D2.
  exists d1, d2. repeat split; auto.
Qed.

Lemma digit_code d : is_digit d = true -> 48 <= code d <= 57.
Proof.
  unfold is_digit, between. intros H. apply andb_true_iff in H.
  destruct H as [H1 H2]. apply Nat.leb_le in H1, H2. lia.
Qed.

(** A date matched by the period pattern has a year from 2000 to 2099. *)
Lemma period_year_range text m :
  Re.search Re.no_flags period_pattern text = Some m ->
  2000 <= int_of_digits (group_or_empty m 2) <= 2099.
Proof.
  unfold Re.search. intros H.
  apply ReFacts.search_from_inv in H. destruct H as (c0 & H).
  rewrite period_pattern_compiled in H. unfold Re.match_at in H.
  rewrite ReFacts.run_cat in H.
  destruct (Re.run Re.no_flags period_head _ c0 []) as [[c' cs]|] eqn:E;
    [|discriminate].
  injection H as <-.
  apply ReFacts.run_sound in E. destruct E as (w & c1 & cs1 & _ & _ & E).
  apply year_group_captures in E. destruct E as (d1 & d2 & D1 & D2 & E).
  unfold group_or_empty, Re.group. cbn [Re.m_caps]. rewrite E.
  unfold int_of_digits. rewrite chars_str. cbn [fold_left].
  apply digit_code in D1, D2.
  change (code "2") with 50. change (code "0") with 48. lia.
Qed.

Lemma fy_agree_before_2099 year :
  2000 <= year <= 2098 -> fy_march year = fy_other year.
Proof.
  intros H. unfold fy_march, fy_other.
  replace year with (20 * 100 + (year - 2000)) by lia.
  replace (20 * 100 + (year - 2000) + 1) with ((year - 2000 + 1) + 20 * 100) by lia.
  rewrite Nat.Div0.mod_add.
  replace (20 * 100 + (year - 2000)) with ((year - 2000) + 20 * 100) by lia.
  rewrite Nat.Div0.mod_add.
  rewrite !Nat.mod_small by lia. reflexivity.
Qed.

(** C6 (as amended). For every date matched by the period pattern whose
    year is not 2099 -- the pattern admits the years 2000 to 2099 -- the
    fiscal-year number of the March branch of [_detect_period_hint],
    [(year + 1) % 100], equals the number of the branch of the other
    months, [year % 100 + 1]. *)
Theorem fiscal_year_branches_agree (text : string) (m : Re.match_) :
  Re.search Re.no_flags period_pattern text = Some m ->
  int_of_digits (group_or_empty m 2) <> 2099 ->
  fy_march (int_of_digits (group_or_empty m 2))
  = fy_other (int_of_digits (group_or_empty m 2)).
Proof.
  intros Hm Hy. apply period_year_range in Hm.
  apply fy_agree_before_2099. lia.
Qed.

Lemma fiscal_year_branches_agree_witness :
  Re.search Re.no_flags period_pattern "As at June 30, 2024"
  = Some {| Re.m_start := 6; Re.m_end := 19;
            Re.m_caps := [(2, "2024"); (1, "June")] |}
  /\ fy_march 2024 = fy_other 2024.
Proof.
  assert (H : Re.search Re.no_flags period_pattern "As at June 30, 2024"
              = Some {| Re.m_start := 6; Re.m_end := 19;
                        Re.m_caps := [(2, "2024"); (1, "June")] |})
    by (vm_compute; reflexivity).
  split; [exact H|].
  apply (fiscal_year_branches_agree _ _ H). vm_compute. discriminate.
Defined.

(** C6 (counterexample). In 2099, a year the period pattern matches, the
    March branch computes 0 and the branch of the other months 100: the
    labels are "FY0" and "FY100". *)
Lemma fiscal_year_branches_differ_in_2099 :
  _detect_period_hint "As at March 31, 2099" = Some "Q4 FY0"
  /\ _detect_period_hint "As at June 30, 2099" = Some "Q1 FY100"
  /\ fy_march 2099 = 0 /\ fy_other 2099 = 100.
Proof. repeat split; vm_compute; reflexivity. Qed.

(** ** The document parser *)

Section Parser.

Context {pre : Preprocessing}.

(** A text without any recognised heading is one block, the balance sheet:
    the parser does not take it for narrative content. *)
Lemma no_heading_is_balance_sheet (text : string) :
  text <> "" ->
  find_positions text = [] ->
  _split_into_sections text = [("balance_sheet", text)]
  /\ statements_detected (_split_into_sections text) = true.
Proof.
  intros Ht Hp. unfold _split_into_sections. rewrite Hp.
  destruct text as [|a t]; [now destruct Ht|]. simpl. auto.
Qed.

(** On every non-empty text without a recognised heading the whole
    pipeline runs: the result has the four section keys and no KPI entry. *)
Lemma heading_free_text_runs_the_pipeline
    (cleaned_text : string) (tables : list table) :
  cleaned_text <> "" ->
  find_positions cleaned_text = [] ->
  exists parsed,
    parse_financial_document cleaned_text tables = Ok parsed
    /\ kpis parsed = None
    /\ is_some (balance_sheet (sections parsed)) = true
    /\ is_some (pnl (sections parsed)) = true
    /\ is_some (cash_flow (sections parsed)) = true
    /\ is_some (changes_in_equity (sections parsed)) = true.
Proof.
  intros Ht Hp.
  destruct (no_heading_is_balance_sheet _ Ht Hp) as [_ Hs].
  unfold parse_financial_document.
  destruct cleaned_text as [|a t]; [now destruct Ht|].
  cbn [nonempty negb].
  destruct (detect_document_scale (String a t)) as [scale unit_label].
  rewrite Hs. cbn [negb].
  match goal with
  | |- context [if ?b then _ else (?x, ?y, ?z)] => destruct b
  end;
  match goal with
  | |- context [_validate_basic_balance ?p] =>
      destruct (_validate_basic_balance p)
  end;
  eexists; repeat split; reflexivity.
Qed.

(** C1 (as amended). For every non-empty cleaned_text of which the section
    splitter keeps neither a balance_sheet nor a pnl block (headings of
    other statements only, or blocks too short to be kept),
    [parse_financial_document] returns the document with the empty sections
    mapping and the fixed summary that no financial statements were
    detected. *)
Theorem short_circuit_without_statement_blocks
    (cleaned_text : string) (tables : list table) :
  cleaned_text <> "" ->
  statements_detected (_split_into_sections cleaned_text) = false ->
  parse_financial_document cleaned_text tables
  = Ok {| meta := _extract_meta cleaned_text "units";
          scale := 1;
          sections := no_sections;
          tables := tables;
          kpis := Some no_statements_summary;
          validation_warning := None |}.
Proof.
  intros Ht Hs. unfold parse_financial_document.
  destruct cleaned_text as [|a t]; [now destruct Ht|].
  cbn [nonempty negb].
  destruct (detect_document_scale (String a t)) as [scale unit_label].
  rewrite Hs. reflexivity.
Qed.

(** C3. [parse_financial_document] raises exactly when [cleaned_text] is
    empty: for the empty string it raises the bad-request (400) error
    "Empty cleaned_text"; for every non-empty text it returns a result. *)
Theorem parse_raises_exactly_on_empty_text
    (cleaned_text : string) (tables : list table) :
  (cleaned_text = ""
   /\ parse_financial_document cleaned_text tables
      = Raise (HTTPException 400 "Empty cleaned_text"))
  \/ (cleaned_text <> ""
      /\ exists parsed,
           parse_financial_document cleaned_text tables = Ok parsed).
Proof.
  unfold parse_financial_document.
  destruct (nonempty cleaned_text) eqn:E.
  - right. split. { intros ->. discriminate. }
    cbn [negb].
    destruct (detect_document_scale cleaned_text) as [scale unit_label].
    destruct (negb (statements_detected _)).
    + eexists. reflexivity.
    + match goal with
      | |- context [if ?b then _ else (?x, ?y, ?z)] => destruct b
      end;
      match goal with
      | |- context [_validate_basic_balance ?p] =>
          destruct (_validate_basic_balance p)
      end;
      eexists; reflexivity.
  - left. apply nonempty_false in E. subst. split; reflexivity.
Qed.

End Parser.

Lemma short_circuit_without_statement_blocks_witness :
  cash_flow_only_text <> ""
  /\ statements_detected (_split_into_sections cash_flow_only_text) = false
  /\ @parse_financial_document SpecPreprocessing.instance
       cash_flow_only_text []
     = Ok {| meta := _extract_meta cash_flow_only_text "units";
             scale := 1;
             sections := no_sections;
             tables := [];
             kpis := Some no_statements_summary;
             validation_warning := None |}.
Proof.
  assert (H1 : cash_flow_only_text <> "") by discriminate.
  assert (H2 : statements_detected (_split_into_sections cash_flow_only_text)
               = false) by (vm_compute; reflexivity).
  split; [exact H1|]. split; [exact H2|].
  exact (@short_circuit_without_statement_blocks SpecPreprocessing.instance
           cash_flow_only_text [] H1 H2).
Defined.

(** C1 (counterexample). A narrative sentence holds no statement heading,
    yet its parse has the four section keys, a balance-sheet row read from
    the sentence, and no KPI summary. *)
Lemma narrative_text_is_parsed_as_balance_sheet :
  find_positions narrative_text = []
  /\ exists parsed,
       @parse_financial_document SpecPreprocessing.instance narrative_text []
       = Ok parsed
       /\ sections parsed
          = {| balance_sheet :=
                 Some [row "Our company hired 1,200 engineers in"
                           (Some 2023%float)];
               pnl := Some []; cash_flow := Some [];
               changes_in_equity := Some [] |}
       /\ kpis parsed = None.
Proof.
  split; [vm_compute; reflexivity|].
  eexists. split; [vm_compute; reflexivity|]. split; reflexivity.
Qed.

(** ** The KPI service *)

Lemma scale_correction_keeps_result l : result (scale_correction l) = result l.
Proof.
  unfold scale_correction.
  destruct (revenue l) as [r|]; [|reflexivity].
  destruct (net_profit l) as [p|]; [|reflexivity].
  destruct (Num.truthy r && Num.truthy p && Num.gt p (5 * r)); [|reflexivity].
  destruct (Num.lt r 1000); [reflexivity|].
  destruct (Num.gt p 1e6); reflexivity.
Qed.

(** C7. The scale-correction branch of [compute_kpis] does not change its
    output: the rescaled [revenue] and [net_profit] are local values that
    are not stored, so [compute_kpis] returns, for every parsed document,
    what it returns with the branch removed. *)
Theorem scale_correction_is_a_no_op (parsed : ParsedDocument) :
  compute_kpis parsed = compute_kpis_without_correction parsed.
Proof.
  unfold compute_kpis, compute_kpis_without_correction, finish.
  rewrite scale_correction_keeps_result. reflexivity.
Qed.

Lemma scale_correction_rebinds_revenue :
  revenue (kpi_metrics profit_above_revenue) = Some 10%float
  /\ revenue (scale_correction (kpi_metrics profit_above_revenue))
     = Some 10000%float.
Proof. split; vm_compute; reflexivity. Qed.

(** Reading the result of [compute_kpis] key by key. *)

Lemma get_set_other {V} k k' (v : V) d :
  String.eqb k' k = false -> dict_get k (dict_set k' v d) = dict_get k d.
Proof. intros H. rewrite dict_get_set, H. reflexivity. Qed.

Lemma get_ratio_other k k' c q r :
  String.eqb k' k = false -> dict_get k (store_ratio c k' q r) = dict_get k r.
Proof.
  intros H. unfold store_ratio. destruct c; [|reflexivity].
  destruct q; [apply get_set_other; exact H|reflexivity].
Qed.

Lemma get_ratio_unmet k k' q r :
  dict_get k (store_ratio false k' q r) = dict_get k r.
Proof. reflexivity. Qed.

Lemma get_raw_other k k' v r :
  String.eqb k' k = false -> dict_get k (store_raw k' v r) = dict_get k r.
Proof.
  intros H. unfold store_raw. destruct v; [|reflexivity].
  apply get_set_other. exact H.
Qed.

Lemma get_raw_same k x r : dict_get k (store_raw k (Some x) r) = Some (KNum x).
Proof.
  unfold store_raw. rewrite dict_get_set, String.eqb_refl. reflexivity.
Qed.

Lemma truthy_zero x : PrimFloat.eqb x 0 = true -> truthy (Some x) = false.
Proof. intros H. unfold truthy, Num.truthy. rewrite H. reflexivity. Qed.

(** Peels the stores of other keys off a lookup in the result. *)
Ltac peel :=
  repeat first
    [ rewrite get_set_other by reflexivity
    | rewrite get_raw_other by reflexivity
    | rewrite get_ratio_other by reflexivity ].

Ltac read_result :=
  unfold compute_kpis, finish;
  rewrite scale_correction_keeps_result;
  unfold kpi_metrics; cbn [result]; peel.

(** C10. In [compute_kpis] a ratio is computed only from values that are
    truthy, so an input equal to zero suppresses the ratio while its raw
    value is still emitted: a net_profit of 0 gives the raw net_profit and
    neither net_profit_margin_pct nor return_on_equity_pct; a revenue of 0
    gives the raw revenue and neither net_profit_margin_pct nor
    asset_turnover_ratio; a total_equity of 0 gives the raw total_equity and
    none of debt_to_equity, equity_to_assets_pct, return_on_equity_pct; a
    total_assets of 0 gives the raw total_assets and neither
    equity_to_assets_pct nor asset_turnover_ratio. No error entry is
    produced. *)
Theorem zero_input_suppresses_ratio (parsed : ParsedDocument) :
  let bs := match balance_sheet (sections parsed) with
            | Some l => l
            | None => []
            end in
  let out := compute_kpis parsed in
  (forall p, net_profit (kpi_metrics parsed) = Some p ->
             PrimFloat.eqb p 0 = true ->
             dict_get "net_profit" out = Some (KNum p)
             /\ dict_get "net_profit_margin_pct" out = None
             /\ dict_get "return_on_equity_pct" out = None)
  /\ (forall r, revenue (kpi_metrics parsed) = Some r ->
                PrimFloat.eqb r 0 = true ->
                dict_get "revenue" out = Some (KNum r)
                /\ dict_get "net_profit_margin_pct" out = None
                /\ dict_get "asset_turnover_ratio" out = None)
  /\ (forall e, _find_single_value bs ["TOTAL EQUITY"] = Some e ->
                PrimFloat.eqb e 0 = true ->
                dict_get "total_equity" out = Some (KNum e)
                /\ dict_get "debt_to_equity" out = None
                /\ dict_get "equity_to_assets_pct" out = None
                /\ dict_get "return_on_equity_pct" out = None)
  /\ (forall a, _find_single_value bs ["TOTAL ASSETS"] = Some a ->
                PrimFloat.eqb a 0 = true ->
                dict_get "total_assets" out = Some (KNum a)
                /\ dict_get "equity_to_assets_pct" out = None
                /\ dict_get "asset_turnover_ratio" out = None)
  /\ dict_get "error" out = None.
Proof.
  cbv zeta.
  assert (Hr : forall v x, v = Some x -> PrimFloat.eqb x 0 = true ->
                           truthy v = false)
    by (intros v x -> H; exact (truthy_zero x H)).
  repeat split; intros;
    match goal with
    | Hv : _ = Some ?x, Hz : PrimFloat.eqb ?x 0 = true |- _ =>
        pose proof (Hr _ _ Hv Hz) as Hf; unfold kpi_metrics in Hv, Hf;
        cbn [net_profit revenue] in Hv, Hf
    | _ => idtac
    end;
    read_result;
    try (rewrite Hf, ?andb_false_r; cbn [andb]; rewrite get_ratio_unmet; peel);
    try reflexivity.
  all: try (match goal with
            | Hv : ?v = Some ?x |- dict_get _ (store_raw _ ?v _) = _ =>
                rewrite Hv; apply get_raw_same
            end).
Qed.

Lemma zero_input_suppresses_ratio_witness :
  net_profit (kpi_metrics zero_profit_document) = Some 0%float
  /\ revenue (kpi_metrics zero_profit_document) = Some 100%float
  /\ dict_get "net_profit" (compute_kpis zero_profit_document)
     = Some (KNum 0)
  /\ dict_get "net_profit_margin_pct" (compute_kpis zero_profit_document)
     = None
  /\ dict_get "return_on_equity_pct" (compute_kpis zero_profit_document)
     = None.
Proof.
  split; [reflexivity|]. split; [reflexivity|].
  exact (proj1 (zero_input_suppresses_ratio zero_profit_document)
           0%float eq_refl eq_refl).
Defined.

(** ** The fallbacks *)

Section Fallbacks.

Context {pre : Preprocessing}.

Lemma no_block_no_statement blocks :
  statements_detected blocks = false ->
  get_str "balance_sheet" blocks = "" /\ get_str "pnl" blocks = "".
Proof.
  unfold statements_detected. intros H. apply orb_false_iff in H.
  destruct H as [H1 H2]. apply nonempty_false in H1, H2. auto.
Qed.

(** C5. The document-wide fallbacks fill only sections that are still
    empty: a balance_sheet, pnl or cash_flow section that section-based
    extraction produced non-empty is in the result exactly as produced, and
    every key of the section-based pnl and cash_flow mappings keeps its
    entry, so the P&L fallback and the fallback extractor write to empty
    sections only. (Section-based extraction takes place when a
    balance_sheet or pnl block was detected, which a non-empty balance_sheet
    or pnl section implies.) *)
Theorem fallbacks_fill_only_empty_sections
    (cleaned_text : string) (tables : list table) :
  cleaned_text <> "" ->
  let scale := fst (detect_document_scale cleaned_text) in
  let blocks := _split_into_sections cleaned_text in
  let bs0 :=
    _extract_table_like_section (get_str "balance_sheet" blocks) scale in
  let pnl0 := _extract_simple_kv (get_str "pnl" blocks) scale in
  let cf0 := _extract_simple_kv (get_str "cash_flow" blocks) scale in
  exists parsed,
    parse_financial_document cleaned_text tables = Ok parsed
    /\ (bs0 <> [] -> balance_sheet (sections parsed) = Some bs0)
    /\ (pnl0 <> [] -> pnl (sections parsed) = Some pnl0)
    /\ (statements_detected blocks = true ->
        cf0 <> [] -> cash_flow (sections parsed) = Some cf0)
    /\ (forall k e, dict_get k pnl0 = Some e ->
          exists d, pnl (sections parsed) = Some d /\ dict_get k d = Some e)
    /\ (statements_detected blocks = true ->
        forall k e, dict_get k cf0 = Some e ->
          exists d, cash_flow (sections parsed) = Some d
                    /\ dict_get k d = Some e).
Proof.
  intros Ht. cbv zeta.
  unfold parse_financial_document.
  destruct cleaned_text as [|a t]; [now destruct Ht|].
  cbn [nonempty negb].
  destruct (detect_document_scale (String a t)) as [scale unit_label].
  cbn [fst].
  set (blocks := _split_into_sections (String a t)).
  destruct (statements_detected blocks) eqn:Hs; cbn [negb].
  2:{ destruct (no_block_no_statement _ Hs) as [-> ->].
      change (_extract_table_like_section "" scale) with (@nil LineItem).
      change (_extract_simple_kv "" scale) with (@nil (string * KVEntry)).
      eexists. split; [reflexivity|].
      split; [intros H; now destruct H|].
      split; [intros H; now destruct H|].
      split; [intros H; exfalso; exact (Bool.diff_false_true H)|].
      split; [intros k e H; cbn [dict_get] in H; congruence|].
      intros H; exfalso; exact (Bool.diff_false_true H). }
  set (bs0 := _extract_table_like_section (get_str "balance_sheet" blocks) scale).
  set (pnl0 := _extract_simple_kv (get_str "pnl" blocks) scale).
  set (cf0 := _extract_simple_kv (get_str "cash_flow" blocks) scale).
  match goal with
  | |- context [if negb (nonempty_list pnl0) then ?x else pnl0] =>
      set (pnl1 := if negb (nonempty_list pnl0) then x else pnl0)
  end.
  assert (Hpnl1 : pnl0 <> [] -> pnl1 = pnl0).
  { intros H. subst pnl1. apply nonempty_list_true in H. rewrite H.
    reflexivity. }
  match goal with
  | |- context [if negb (nonempty_list bs0) then ?x else (bs0, pnl1, cf0)] =>
      set (triple := if negb (nonempty_list bs0) then x else (bs0, pnl1, cf0))
  end.
  assert (Hbs : bs0 <> [] -> fst (fst triple) = bs0).
  { intros H. subst triple. apply nonempty_list_true in H. rewrite H.
    reflexivity. }
  assert (Hpnl : pnl0 <> [] -> snd (fst triple) = pnl0).
  { intros H. subst triple. destruct (negb (nonempty_list bs0)); cbn [fst snd].
    - rewrite or_list_nonempty; rewrite (Hpnl1 H); auto.
    - auto. }
  assert (Hcf : cf0 <> [] -> snd triple = cf0).
  { intros H. subst triple. destruct (negb (nonempty_list bs0)); cbn [fst snd].
    - apply or_list_nonempty. exact H.
    - reflexivity. }
  destruct triple as [[bs pnl2] cf]. cbn [fst snd] in Hbs, Hpnl, Hcf.
  assert (Hkey : forall (d0 d : kvdict) k e,
             (d0 <> [] -> d = d0) -> dict_get k d0 = Some e ->
             exists d', Some d = Some d' /\ dict_get k d' = Some e).
  { intros d0 d k e Hd Hk. exists d. split; [reflexivity|].
    rewrite Hd; [exact Hk|]. intros ->. discriminate. }
  match goal with
  | |- context [_validate_basic_balance ?p] =>
      destruct (_validate_basic_balance p)
  end;
  (eexists; split; [reflexivity|]);
  cbn [sections with_warning balance_sheet pnl cash_flow];
  (split; [intros H; rewrite (Hbs H); reflexivity|]);
  (split; [intros H; rewrite (Hpnl H); reflexivity|]);
  (split; [intros _ H; rewrite (Hcf H); reflexivity|]);
  (split; [intros k0 e0 Hk; apply (Hkey pnl0); auto
          |intros _ k0 e0 Hk; apply (Hkey cf0); auto]).
Qed.

End Fallbacks.

Lemma fallbacks_fill_only_empty_sections_witness :
  pnl_in_crore_text <> ""
  /\ exists parsed,
       @parse_financial_document SpecPreprocessing.instance
         pnl_in_crore_text [] = Ok parsed
       /\ pnl (sections parsed)
          = Some (@_extract_simple_kv SpecPreprocessing.instance
                    (get_str "pnl" (_split_into_sections pnl_in_crore_text))
                    10000000%float).
Proof.
  assert (H1 : pnl_in_crore_text <> "") by discriminate.
  split; [exact H1|].
  destruct (@fallbacks_fill_only_empty_sections SpecPreprocessing.instance
              pnl_in_crore_text [] H1)
    as (parsed & Hp & _ & Hpnl & _).
  exists parsed. split; [exact Hp|].
  apply Hpnl. vm_compute. discriminate.
Defined.

(** ** The balance check *)

(** When the rows found carry numbers, the check raises exactly on a
    mismatch beyond the tolerance, a side without row counting as zero. *)
Lemma balance_check_on_numbers (parsed : ParsedDocument)
    (bs : list LineItem) (ta : LineItem) (a e l : float) :
  balance_sheet (sections parsed) = Some bs ->
  find_item bs "TOTAL ASSETS" = Some ta ->
  current_period ta = Some a ->
  is_some (find_item bs "TOTAL EQUITY")
  || is_some (find_item bs "TOTAL LIABILITIES") = true ->
  side_value (find_item bs "TOTAL EQUITY") = Some e ->
  side_value (find_item bs "TOTAL LIABILITIES") = Some l ->
  _validate_basic_balance parsed
  = if mismatch a e l
    then Raise (ValueError [Text "Balance mismatch: Assets="; Float a;
                            Text " vs Eq+Liab="; Float (e + l)])
    else Ok tt.
Proof.
  intros Hbs Hta Ha Hside He Hl.
  unfold _validate_basic_balance. rewrite Hbs, Hta, Hside, Ha.
  unfold mismatch, balance_tolerance.
  destruct (find_item bs "TOTAL EQUITY") as [te|],
           (find_item bs "TOTAL LIABILITIES") as [tl|];
    cbn [side side_value is_some orb] in *; try discriminate.
  - rewrite He, Hl. cbn [of_period py_add bind py_sub fmt].
    destruct (Num.gt _ _); reflexivity.
  - rewrite He. injection Hl as <-. cbn [of_period py_add bind py_sub fmt].
    change (float_of_int 0) with 0%float.
    destruct (Num.gt _ _); reflexivity.
  - rewrite Hl. injection He as <-. cbn [of_period py_add bind py_sub fmt].
    change (float_of_int 0) with 0%float.
    destruct (Num.gt _ _); reflexivity.
Qed.

(** Without a number for the assets, nothing is compared. *)
Lemma balance_check_without_assets (parsed : ParsedDocument)
    (bs : list LineItem) (ta : LineItem) (e l : float) :
  balance_sheet (sections parsed) = Some bs ->
  find_item bs "TOTAL ASSETS" = Some ta ->
  current_period ta = None ->
  side_value (find_item bs "TOTAL EQUITY") = Some e ->
  side_value (find_item bs "TOTAL LIABILITIES") = Some l ->
  _validate_basic_balance parsed = Ok tt.
Proof.
  intros Hbs Hta Ha He Hl.
  unfold _validate_basic_balance. rewrite Hbs, Hta, Ha.
  destruct (find_item bs "TOTAL EQUITY") as [te|],
           (find_item bs "TOTAL LIABILITIES") as [tl|];
    cbn [side side_value is_some orb] in *; try reflexivity.
  - rewrite He, Hl. reflexivity.
  - rewrite He. reflexivity.
  - rewrite Hl. reflexivity.
Qed.

(** A row found for equity or liabilities whose value is [None] makes the
    sum raise a [TypeError], whatever the assets. *)
Lemma balance_check_on_none_side (parsed : ParsedDocument)
    (bs : list LineItem) (ta te : LineItem) :
  balance_sheet (sections parsed) = Some bs ->
  find_item bs "TOTAL ASSETS" = Some ta ->
  find_item bs "TOTAL EQUITY" = Some te ->
  current_period te = None ->
  exists msg, _validate_basic_balance parsed = Raise (TypeError msg).
Proof.
  intros Hbs Hta Hte He.
  unfold _validate_basic_balance. rewrite Hbs, Hta, Hte.
  cbn [is_some orb side]. rewrite He. cbn [of_period].
  destruct (side (find_item bs "TOTAL LIABILITIES"));
    cbn [py_add bind]; eexists; reflexivity.
Qed.

(** The two balances of the specification: 1000 = 600 + 400 passes,
    1000 against 500 + 300 is reported with both sums. *)
Lemma balanced_sheet_has_no_warning :
  exists parsed,
    @parse_financial_document SpecPreprocessing.instance
      (balance_sheet_text "1,000" "600" "400") [] = Ok parsed
    /\ balance_sheet (sections parsed)
       = Some [row "Total Assets" (Some 1000%float);
               row "Total Equity" (Some 600%float);
               row "Total Liabilities" (Some 400%float)]
    /\ validation_warning parsed = None.
Proof. eexists. split; [vm_compute; reflexivity|]. split; reflexivity. Qed.

Lemma unbalanced_sheet_has_a_warning :
  exists parsed,
    @parse_financial_document SpecPreprocessing.instance
      (balance_sheet_text "1,000" "500" "300") [] = Ok parsed
    /\ validation_warning parsed
       = Some (ValueError [Text "Balance mismatch: Assets="; Float 1000;
                           Text " vs Eq+Liab="; Float 800]).
Proof. eexists. split; [vm_compute; reflexivity|]. reflexivity. Qed.

(** C4 (the code at the failing input). A "Total Equity" line that ends
    in a date yields a row without value (the date is a numeric token that
    is not a number); assets and liabilities are both 1000, so with the
    missing equity counted as zero there is no mismatch, yet the result
    carries a warning: the message of the [TypeError] raised by the sum. *)
Theorem row_without_value_is_reported_as_a_warning :
  exists parsed,
    @parse_financial_document SpecPreprocessing.instance
      unparsable_equity_text [] = Ok parsed
    /\ balance_sheet (sections parsed)
       = Some [row "Total Assets" (Some 1000%float);
               row "Total Equity as at" None;
               row "Total Liabilities" (Some 1000%float)]
    /\ mismatch 1000 0 1000 = false
    /\ validation_warning parsed
       = Some (TypeError
                 "unsupported operand type(s) for +: 'NoneType' and 'float'").
Proof.
  eexists. split; [vm_compute; reflexivity|].
  repeat split; vm_compute; reflexivity.
Qed.

(** ** The document-wide scale *)

(** C2 (the code at the failing input). In a profit-and-loss statement
    that declares amounts in crore, the scale is 1e7 and the pnl entries are
    scaled (900 is stored as 9e9), but the total assets that the fallback
    extractor reads from the token "5,000" are stored as 5000: the parsed
    value, not multiplied by the scale. *)
Theorem fallback_extractor_ignores_the_scale :
  exists parsed,
    @parse_financial_document SpecPreprocessing.instance
      pnl_in_crore_text [] = Ok parsed
    /\ scale parsed = 10000000%float
    /\ balance_sheet (sections parsed)
       = Some [{| item := "TOTAL ASSETS"; current_period := Some 5000%float;
                  previous_period := None; confidence := "high" |}]
    /\ pnl (sections parsed)
       = Some [("Revenue from operations",
                {| value := Some 9000000000%float;
                   previous := Some (Some 8000000000%float) |});
               ("Total Assets",
                {| value := Some 50000000000%float;
                   previous := Some (Some 45000000000%float) |})].
Proof.
  eexists. split; [vm_compute; reflexivity|].
  repeat split; reflexivity.
Qed.

(** ** The trend service *)

(** *** The order of the period keys *)

Lemma ltb_chars_irrefl a : ltb_chars a a = false.
Proof.
  induction a as [|x a IH]; simpl; [reflexivity|].
  rewrite Nat.ltb_irrefl, Nat.eqb_refl, IH. reflexivity.
Qed.

Lemma ltb_chars_trans a : forall b c,
  ltb_chars a b = true -> ltb_chars b c = true -> ltb_chars a c = true.
Proof.
  induction a as [|x a IH]; intros [|y b] [|z c]; simpl; try discriminate; auto.
  intros H1 H2.
  apply orb_true_iff in H1. apply orb_true_iff in H2. apply orb_true_iff.
  destruct H1 as [H1|H1], H2 as [H2|H2].
  - left. apply Nat.ltb_lt in H1, H2. apply Nat.ltb_lt. lia.
  - apply andb_true_iff in H2. destruct H2 as [E _].
    apply Nat.eqb_eq in E. left. rewrite <- E. exact H1.
  - apply andb_true_iff in H1. destruct H1 as [E _].
    apply Nat.eqb_eq in E. left. rewrite E. exact H2.
  - apply andb_true_iff in H1. destruct H1 as [E1 H1].
    apply andb_true_iff in H2. destruct H2 as [E2 H2].
    apply Nat.eqb_eq in E1, E2. right. rewrite E1, E2, Nat.eqb_refl.
    simpl. eauto.
Qed.

(** Two strings of which neither is before the other are equal. *)
Lemma ltb_chars_total a : forall b,
  ltb_chars a b = false -> ltb_chars b a = false -> a = b.
Proof.
  induction a as [|x a IH]; intros [|y b]; simpl; try discriminate; auto.
  intros H1 H2.
  apply orb_false_iff in H1. destruct H1 as [L1 H1].
  apply orb_false_iff in H2. destruct H2 as [L2 H2].
  apply Nat.ltb_ge in L1, L2. assert (E : code x = code y) by lia.
  rewrite E, Nat.eqb_refl in H1. rewrite E, Nat.eqb_refl in H2.
  simpl in H1, H2. f_equal; [|auto].
  unfold code in E.
  rewrite <- (ascii_nat_embedding x), <- (ascii_nat_embedding y), E.
  reflexivity.
Qed.

Lemma key_le_of_lt a b : str_ltb a b = true -> key_le a b.
Proof.
  unfold key_le, str_ltb. intros H.
  destruct (ltb_chars (chars b) (chars a)) eqn:E; [|reflexivity].
  pose proof (ltb_chars_trans _ _ _ H E) as C.
  rewrite ltb_chars_irrefl in C. discriminate.
Qed.

Lemma key_le_trans a b c : key_le a b -> key_le b c -> key_le a c.
Proof.
  unfold key_le, str_ltb. intros H1 H2.
  destruct (ltb_chars (chars c) (chars a)) eqn:E; [|reflexivity].
  destruct (ltb_chars (chars a) (chars b)) eqn:E1.
  - pose proof (ltb_chars_trans _ _ _ E E1) as C. congruence.
  - rewrite (ltb_chars_total _ _ E1 H1) in E. congruence.
Qed.

(** *** [sorted] *)

Lemma insert_key_perm k l : Permutation (insert_key k l) (k :: l).
Proof.
  induction l as [|y t IH]; simpl; [reflexivity|].
  destruct (str_ltb k y); [reflexivity|].
  rewrite IH. apply perm_swap.
Qed.

Lemma sorted_keys_perm_acc l : forall acc,
  Permutation (fold_left (fun acc k => insert_key k acc) l acc) (l ++ acc).
Proof.
  induction l as [|k l IH]; intros acc; simpl; [reflexivity|].
  rewrite IH, insert_key_perm. symmetry. apply Permutation_middle.
Qed.

Lemma sorted_keys_perm l : Permutation (sorted_keys l) l.
Proof.
  unfold sorted_keys. rewrite sorted_keys_perm_acc, app_nil_r. reflexivity.
Qed.

Lemma insert_key_sorted k l :
  StronglySorted key_le l -> StronglySorted key_le (insert_key k l).
Proof.
  induction l as [|y t IH]; intros Hs; simpl.
  - repeat constructor.
  - inversion Hs as [|? ? Ht Hy]; subst.
    destruct (str_ltb k y) eqn:E.
    + constructor; [exact Hs|].
      constructor; [apply key_le_of_lt; exact E|].
      eapply Forall_impl; [|exact Hy].
      intros z Hz. eapply key_le_trans; [apply key_le_of_lt; exact E|exact Hz].
    + constructor; [auto|].
      eapply Permutation_Forall; [symmetry; apply insert_key_perm|].
      constructor; [exact E|exact Hy].
Qed.

Lemma sorted_keys_sorted l : StronglySorted key_le (sorted_keys l).
Proof.
  unfold sorted_keys.
  assert (H : forall acc, StronglySorted key_le acc ->
              StronglySorted key_le
                (fold_left (fun acc k => insert_key k acc) l acc)).
  { induction l as [|k l IH]; intros acc Ha; simpl; [exact Ha|].
    apply IH, insert_key_sorted, Ha. }
  apply H. constructor.
Qed.

(** The last two of a sorted list are its two greatest. *)
Lemma sorted_last_two l : forall a b,
  StronglySorted key_le (l ++ [a; b]) ->
  Forall (fun k => key_le k a) l /\ key_le a b.
Proof.
  induction l as [|x l IH]; intros a b Hs; simpl in Hs.
  - inversion Hs as [|? ? _ Hf]; subst. inversion Hf; subst. auto.
  - inversion Hs as [|? ? Ht Hf]; subst.
    destruct (IH a b Ht) as [H1 H2]. split; [|exact H2].
    constructor; [|exact H1].
    rewrite Forall_app in Hf. destruct Hf as [_ Hf].
    inversion Hf; subst. assumption.
Qed.

Lemma last_two_spec l prev latest_period :
  last_two l = Some (prev, latest_period) ->
  exists earlier, l = earlier ++ [prev; latest_period].
Proof.
  unfold last_two. intros H.
  destruct (rev l) as [|x [|y r]] eqn:E; try discriminate.
  injection H as <- <-. exists (rev r).
  rewrite <- (rev_involutive l), E. simpl. rewrite <- app_assoc. reflexivity.
Qed.

Lemma last_two_some l :
  2 <= List.length l -> exists p, last_two l = Some p.
Proof.
  unfold last_two. intros H. rewrite <- length_rev in H.
  destruct (rev l) as [|x [|y r]]; simpl in H; try lia. eauto.
Qed.

(** *** The comparisons *)

Lemma abs_eqb_zero p : PrimFloat.eqb (PrimFloat.abs p) 0 = PrimFloat.eqb p 0.
Proof.
  rewrite !eqb_spec, abs_spec.
  change (Prim2SF 0) with (S754_zero false).
  destruct (Prim2SF p) as [s|s| |s m e]; try reflexivity; destruct s; reflexivity.
Qed.

(** The growth in percent, rounded to two decimals; [None] when the
    previous value is zero. *)
Lemma growth_formula l p :
  growth l p
  = if PrimFloat.eqb p 0 then None
    else Some (Num.round2 ((l - p) / PrimFloat.abs p * 100)%float).
Proof.
  unfold growth, Num.ne, pct, Num.div. rewrite abs_eqb_zero.
  destruct (PrimFloat.eqb p 0); reflexivity.
Qed.

Lemma thousandth_is_the_literal :
  Num.float_of_str "0.001" = Some Num.thousandth.
Proof. vm_compute. reflexivity. Qed.

Lemma growth_examples :
  growth 120 100 = Some 20%float /\ growth 120 0 = None.
Proof. split; vm_compute; reflexivity. Qed.

Lemma dict_get_in {V} k (d : dict V) v :
  dict_get k d = Some v -> exists v', In (k, v') d.
Proof.
  induction d as [|[k0 v0] d IH]; simpl; [discriminate|].
  destruct (String.eqb k0 k) eqn:E.
  - apply String.eqb_eq in E. subst. eauto.
  - intros H. destruct (IH H) as [v' Hv]. eauto.
Qed.

Lemma compare_kpis_metric latest_kpis prev_kpis k l p :
  dict_get k latest_kpis = Some (KNum l) ->
  dict_get k prev_kpis = Some (KNum p) ->
  dict_get k (compare_kpis latest_kpis prev_kpis)
  = Some {| latest := l; previous_value := p; growth_pct := growth l p |}.
Proof.
  intros Hl Hp. unfold compare_kpis.
  set (E := {| latest := l; previous_value := p; growth_pct := growth l p |}).
  assert (Keep : forall acc kv, dict_get k acc = Some E ->
            dict_get k (comparison_of latest_kpis prev_kpis acc kv) = Some E).
  { intros acc [k0 v0] Ha. unfold comparison_of. cbn [fst]. cbv zeta.
    destruct (String.eqb k0 k) eqn:Ek.
    - apply String.eqb_eq in Ek. subst k0. rewrite Hl, Hp.
      rewrite dict_get_set, String.eqb_refl. reflexivity.
    - destruct (dict_get k0 latest_kpis) as [[?|?]|]; auto.
      destruct (dict_get k0 prev_kpis) as [[?|?]|]; auto.
      rewrite dict_get_set, Ek. exact Ha. }
  assert (Put : forall acc v0,
            dict_get k (comparison_of latest_kpis prev_kpis acc (k, v0))
            = Some E).
  { intros acc v0. unfold comparison_of. cbn [fst]. cbv zeta.
    rewrite Hl, Hp.
    rewrite dict_get_set, String.eqb_refl. reflexivity. }
  destruct (dict_get_in _ _ _ Hl) as [v' Hin].
  assert (G : forall items acc,
            (In (k, v') items \/ dict_get k acc = Some E) ->
            dict_get k (fold_left (comparison_of latest_kpis prev_kpis)
                          items acc) = Some E).
  { induction items as [|kv items IH]; intros acc H; simpl.
    - destruct H as [[]|H]; exact H.
    - apply IH. destruct H as [[->|H]|H]; auto. }
  apply G. auto.
Qed.

(** C8. In [aggregate_periods], when at least two period keys exist, the
    comparison is between the two lexicographically-latest keys (the last
    two of the keys in sorted order), and every metric that is a number in
    both periods gets the latest and the previous value and
    growth_pct = round((latest - previous) / |previous| * 100, 2), or
    growth_pct = null when the previous value is 0. *)
Theorem growth_between_the_two_latest_periods
    (parsed_list : list ParsedDocument) :
  let trend := aggregate_periods parsed_list in
  let keys := dict_keys (timeseries trend) in
  2 <= List.length keys ->
  exists earlier prev latest_period cmp,
    Permutation keys (earlier ++ [prev; latest_period])
    /\ Forall (fun k => key_le k prev) earlier
    /\ key_le prev latest_period
    /\ comparisons trend = Some cmp
    /\ periods cmp = [prev; latest_period]
    /\ forall k l p,
         dict_get k (kpis_of (timeseries trend) latest_period)
         = Some (KNum l) ->
         dict_get k (kpis_of (timeseries trend) prev) = Some (KNum p) ->
         dict_get k (metrics cmp)
         = Some {| latest := l; previous_value := p;
                   growth_pct :=
                     if PrimFloat.eqb p 0 then None
                     else Some (Num.round2
                                  ((l - p) / PrimFloat.abs p * 100)%float) |}.
Proof.
  cbv zeta. unfold aggregate_periods.
  set (ts := fold_left add_period parsed_list []).
  assert (Hts : forall o, timeseries
            match o with
            | Some (prev, latest_period) =>
                {| timeseries := ts;
                   comparisons :=
                     Some {| periods := [prev; latest_period];
                             metrics := compare_kpis (kpis_of ts latest_period)
                                          (kpis_of ts prev) |} |}
            | None => {| timeseries := ts; comparisons := None |}
            end = ts) by (intros [[? ?]|]; reflexivity).
  rewrite Hts. intros Hlen.
  assert (Hlen' : 2 <= List.length (sorted_keys (dict_keys ts))).
  { rewrite (Permutation_length (sorted_keys_perm _)). exact Hlen. }
  destruct (last_two_some _ Hlen') as [[prev latest_period] Hlast].
  rewrite Hlast.
  destruct (last_two_spec _ _ _ Hlast) as [earlier He].
  pose proof (sorted_keys_sorted (dict_keys ts)) as Hs. rewrite He in Hs.
  destruct (sorted_last_two _ _ _ Hs) as [H1 H2].
  exists earlier, prev, latest_period. eexists.
  split. { rewrite <- He. symmetry. apply sorted_keys_perm. }
  split; [exact H1|]. split; [exact H2|].
  split; [reflexivity|]. split; [reflexivity|].
  intros k l p Hl Hp. cbn [metrics].
  rewrite <- growth_formula. apply compare_kpis_metric; assumption.
Qed.

(** *** What the extractors store *)

Section Scaling.

Context {pre : Preprocessing}.

Lemma scaled_is_scaled scale v :
  (exists token, v = parse_number token) \/ v = None ->
  scaled_value scale (scaled scale v).
Proof.
  intros [[token ->] | ->]; [|left; reflexivity].
  destruct (parse_number token) as [x|] eqn:E; [|left; reflexivity].
  right. exists token, x. auto.
Qed.

(** Table-like extraction stores parsed tokens multiplied by the scale. *)
Lemma table_row_is_scaled scale line it :
  table_row scale line = Some it ->
  scaled_value scale (current_period it)
  /\ exists p, previous_period it = Some p /\ scaled_value scale p.
Proof.
  unfold table_row.
  destruct (is_some (Re.search Re.ignorecase noise_pattern line)); [discriminate|].
  destruct (negb (nonempty_list _)); [discriminate|].
  destruct (values_and_name line _) as [vals name].
  generalize (split_glued vals). intros vals'.
  destruct (startswith _ _ || startswith _ _); [discriminate|].
  destruct (is_some _ && _ && _); [discriminate|].
  intros H. injection H as <-. cbn [current_period previous_period]. split.
  - apply scaled_is_scaled. destruct vals' as [|v0 ?]; eauto.
  - eexists. split; [reflexivity|].
    apply scaled_is_scaled. destruct vals' as [|v0 [|v1 ?]]; eauto.
Qed.

Lemma table_like_section_is_scaled section_text scale :
  Forall (fun it => scaled_value scale (current_period it)
                    /\ exists p, previous_period it = Some p
                                 /\ scaled_value scale p)
         (_extract_table_like_section section_text scale).
Proof.
  unfold _extract_table_like_section.
  destruct (negb (nonempty section_text)); [constructor|].
  apply Forall_forall. intros it Hin.
  apply in_flat_map in Hin. destruct Hin as (line & _ & Hin).
  destruct (table_row scale line) as [it'|] eqn:E; [|destruct Hin].
  destruct Hin as [<-|[]]. eapply table_row_is_scaled. exact E.
Qed.

Lemma in_dict_set {V} k k' (v v' : V) d :
  In (k, v) (dict_set k' v' d) -> v = v' \/ In (k, v) d.
Proof.
  induction d as [|[k0 v0] d IH]; simpl.
  - intros [H|[]]. injection H as _ <-. auto.
  - destruct (String.eqb k0 k'); simpl.
    + intros [H|H]; [injection H as _ <-|]; auto.
    + intros [H|H]; auto. destruct (IH H); auto.
Qed.

(** Key-value extraction stores parsed tokens multiplied by the scale. *)
Lemma kv_row_is_scaled scale raw k e :
  kv_row scale raw = Some (k, e) ->
  scaled_value scale (value e)
  /\ exists p, previous e = Some p /\ scaled_value scale p.
Proof.
  unfold kv_row.
  destruct (negb (nonempty (strip raw))); [discriminate|].
  destruct (Re.search Re.no_flags kv_pattern (strip raw)) as [m|];
    [|discriminate].
  intros H. injection H as _ <-. cbn [value previous]. split.
  - apply scaled_is_scaled. eauto.
  - eexists. split; [reflexivity|]. apply scaled_is_scaled.
    destruct (Re.group m 3) as [g3|]; [|auto].
    destruct (nonempty g3); eauto.
Qed.

Lemma simple_kv_is_scaled section_text scale :
  Forall (fun kv => scaled_value scale (value (snd kv))
                    /\ exists p, previous (snd kv) = Some p
                                 /\ scaled_value scale p)
         (_extract_simple_kv section_text scale).
Proof.
  unfold _extract_simple_kv.
  destruct (negb (nonempty section_text)); [constructor|].
  generalize (Re.split "[\n\r]+" section_text). intros lines.
  assert (H : forall (acc : kvdict),
            Forall (fun kv => scaled_value scale (value (snd kv))
                              /\ exists p, previous (snd kv) = Some p
                                           /\ scaled_value scale p) acc ->
            Forall (fun kv => scaled_value scale (value (snd kv))
                              /\ exists p, previous (snd kv) = Some p
                                           /\ scaled_value scale p)
              (fold_left
                 (fun out raw => match kv_row scale raw with
                                 | Some (key, entry) => dict_set key entry out
                                 | None => out
                                 end) lines acc)).
  { induction lines as [|raw lines IH]; intros acc Ha; simpl; [exact Ha|].
    apply IH. destruct (kv_row scale raw) as [[key entry]|] eqn:E; [|exact Ha].
    apply Forall_forall. intros [k e] Hin. cbn [snd].
    apply in_dict_set in Hin. destruct Hin as [-> | Hin].
    - eapply kv_row_is_scaled. exact E.
    - rewrite Forall_forall in Ha. apply (Ha _ Hin). }
  apply H. constructor.
Qed.

(** The document-wide P&L fallback stores parsed tokens multiplied by the
    scale. *)
Lemma pnl_fallback_is_scaled text scale :
  Forall (fun kv => scaled_value scale (value (snd kv)))
         (_extract_pnl_from_text text scale).
Proof.
  unfold _extract_pnl_from_text.
  destruct (negb (nonempty text)); [constructor|].
  generalize pnl_patterns. intros patterns.
  assert (H : forall (acc : kvdict),
            Forall (fun kv => scaled_value scale (value (snd kv))) acc ->
            Forall (fun kv => scaled_value scale (value (snd kv)))
              (fold_left
                 (fun out pl =>
                    let '(pat, label) := pl in
                    match Re.search Re.ignorecase pat text with
                    | Some m =>
                        match parse_number (group_or_empty m 1) with
                        | Some num =>
                            dict_set label
                              {| value := Some (num * scale)%float;
                                 previous := None |} out
                        | None => out
                        end
                    | None => out
                    end) patterns acc)).
  { induction patterns as [|[pat label] patterns IH]; intros acc Ha; simpl;
      [exact Ha|].
    apply IH. destruct (Re.search Re.ignorecase pat text) as [m|]; [|exact Ha].
    destruct (parse_number (group_or_empty m 1)) as [num|] eqn:E; [|exact Ha].
    apply Forall_forall. intros [k e] Hin. cbn [snd].
    apply in_dict_set in Hin. destruct Hin as [-> | Hin].
    - right. exists (group_or_empty m 1), num. auto.
    - rewrite Forall_forall in Ha. apply (Ha _ Hin). }
  apply H. constructor.
Qed.

End Scaling.

(** The fallback extractor stores the float read from a token as it is:
    no scale reaches it. *)
Lemma fallback_step_is_unscaled text extracted lp :
  Forall (fun it => unscaled_value (current_period it))
         (fb_balance_sheet extracted) ->
  Forall (fun kv => unscaled_value (value (snd kv))) (fb_pnl extracted) ->
  Forall (fun it => unscaled_value (current_period it))
         (fb_balance_sheet (fallback_step text extracted lp))
  /\ Forall (fun kv => unscaled_value (value (snd kv)))
            (fb_pnl (fallback_step text extracted lp)).
Proof.
  intros Hb Hp. unfold fallback_step. destruct lp as [label pattern].
  destruct (Re.search Re.ignorecase_dotall pattern text) as [m|]; [|auto].
  unfold fallback_number.
  match goal with
  | |- context [Num.float_of_str ?s] =>
      destruct (Num.float_of_str s) as [num|] eqn:E; [|auto]
  end.
  assert (Hn : unscaled_value (Some num)) by (eexists _, num; eauto).
  assert (Hset : forall k,
            Forall (fun kv => unscaled_value (value (snd kv)))
              (dict_set k {| value := Some num; previous := None |}
                 (fb_pnl extracted))).
  { intros k. apply Forall_forall. intros [k0 e0] Hin. cbn [snd].
    apply in_dict_set in Hin. destruct Hin as [-> | Hin]; [exact Hn|].
    rewrite Forall_forall in Hp. apply (Hp _ Hin). }
  destruct (contains "ASSET" label || contains "EQUITY" label
            || contains "LIABIL" label).
  - cbn [fb_balance_sheet fb_pnl]. split; [|exact Hp].
    apply Forall_app. split; [exact Hb|]. constructor; [exact Hn|constructor].
  - destruct (contains "REV" label); [cbn [fb_balance_sheet fb_pnl]; auto|].
    destruct (contains "PROFIT" label); cbn [fb_balance_sheet fb_pnl]; auto.
Qed.

Lemma fallback_extractor_is_unscaled raw_text :
  Forall (fun it => unscaled_value (current_period it))
         (fb_balance_sheet (_extract_from_text raw_text))
  /\ Forall (fun kv => unscaled_value (value (snd kv)))
            (fb_pnl (_extract_from_text raw_text)).
Proof.
  unfold _extract_from_text.
  generalize (Re.sub "\s+" " " (remove_char "," (upper raw_text))).
  intros text. generalize fallback_patterns. intros patterns.
  assert (H : forall acc,
            Forall (fun it => unscaled_value (current_period it))
                   (fb_balance_sheet acc)
            /\ Forall (fun kv => unscaled_value (value (snd kv))) (fb_pnl acc) ->
            Forall (fun it => unscaled_value (current_period it))
                   (fb_balance_sheet (fold_left (fallback_step text) patterns acc))
            /\ Forall (fun kv => unscaled_value (value (snd kv)))
                      (fb_pnl (fold_left (fallback_step text) patterns acc))).
  { induction patterns as [|lp patterns IH]; intros acc Ha; simpl; [exact Ha|].
    apply IH. destruct Ha. apply fallback_step_is_unscaled; assumption. }
  apply H. split; constructor.
Qed.

Lemma growth_between_the_two_latest_periods_witness :
  2 <= List.length (dict_keys (timeseries (aggregate_periods two_periods)))
  /\ exists cmp,
       comparisons (aggregate_periods two_periods) = Some cmp
       /\ periods cmp = ["Q1 FY25"; "Q2 FY25"]
       /\ dict_get "revenue" (metrics cmp)
          = Some {| latest := 120; previous_value := 100;
                    growth_pct := Some 20%float |}.
Proof.
  assert (H : 2 <= List.length
                     (dict_keys (timeseries (aggregate_periods two_periods))))
    by (vm_compute; lia).
  split; [exact H|].
  destruct (growth_between_the_two_latest_periods two_periods H)
    as (earlier & prev & latest_period & cmp & _ & _ & _ & Hc & Hp & Hm).
  exists cmp. split; [exact Hc|].
  assert (Hc' : comparisons (aggregate_periods two_periods)
                = Some {| periods := ["Q1 FY25"; "Q2 FY25"];
                          metrics := compare_kpis
                                       (kpis_of (timeseries (aggregate_periods two_periods)) "Q2 FY25")
                                       (kpis_of (timeseries (aggregate_periods two_periods)) "Q1 FY25") |})
    by reflexivity.
  rewrite Hc in Hc'. injection Hc' as Hc'. rewrite Hc' in Hp. cbn [periods] in Hp.
  injection Hp as Hlatest Hprev. split; [rewrite Hc'; reflexivity|].
  specialize (Hm "revenue" 120%float 100%float).
  rewrite <- Hlatest, <- Hprev in Hm.
  apply Hm; vm_compute; reflexivity.
Defined.

(** ** Substrings, strips and slices *)

Lemma str_chars s : str (chars s) = s.
Proof. apply string_of_list_ascii_of_string. Qed.

Lemma len_chars s : len s = List.length (chars s).
Proof.
  unfold len, chars. induction s as [|a s IH]; simpl; [reflexivity|].
  rewrite IH. reflexivity.
Qed.

Lemma len_str l : len (str l) = List.length l.
Proof. rewrite len_chars, chars_str. reflexivity. Qed.

Lemma chars_nil s : chars s = [] -> s = "".
Proof. destruct s; [reflexivity|discriminate]. Qed.

Lemma is_prefix_spec p : forall l,
  is_prefix p l = true <-> exists b, l = p ++ b.
Proof.
  induction p as [|a p IH]; intros l; simpl.
  - split; eauto.
  - destruct l as [|b l].
    + split; [discriminate|]. intros [? H]. discriminate.
    + rewrite andb_true_iff, Ascii.eqb_eq, IH. split.
      * intros [-> [r ->]]. eauto.
      * intros [r H]. injection H as -> ->. eauto.
Qed.

Lemma is_infix_spec p : forall l,
  is_infix p l = true <-> exists a b, l = a ++ p ++ b.
Proof.
  induction l as [|x l IH].
  - cbn [is_infix]. rewrite orb_false_r, is_prefix_spec. split.
    + intros [b H]. exists [], b. exact H.
    + intros (a & b & H). destruct a; [eauto|discriminate].
  - cbn [is_infix]. rewrite orb_true_iff, is_prefix_spec, IH. split.
    + intros [[b H]|(a & b & H)].
      * exists [], b. exact H.
      * exists (x :: a), b. rewrite H. reflexivity.
    + intros (a & b & H). destruct a as [|y a].
      * left. eauto.
      * right. injection H as _ H. eauto.
Qed.

(** [sub in s] exactly when [s] is [sub] between two strings. *)
Lemma contains_spec sub s :
  contains sub s = true <-> exists a b, chars s = a ++ chars sub ++ b.
Proof. apply is_infix_spec. Qed.

Lemma contains_refl s : contains s s = true.
Proof. apply contains_spec. exists [], []. rewrite app_nil_r. reflexivity. Qed.

Lemma contains_trans a b c :
  contains a b = true -> contains b c = true -> contains a c = true.
Proof.
  rewrite !contains_spec. intros (x & y & H1) (u & v & H2).
  exists (u ++ x), (y ++ v). rewrite H2, H1, <- !app_assoc. reflexivity.
Qed.

Lemma lstrip_by_split f l :
  exists a, l = a ++ lstrip_by f l /\ forallb f a = true.
Proof.
  induction l as [|x l (a & IH & Ha)]; simpl.
  - exists []. auto.
  - destruct (f x) eqn:E.
    + exists (x :: a). simpl. rewrite E, Ha. split; [f_equal; exact IH|reflexivity].
    + exists []. auto.
Qed.

Lemma rstrip_by_split f l :
  exists b, l = rstrip_by f l ++ b /\ forallb f b = true.
Proof.
  unfold rstrip_by. destruct (lstrip_by_split f (rev l)) as (a & H & Ha).
  exists (rev a). split.
  - rewrite <- rev_app_distr, <- H, rev_involutive. reflexivity.
  - rewrite forallb_forall in *. intros x Hx. apply Ha, in_rev, Hx.
Qed.

Lemma lstrip_by_head f l :
  match lstrip_by f l with x :: _ => f x = false | [] => True end.
Proof.
  induction l as [|x l IH]; simpl; [exact I|].
  destruct (f x) eqn:E; [exact IH|exact E].
Qed.

Lemma lstrip_by_fixed f l :
  match l with x :: _ => f x = false | [] => True end -> lstrip_by f l = l.
Proof. destruct l as [|x l]; simpl; [reflexivity|]. intros ->. reflexivity. Qed.

Lemma lstrip_by_snoc f l x :
  f x = false -> lstrip_by f (l ++ [x]) = lstrip_by f l ++ [x].
Proof.
  intros E. induction l as [|y l IH]; simpl.
  - rewrite E. reflexivity.
  - destruct (f y); [exact IH|reflexivity].
Qed.

Lemma rstrip_by_cons f x l :
  f x = false -> rstrip_by f (x :: l) = x :: rstrip_by f l.
Proof.
  intros E. unfold rstrip_by. simpl.
  rewrite (lstrip_by_snoc f _ _ E), rev_app_distr. reflexivity.
Qed.

Lemma rstrip_by_idem f l : rstrip_by f (rstrip_by f l) = rstrip_by f l.
Proof.
  unfold rstrip_by. rewrite rev_involutive.
  rewrite (lstrip_by_fixed f (lstrip_by f (rev l))); [reflexivity|].
  apply lstrip_by_head.
Qed.

(** A strip leaves nothing to strip. *)
Lemma strip_by_idem f s : strip_by f (strip_by f s) = strip_by f s.
Proof.
  unfold strip_by. rewrite chars_str. f_equal.
  pose proof (lstrip_by_head f (chars s)) as H.
  destruct (lstrip_by f (chars s)) as [|x l] eqn:E.
  - reflexivity.
  - rewrite (rstrip_by_cons f x l H). simpl. rewrite H.
    rewrite <- (rstrip_by_cons f x l H). apply rstrip_by_idem.
Qed.

Lemma strip_by_infix f s :
  exists a b, chars s = a ++ chars (strip_by f s) ++ b.
Proof.
  unfold strip_by. rewrite chars_str.
  destruct (lstrip_by_split f (chars s)) as (a & Ha & _).
  destruct (rstrip_by_split f (lstrip_by f (chars s))) as (b & Hb & _).
  exists a, b. rewrite <- Hb. exact Ha.
Qed.

Lemma strip_by_length f s : len (strip_by f s) <= len s.
Proof.
  destruct (strip_by_infix f s) as (a & b & H).
  rewrite !len_chars, H, !length_app. lia.
Qed.

Lemma slice_infix i j s : exists a b, chars s = a ++ chars (slice i j s) ++ b.
Proof.
  unfold slice. rewrite chars_str.
  exists (firstn i (chars s)), (skipn (j - i) (skipn i (chars s))).
  rewrite firstn_skipn, firstn_skipn. reflexivity.
Qed.

Lemma contains_strip_slice i j s : contains (strip (slice i j s)) s = true.
Proof.
  apply contains_trans with (b := slice i j s); apply contains_spec.
  - apply strip_by_infix.
  - apply slice_infix.
Qed.

(** ** The section splitter *)

Lemma insert_by_position_perm x l : Permutation (insert_by_position x l) (x :: l).
Proof.
  induction l as [|y t IH]; simpl; [reflexivity|].
  destruct (snd x <? snd y)%nat; [reflexivity|].
  rewrite IH. apply perm_swap.
Qed.

Lemma sorted_by_position_perm l : Permutation (sorted_by_position l) l.
Proof.
  unfold sorted_by_position.
  assert (H : forall acc,
            Permutation (fold_left (fun acc x => insert_by_position x acc) l acc)
                        (l ++ acc)).
  { induction l as [|x l IH]; intros acc; simpl; [reflexivity|].
    rewrite IH, insert_by_position_perm. symmetry. apply Permutation_middle. }
  rewrite H, app_nil_r. reflexivity.
Qed.

(** The sections found are among the four of [section_terms], each once. *)
Lemma find_positions_keys text :
  NoDup (dict_keys (find_positions text))
  /\ incl (dict_keys (find_positions text))
          ["balance_sheet"; "pnl"; "cash_flow"; "changes_in_equity"].
Proof.
  unfold find_positions, section_terms. cbn [flat_map fst snd].
  repeat match goal with
         | |- context [first_term_position text ?t] =>
             destruct (first_term_position text t)
         end;
    cbn [app dict_keys map fst]; split;
    try (repeat constructor; cbn [In]; intuition discriminate);
    intros k Hk; cbn [In] in *; intuition.
Qed.

Lemma slice_blocks_keys text : forall items,
  NoDup (map fst items) ->
  NoDup (dict_keys (slice_blocks text items))
  /\ incl (dict_keys (slice_blocks text items)) (map fst items).
Proof.
  induction items as [|[name start_idx] items IH]; intros Hn.
  - simpl. split; [constructor|apply incl_refl].
  - inversion Hn as [|? ? Hx Hn']; subst. destruct (IH Hn') as [IH1 IH2].
    cbn [slice_blocks].
    match goal with |- context [if ?b then _ else _] => destruct b end.
    + cbn [dict_keys map fst] in *. split.
      * constructor; [|exact IH1]. intros Hin. apply Hx, IH2, Hin.
      * intros k [<-|Hk]; [left; reflexivity|right; apply IH2, Hk].
    + split; [exact IH1|]. intros k Hk. right. apply IH2, Hk.
Qed.

Lemma slice_blocks_blocks text : forall items,
  Forall (fun kv => contains (snd kv) text = true
                    /\ 50 < len (snd kv) /\ strip (snd kv) = snd kv)
         (slice_blocks text items).
Proof.
  induction items as [|[name start_idx] items IH]; [constructor|].
  cbn [slice_blocks].
  match goal with |- context [if ?b then _ else _] => destruct b eqn:E end;
    [|exact IH].
  constructor; [|exact IH]. cbn [snd]. apply Nat.ltb_lt in E.
  split; [apply contains_strip_slice|]. split; [exact E|].
  apply strip_by_idem.
Qed.

(** X1. The blocks of [_split_into_sections]: their names are among the four
    section names, each at most once; every block is a non-empty piece of
    the text; and unless the text is returned whole as the balance sheet
    (no heading found), every block is longer than 50 characters and has
    no blank at either end. *)
Theorem section_blocks_are_long_slices (text : string) :
  let blocks := _split_into_sections text in
  NoDup (dict_keys blocks)
  /\ Forall (fun kv =>
               In (fst kv)
                  ["balance_sheet"; "pnl"; "cash_flow"; "changes_in_equity"]
               /\ contains (snd kv) text = true
               /\ snd kv <> "") blocks
  /\ (blocks = [("balance_sheet", text)]
      \/ Forall (fun kv => 50 < len (snd kv) /\ strip (snd kv) = snd kv)
                blocks).
Proof.
  cbv zeta. unfold _split_into_sections.
  destruct (nonempty text) eqn:Ht; cbn [negb].
  2:{ split; [constructor|]. split; [constructor|]. right. constructor. }
  destruct (nonempty_list (find_positions text)) eqn:Hp; cbn [negb].
  2:{ split; [repeat constructor; intros []|]. split; [|left; reflexivity].
      constructor; [|constructor]. cbn [fst snd].
      split; [left; reflexivity|]. split; [apply contains_refl|].
      intros ->. discriminate. }
  destruct (find_positions_keys text) as [Hn Hi].
  pose proof (sorted_by_position_perm (find_positions text)) as Hperm.
  assert (Hn' : NoDup (map fst (sorted_by_position (find_positions text)))).
  { eapply Permutation_NoDup; [|exact Hn].
    symmetry. apply Permutation_map. exact Hperm. }
  destruct (slice_blocks_keys text _ Hn') as [K1 K2].
  pose proof (slice_blocks_blocks text (sorted_by_position (find_positions text)))
    as Hb.
  split; [exact K1|]. split.
  - rewrite Forall_forall in *. intros kv Hin.
    destruct (Hb kv Hin) as (Hc & Hl & _).
    split; [|split; [exact Hc|]].
    + apply Hi. eapply Permutation_in.
      * apply Permutation_map. exact Hperm.
      * apply K2. apply in_map. exact Hin.
    + intros E. rewrite E in Hl. simpl in Hl. lia.
  - right. eapply Forall_impl; [|exact Hb]. intros kv (_ & H1 & H2). auto.
Qed.

(** ** The shape of what the fallbacks extract *)

(** A step of the fallback extractor for a balance-sheet label appends
    the row of the number it has read, if any; a step for a P&L label sets
    the entry of that number. *)
Lemma fallback_step_total text extracted label pattern :
  contains "ASSET" label || contains "EQUITY" label || contains "LIABIL" label
  = true ->
  exists v : option float,
    fallback_step text extracted (label, pattern)
    = {| fb_balance_sheet := fb_balance_sheet extracted ++ total_row label v;
         fb_pnl := fb_pnl extracted;
         fb_cash_flow := fb_cash_flow extracted |}.
Proof.
  intros Hl. unfold fallback_step. rewrite Hl.
  destruct (Re.search Re.ignorecase_dotall pattern text) as [m|].
  - destruct (fallback_number m) as [num|].
    + exists (Some num). reflexivity.
    + exists None. cbn [total_row]. rewrite app_nil_r.
      destruct extracted; reflexivity.
  - exists None. cbn [total_row]. rewrite app_nil_r.
    destruct extracted; reflexivity.
Qed.

Lemma fallback_step_figure text extracted label pattern :
  contains "ASSET" label || contains "EQUITY" label || contains "LIABIL" label
  = false ->
  exists v : option float,
    fallback_step text extracted (label, pattern)
    = {| fb_balance_sheet := fb_balance_sheet extracted;
         fb_pnl :=
           match v with
           | Some num =>
               if contains "REV" label
               then dict_set "Revenue" {| value := Some num; previous := None |}
                      (fb_pnl extracted)
               else if contains "PROFIT" label
               then dict_set "Profit for the Period"
                      {| value := Some num; previous := None |}
                      (fb_pnl extracted)
               else fb_pnl extracted
           | None => fb_pnl extracted
           end;
         fb_cash_flow := fb_cash_flow extracted |}.
Proof.
  intros Hl. unfold fallback_step. rewrite Hl.
  destruct (Re.search Re.ignorecase_dotall pattern text) as [m|].
  - destruct (fallback_number m) as [num|].
    + exists (Some num).
      destruct (contains "REV" label); [reflexivity|].
      destruct (contains "PROFIT" label); [reflexivity|].
      destruct extracted; reflexivity.
    + exists None. destruct extracted; reflexivity.
  - exists None. destruct extracted; reflexivity.
Qed.

(** What the fallback extractor returns, by the numbers it has read. *)
Lemma fallback_shape (raw_text : string) :
  exists a e l r p : option float,
    _extract_from_text raw_text
    = {| fb_balance_sheet :=
           total_row "TOTAL ASSETS" a ++ total_row "TOTAL EQUITY" e
           ++ total_row "TOTAL LIABILITIES" l;
         fb_pnl :=
           fallback_entry "Revenue" r
           ++ fallback_entry "Profit for the Period" p;
         fb_cash_flow := [] |}.
Proof.
  unfold _extract_from_text.
  generalize (Re.sub "\s+" " " (remove_char "," (upper raw_text))).
  intros text. unfold fallback_patterns.
  cbn [fold_left].
  match goal with
  | |- context [fallback_step text ?acc ("TOTAL ASSETS", ?pattern)] =>
      destruct (fallback_step_total text acc "TOTAL ASSETS" pattern eq_refl)
        as [a ->]
  end.
  cbn [fb_balance_sheet fb_pnl fb_cash_flow app].
  match goal with
  | |- context [fallback_step text ?acc ("TOTAL EQUITY", ?pattern)] =>
      destruct (fallback_step_total text acc "TOTAL EQUITY" pattern eq_refl)
        as [e ->]
  end.
  cbn [fb_balance_sheet fb_pnl fb_cash_flow].
  match goal with
  | |- context [fallback_step text ?acc ("TOTAL LIABILITIES", ?pattern)] =>
      destruct (fallback_step_total text acc "TOTAL LIABILITIES" pattern
                  eq_refl) as [l ->]
  end.
  cbn [fb_balance_sheet fb_pnl fb_cash_flow].
  match goal with
  | |- context [fallback_step text ?acc ("REVENUE", ?pattern)] =>
      destruct (fallback_step_figure text acc "REVENUE" pattern eq_refl)
        as [r ->]
  end.
  cbn [fb_balance_sheet fb_pnl fb_cash_flow].
  match goal with
  | |- context [fallback_step text ?acc ("PROFIT FOR THE PERIOD", ?pattern)] =>
      destruct (fallback_step_figure text acc "PROFIT FOR THE PERIOD" pattern
                  eq_refl) as [p ->]
  end.
  cbn [fb_balance_sheet fb_pnl fb_cash_flow].
  exists a, e, l, r, p. rewrite <- app_assoc.
  destruct r, p; reflexivity.
Qed.

(** What the document-wide P&L fallback returns, by the numbers it has
    read. *)
Lemma pnl_fallback_shape {pre : Preprocessing} (text : string) (scale : float) :
  exists r p b : option float,
    _extract_pnl_from_text text scale
    = fallback_entry "Revenue" r
      ++ fallback_entry "Profit for the Period" p
      ++ fallback_entry "Profit Before Tax" b.
Proof.
  unfold _extract_pnl_from_text.
  destruct (negb (nonempty text)); [exists None, None, None; reflexivity|].
  unfold pnl_patterns. cbn [fold_left].
  repeat match goal with
         | |- context [Re.search Re.ignorecase ?pat text] =>
             destruct (Re.search Re.ignorecase pat text) as [?m|]
         end;
    repeat match goal with
           | |- context [parse_number ?t] =>
               destruct (parse_number t) as [?num|]
           end;
    try (eexists (Some _), (Some _), (Some _); reflexivity);
    try (eexists (Some _), (Some _), None; reflexivity);
    try (eexists (Some _), None, (Some _); reflexivity);
    try (eexists None, (Some _), (Some _); reflexivity);
    try (eexists (Some _), None, None; reflexivity);
    try (eexists None, (Some _), None; reflexivity);
    try (eexists None, None, (Some _); reflexivity);
    try (exists None, None, None; reflexivity).
Qed.

(** X2. The fallbacks write fixed labels and numbers only. The fallback
    extractor returns at most the three totals, in the order assets,
    equity, liabilities, each with a number and confidence "high", at most
    the two P&L figures "Revenue" and "Profit for the Period", and never a
    cash-flow entry; the document-wide P&L fallback returns at most the
    entries "Revenue", "Profit for the Period" and "Profit Before Tax", in
    this order. No entry of a fallback has a previous value or lacks its
    number. *)
Theorem fallbacks_write_fixed_labels {pre : Preprocessing}
    (text : string) (factor : float) :
  (exists a e l r p : option float,
     _extract_from_text text
     = {| fb_balance_sheet :=
            total_row "TOTAL ASSETS" a ++ total_row "TOTAL EQUITY" e
            ++ total_row "TOTAL LIABILITIES" l;
          fb_pnl :=
            fallback_entry "Revenue" r
            ++ fallback_entry "Profit for the Period" p;
          fb_cash_flow := [] |})
  /\ (exists r p b : option float,
        _extract_pnl_from_text text factor
        = fallback_entry "Revenue" r
          ++ fallback_entry "Profit for the Period" p
          ++ fallback_entry "Profit Before Tax" b).
Proof.
  split.
  - destruct (fallback_shape text) as (a & e & l & r & p & H).
    exists a, e, l, r, p. exact H.
  - destruct (pnl_fallback_shape text factor) as (r & p & b & H).
    exists r, p, b. exact H.
Qed.

(** ** What the parser returns *)

Section ParserResults.

Context {pre : Preprocessing}.

Lemma fallback_has_no_cash_flow raw_text :
  fb_cash_flow (_extract_from_text raw_text) = [].
Proof.
  destruct (fallback_shape raw_text) as (a & e & l & r & p & H).
  rewrite H. reflexivity.
Qed.

Lemma or_list_nil_r {A} (a : list A) : or_list a [] = a.
Proof. destruct a; reflexivity. Qed.

Lemma pnl_fallback_update text factor :
  dict_update [] (_extract_pnl_from_text text factor)
  = _extract_pnl_from_text text factor.
Proof.
  destruct (pnl_fallback_shape text factor) as (r & p & b & ->).
  destruct r, p, b; reflexivity.
Qed.

(** The result of a parse: on a text with a balance-sheet or P&L block,
    the sections by their source, the detected scale and unit, and the
    warning of the balance check; on any other text, the fixed result
    without sections. *)
Lemma parse_cases (cleaned_text : string) (tbls : list table)
    (parsed : ParsedDocument) :
  parse_financial_document cleaned_text tbls = Ok parsed ->
  cleaned_text <> ""
  /\ tables parsed = tbls
  /\ if statements_detected (_split_into_sections cleaned_text)
     then sections parsed = sections_by_source cleaned_text
          /\ kpis parsed = None
          /\ scale parsed = fst (detect_document_scale cleaned_text)
          /\ meta parsed
             = _extract_meta cleaned_text
                 (snd (detect_document_scale cleaned_text))
          /\ validation_warning parsed
             = match _validate_basic_balance
                       {| meta := meta parsed; scale := scale parsed;
                          sections := sections parsed; tables := tbls;
                          kpis := None; validation_warning := None |} with
               | Ok _ => None
               | Raise e => Some e
               end
     else parsed
          = {| meta := _extract_meta cleaned_text "units"; scale := 1;
               sections := no_sections; tables := tbls;
               kpis := Some no_statements_summary;
               validation_warning := None |}.
Proof.
  unfold parse_financial_document, sections_by_source.
  destruct cleaned_text as [|c0 t]; [discriminate|].
  cbn [nonempty negb]. cbv zeta.
  destruct (detect_document_scale (String c0 t)) as [factor unit_label].
  cbn [fst snd].
  generalize (_split_into_sections (String c0 t)). intros blocks.
  destruct (statements_detected blocks); cbn [negb].
  2:{ intros H. injection H as <-.
      split; [discriminate|]. split; reflexivity. }
  rewrite fallback_has_no_cash_flow.
  pose proof (pnl_fallback_update (String c0 t) factor) as Hu.
  revert Hu.
  generalize (_extract_pnl_from_text (String c0 t) factor).
  generalize (fb_balance_sheet (_extract_from_text (String c0 t))).
  generalize (fb_pnl (_extract_from_text (String c0 t))).
  generalize (_extract_meta (String c0 t) unit_label).
  generalize (_extract_table_like_section (get_str "balance_sheet" blocks)
                factor).
  generalize (_extract_simple_kv (get_str "pnl" blocks) factor).
  generalize (_extract_simple_kv (get_str "cash_flow" blocks) factor).
  generalize (_extract_simple_kv (get_str "changes_in_equity" blocks) factor).
  intros ce0 cf0 pnl0 bs0 m fpnl fbs pnl_fb Hu.
  destruct bs0 as [|b0 bs0]; destruct pnl0 as [|p0 pnl0];
    destruct pnl_fb as [|q0 pnl_fb];
    cbn [nonempty_list negb or_list];
    rewrite ?Hu, ?or_list_nil_r; cbn [nonempty_list negb or_list];
    match goal with
    | |- context [_validate_basic_balance ?p] =>
        destruct (_validate_basic_balance p) eqn:V
    end;
    intros H; injection H as <-;
    (split; [discriminate|]); (split; [reflexivity|]);
    cbn [sections with_warning kpis scale meta validation_warning tables];
    (split; [reflexivity|]); (split; [reflexivity|]);
    (split; [reflexivity|]); (split; [reflexivity|]);
    rewrite V; reflexivity.
Qed.

(** X3. The sections of a parse, by the source of each. Whenever extraction
    takes place: the balance sheet is the table-like extraction of its
    block or, when that gives no row, what the fallback extractor reads in
    the whole text; the pnl is the key-value extraction of its block or,
    when that is empty, the document-wide P&L fallback or, when that is
    empty too and there is no balance-sheet row, the P&L figures of the
    fallback extractor; cash flow and changes in equity are the key-value
    extractions of their blocks, to which no fallback ever contributes.
    The tables are returned as given. *)
Theorem sections_come_from_these_sources
    (cleaned_text : string) (tbls : list table) (parsed : ParsedDocument) :
  parse_financial_document cleaned_text tbls = Ok parsed ->
  tables parsed = tbls
  /\ sections parsed
     = if statements_detected (_split_into_sections cleaned_text)
       then sections_by_source cleaned_text
       else no_sections.
Proof.
  intros H. apply parse_cases in H. destruct H as (_ & Ht & H).
  split; [exact Ht|].
  destruct (statements_detected (_split_into_sections cleaned_text)).
  - destruct H as (-> & _). reflexivity.
  - rewrite H. reflexivity.
Qed.

End ParserResults.

Lemma sections_come_from_these_sources_witness :
  tables pnl_in_crore_document = []
  /\ sections pnl_in_crore_document
     = if statements_detected (_split_into_sections pnl_in_crore_text)
       then @sections_by_source SpecPreprocessing.instance pnl_in_crore_text
       else no_sections.
Proof.
  apply (@sections_come_from_these_sources SpecPreprocessing.instance
           pnl_in_crore_text [] pnl_in_crore_document).
  vm_compute. reflexivity.
Defined.

(** ** The warning of the balance check *)

(** The balance check raises only when it has found a row for the total
    assets and one for the equity or the liabilities: either the mismatch
    error, or the [TypeError] of a sum with a row that has no value. *)
Lemma balance_check_raises (parsed : ParsedDocument) (e : exn) :
  _validate_basic_balance parsed = Raise e ->
  exists bs ta,
    balance_sheet (sections parsed) = Some bs
    /\ find_item bs "TOTAL ASSETS" = Some ta
    /\ is_some (find_item bs "TOTAL EQUITY")
       || is_some (find_item bs "TOTAL LIABILITIES") = true
    /\ ((exists a rhs,
           current_period ta = Some a
           /\ e = ValueError [Text "Balance mismatch: Assets="; Float a;
                              Text " vs Eq+Liab="; rhs])
        \/ (exists msg it,
              e = TypeError msg
              /\ (find_item bs "TOTAL EQUITY" = Some it
                  \/ find_item bs "TOTAL LIABILITIES" = Some it)
              /\ current_period it = None)).
Proof.
  unfold _validate_basic_balance.
  destruct (balance_sheet (sections parsed)) as [bs|];
    [|cbn [find_item]; discriminate].
  destruct (find_item bs "TOTAL ASSETS") as [ta|] eqn:Hta; [|discriminate].
  destruct (is_some (find_item bs "TOTAL EQUITY")
            || is_some (find_item bs "TOTAL LIABILITIES")) eqn:Hs;
    [|discriminate].
  intros H. exists bs, ta. split; [reflexivity|]. split; [exact Hta|].
  split; [exact Hs|].
  destruct (find_item bs "TOTAL EQUITY") as [te|] eqn:Ee;
    destruct (find_item bs "TOTAL LIABILITIES") as [tl|] eqn:El;
    cbn [is_some orb] in Hs; try discriminate; clear Hs;
    cbn [side] in H;
    repeat match type of H with
           | context [of_period (current_period ?i)] =>
               destruct (current_period i) eqn:?; cbn [of_period] in H
           end;
    cbn [py_add bind] in H;
    try (injection H as <-; right;
         match goal with
         | Hc : current_period ?i = None |- _ =>
             eexists _, i; split; [reflexivity|]; split; [auto|exact Hc]
         end);
    destruct (current_period ta) as [a|]; try discriminate;
    cbn [py_sub bind] in H;
    match type of H with
    | (if ?b then _ else _) = _ => destruct b; [|discriminate]
    end;
    injection H as <-; left; eexists _, _; split; reflexivity.
Qed.

Section Warning.

Context {pre : Preprocessing}.

(** X4. A validation warning comes from the balance check only: the result
    then has a balance-sheet row for the total assets and one for the total
    equity or the total liabilities, and the warning is the balance
    mismatch with the assets, or the message of the [TypeError] raised by
    the sum when the equity or liabilities row found has no value. *)
Theorem warning_comes_from_the_balance_check
    (cleaned_text : string) (tbls : list table) (parsed : ParsedDocument)
    (e : exn) :
  parse_financial_document cleaned_text tbls = Ok parsed ->
  validation_warning parsed = Some e ->
  exists bs ta,
    balance_sheet (sections parsed) = Some bs
    /\ find_item bs "TOTAL ASSETS" = Some ta
    /\ is_some (find_item bs "TOTAL EQUITY")
       || is_some (find_item bs "TOTAL LIABILITIES") = true
    /\ ((exists a rhs,
           current_period ta = Some a
           /\ e = ValueError [Text "Balance mismatch: Assets="; Float a;
                              Text " vs Eq+Liab="; rhs])
        \/ (exists msg it,
              e = TypeError msg
              /\ (find_item bs "TOTAL EQUITY" = Some it
                  \/ find_item bs "TOTAL LIABILITIES" = Some it)
              /\ current_period it = None)).
Proof.
  intros H Hw. apply parse_cases in H. destruct H as (_ & _ & H).
  cbv zeta in H.
  destruct (statements_detected (_split_into_sections cleaned_text)).
  - destruct H as (_ & _ & _ & _ & Hv). rewrite Hv in Hw.
    match type of Hw with
    | match ?x with _ => _ end = _ => destruct x as [|e'] eqn:V
    end; [discriminate|].
    injection Hw as ->. apply balance_check_raises in V. exact V.
  - rewrite H in Hw. discriminate.
Qed.

End Warning.

Lemma warning_comes_from_the_balance_check_witness :
  exists bs ta,
    balance_sheet (sections unbalanced_document) = Some bs
    /\ find_item bs "TOTAL ASSETS" = Some ta
    /\ is_some (find_item bs "TOTAL EQUITY")
       || is_some (find_item bs "TOTAL LIABILITIES") = true
    /\ ((exists a rhs,
           current_period ta = Some a
           /\ ValueError [Text "Balance mismatch: Assets="; Float 1000;
                          Text " vs Eq+Liab="; Float 800]
              = ValueError [Text "Balance mismatch: Assets="; Float a;
                            Text " vs Eq+Liab="; rhs])
        \/ (exists msg it,
              ValueError [Text "Balance mismatch: Assets="; Float 1000;
                          Text " vs Eq+Liab="; Float 800]
              = TypeError msg
              /\ (find_item bs "TOTAL EQUITY" = Some it
                  \/ find_item bs "TOTAL LIABILITIES" = Some it)
              /\ current_period it = None)).
Proof.
  apply (@warning_comes_from_the_balance_check SpecPreprocessing.instance
           (balance_sheet_text "1,000" "500" "300") [] unbalanced_document).
  - vm_compute. reflexivity.
  - reflexivity.
Defined.

(** ** Captured groups *)

Module ReGroups.
Import Re.

Lemma one_adds gs ok : adds gs (one ok).
Proof.
  intros k c cs res H. unfold one in H.
  destruct (step c) as [[a c']|]; [|discriminate].
  destruct (ok a); [|discriminate].
  exists c', []. auto.
Qed.

Lemma adds_incl gs gs' body : incl gs gs' -> adds gs body -> adds gs' body.
Proof.
  intros Hi Hb k c cs res H. apply Hb in H.
  destruct H as (c' & added & H & Ha). exists c', added. split; [exact H|].
  eapply Forall_impl; [|exact Ha]. intros e He. apply Hi, He.
Qed.

Lemma iterate_adds gs body lo hi greedy k :
  adds gs body ->
  forall fuel count c cs res,
    iterate body lo hi greedy k fuel count c cs = Some res ->
    exists c' added,
      k c' (added ++ cs) = Some res
      /\ Forall (fun e : nat * string => In (fst e) gs) added.
Proof.
  intros Hb. induction fuel as [|fuel IH]; intros count c cs res H.
  - simpl in H. destruct (lo <=? count)%nat; [|discriminate].
    exists c, []. auto.
  - assert (Hstop :
      (if (lo <=? count)%nat then k c cs else None) = Some res ->
      exists c' added,
        k c' (added ++ cs) = Some res
        /\ Forall (fun e : nat * string => In (fst e) gs) added).
    { destruct (lo <=? count)%nat; [|discriminate]. intros Hk.
      exists c, []. auto. }
    assert (Hmore :
      (if below count hi
       then body (fun c' cs' =>
                    if (pos c <? pos c')%nat
                    then iterate body lo hi greedy k fuel (S count) c' cs'
                    else None) c cs
       else None) = Some res ->
      exists c' added,
        k c' (added ++ cs) = Some res
        /\ Forall (fun e : nat * string => In (fst e) gs) added).
    { destruct (below count hi); [|discriminate]. intros Hm.
      apply Hb in Hm. destruct Hm as (c1 & added1 & Hm & A1).
      destruct (pos c <? pos c1)%nat; [|discriminate].
      apply IH in Hm. destruct Hm as (c2 & added2 & Hm & A2).
      exists c2, (added2 ++ added1). rewrite <- app_assoc.
      split; [exact Hm|]. apply Forall_app. auto. }
    simpl in H. destruct greedy;
      apply ReFacts.or_else_inv in H; destruct H; auto.
Qed.

(** A run adds captures of the groups of its pattern only, in front of
    the captures it was given. *)
Lemma run_adds fl r : adds (groups_of r) (run fl r).
Proof.
  induction r as [x| |neg items| | | | |r1 IHr1 r2 IHr2|r1 IHr1 r2 IHr2
                 |r IHr lo hi g|n r IHr|r IHr| ];
    intros k c cs res H; simpl in H.
  - eapply one_adds; eauto.
  - eapply one_adds; eauto.
  - eapply one_adds; eauto.
  - destruct (at_boundary c); [|discriminate]. exists c, []. auto.
  - destruct (pos c =? 0)%nat; [|discriminate]. exists c, []. auto.
  - destruct (at_end c); [|discriminate]. exists c, []. auto.
  - exists c, []. auto.
  - apply IHr1 in H. destruct H as (c1 & a1 & H & A1).
    apply IHr2 in H. destruct H as (c2 & a2 & H & A2).
    exists c2, (a2 ++ a1). rewrite <- app_assoc. split; [exact H|].
    cbn [groups_of]. apply Forall_app. split.
    + eapply Forall_impl; [|exact A2]. intros e He. apply in_or_app. auto.
    + eapply Forall_impl; [|exact A1]. intros e He. apply in_or_app. auto.
  - cbn [groups_of]. apply ReFacts.or_else_inv in H. destruct H as [H|H].
    + apply IHr1 in H. destruct H as (c1 & a1 & H & A1).
      exists c1, a1. split; [exact H|].
      eapply Forall_impl; [|exact A1]. intros e He. apply in_or_app. auto.
    + apply IHr2 in H. destruct H as (c1 & a1 & H & A1).
      exists c1, a1. split; [exact H|].
      eapply Forall_impl; [|exact A1]. intros e He. apply in_or_app. auto.
  - cbn [groups_of]. eapply iterate_adds in H; eauto.
  - apply IHr in H. destruct H as (c1 & a1 & H & A1).
    exists c1, ((n, str (firstn (pos c1 - pos c) (rest c))) :: a1).
    split; [exact H|]. cbn [groups_of].
    constructor; [left; reflexivity|].
    eapply Forall_impl; [|exact A1]. intros e He. right. exact He.
  - destruct (run fl r (fun c' cs' => Some (c', cs')) c cs)
      as [[c1 cs1]|] eqn:E; [|discriminate].
    apply IHr in E. destruct E as (c2 & a & E & A).
    injection E as _ <-. exists c, a. auto.
  - discriminate.
Qed.

(** Captures of other groups in front do not hide the capture of [n]. *)
Lemma lookup_behind n added cs gs :
  Forall (fun e : nat * string => In (fst e) gs) added ->
  ~ In n gs ->
  lookup n (added ++ cs) = lookup n cs.
Proof.
  intros Ha Hn. induction Ha as [|[i s] added Hi _ IH]; [reflexivity|].
  cbn [app lookup fst] in *.
  destruct (i =? n)%nat eqn:E; [|exact IH].
  apply Nat.eqb_eq in E. subst. contradiction.
Qed.

Lemma literal_words_sound r : forall ws w,
  literal_words r = Some ws -> lang no_flags r w -> In w ws.
Proof.
  induction r as [x| |neg items| | | | |r1 IHr1 r2 IHr2|r1 IHr1 r2 IHr2
                 |r IHr lo hi g|n r IHr|r IHr| ];
    intros ws w Hw L; cbn [literal_words] in Hw; try discriminate.
  - injection Hw as <-. cbn [lang] in L. destruct L as (a & -> & L).
    unfold lit_has in L. cbn in L. apply Ascii.eqb_eq in L. subst. left.
    reflexivity.
  - injection Hw as <-. cbn [lang] in L. subst. left. reflexivity.
  - destruct (literal_words r1) as [x|]; [|discriminate].
    destruct (literal_words r2) as [y|]; [|discriminate].
    injection Hw as <-. cbn [lang] in L. destruct L as (w1 & w2 & -> & L1 & L2).
    apply in_flat_map. exists w1. split; [eauto|]. apply in_map. eauto.
  - destruct (literal_words r1) as [x|]; [|discriminate].
    destruct (literal_words r2) as [y|]; [|discriminate].
    injection Hw as <-. cbn [lang] in L. apply in_or_app.
    destruct L; [left|right]; eauto.
  - cbn [lang] in L. eauto.
Qed.

End ReGroups.

(** ** The period hint *)

Lemma period_pattern_parts :
  Re.compile period_pattern
  = Re.Cat (Re.Cat (Re.Cat (Re.Cat (Re.Cat (Re.Group 1 period_months)
       (Re.Rep (Re.CharSet false [Re.CSpace]) 1 None true))
       (Re.Rep (Re.CharSet false [Re.CDigit]) 1 (Some 2) true))
       (Re.Rep (Re.Lit ",") 0 (Some 1) true))
       (Re.Rep (Re.CharSet false [Re.CSpace]) 0 None true))
       year_group.
Proof. vm_compute. reflexivity. Qed.

(** The first group of a date matched by the period pattern is one of the
    four month names, as written in the pattern. *)
Lemma period_month text m :
  Re.search Re.no_flags period_pattern text = Some m ->
  In (group_or_empty m 1) ["June"; "September"; "December"; "March"].
Proof.
  unfold Re.search. intros H.
  apply ReFacts.search_from_inv in H. destruct H as (c0 & H).
  rewrite period_pattern_parts in H. unfold Re.match_at in H.
  match type of H with
  | match ?x with _ => _ end = _ => destruct x as [[c' cs]|] eqn:E
  end; [|discriminate].
  injection H as <-.
  change (Re.run Re.no_flags (Re.Group 1 period_months)
            (fun c1 cs1 =>
               Re.run Re.no_flags period_tail
                 (fun c2 cs2 => Some (c2, cs2)) c1 cs1) c0 []
          = Some (c', cs)) in E.
  rewrite ReFacts.run_group in E.
  apply ReFacts.run_sound in E. destruct E as (w & c1 & cs1 & L & W & E).
  rewrite (ReFacts.firstn_leads _ _ _ W) in E.
  apply ReGroups.run_adds in E. destruct E as (c2 & added & E & A).
  injection E as _ <-.
  unfold group_or_empty, Re.group. cbn [Re.m_caps].
  rewrite (ReGroups.lookup_behind 1 added _ (groups_of period_tail) A).
  2:{ vm_compute. intros [H|[]]. discriminate. }
  cbn [Re.lookup Nat.eqb].
  apply (ReGroups.literal_words_sound period_months _ w eq_refl) in L.
  cbn [In] in *.
  repeat destruct L as [<-|L]; auto 6.
Qed.

Lemma str_of_nat_app_nonempty a b : (a ++ " " ++ b)%string <> "".
Proof. destruct a; discriminate. Qed.

(** X5. A period hint is a quarter and a fiscal year: "Q1" to "Q3" for June,
    September and December with the two-digit year plus one (1 to 100),
    "Q4" for March with the two-digit year after (0 to 99); the quarter is
    never empty. *)
Theorem period_hint_is_a_quarter_label (text h : string) :
  _detect_period_hint text = Some h ->
  exists q fy,
    In q ["Q1"; "Q2"; "Q3"; "Q4"] /\ fy <= 100
    /\ (q = "Q4" -> fy <= 99)
    /\ h = (q ++ " FY" ++ str_of_nat fy)%string.
Proof.
  unfold _detect_period_hint.
  destruct (Re.search Re.no_flags period_pattern text) as [m|] eqn:E;
    [|discriminate].
  pose proof (period_month _ _ E) as Hm.
  pose proof (period_year_range _ _ E) as Hy.
  set (year := int_of_digits (group_or_empty m 2)) in *.
  intros H. injection H as <-.
  assert (H1 : fy_other year <= 100).
  { unfold fy_other. pose proof (Nat.mod_upper_bound year 100). lia. }
  assert (H2 : fy_march year <= 99).
  { unfold fy_march. pose proof (Nat.mod_upper_bound (year + 1) 100). lia. }
  cbn [In] in Hm.
  destruct Hm as [<-|[<-|[<-|[<-|[]]]]].
  - exists "Q1", (fy_other year). cbn [In].
    repeat split; auto; discriminate.
  - exists "Q2", (fy_other year). cbn [In].
    repeat split; auto; discriminate.
  - exists "Q3", (fy_other year). cbn [In].
    repeat split; auto 6; discriminate.
  - exists "Q4", (fy_march year). cbn [In].
    repeat split; auto 6; lia.
Qed.

Lemma period_hint_is_a_quarter_label_witness :
  exists q fy,
    In q ["Q1"; "Q2"; "Q3"; "Q4"] /\ fy <= 100
    /\ (q = "Q4" -> fy <= 99)
    /\ "Q1 FY25" = (q ++ " FY" ++ str_of_nat fy)%string.
Proof.
  apply (period_hint_is_a_quarter_label "As at June 30, 2024" "Q1 FY25").
  vm_compute. reflexivity.
Defined.

(** ** The metadata and the label of a period *)

(** The company of the metadata is never empty ("Unknown" stands for a
    company that was not found), the unit is the label given, and a period
    hint, when there is one, is what [_detect_period_hint] reads. *)
Lemma extract_meta_fields text unit_label :
  company (_extract_meta text unit_label) <> ""
  /\ meta_unit (_extract_meta text unit_label) = unit_label
  /\ forall h, period_hint (_extract_meta text unit_label) = Some (Some h) ->
               _detect_period_hint text = Some h.
Proof.
  unfold _extract_meta. cbv zeta. cbn [company meta_unit period_hint].
  split; [|split; [reflexivity|]].
  - match goal with
    | |- (if match ?X with _ => _ end then _ else _) <> _ => generalize X
    end.
    intros [[|a s]|]; simpl; discriminate.
  - intros h.
    match goal with
    | |- (if ?b then _ else _) = _ -> _ => destruct b; [|discriminate]
    end.
    intros H. injection H as H. exact H.
Qed.

Lemma period_hint_nonempty text h : _detect_period_hint text = Some h -> h <> "".
Proof.
  unfold _detect_period_hint.
  destruct (Re.search Re.no_flags period_pattern text) as [m|]; [|discriminate].
  intros H. injection H as <-. apply str_of_nat_app_nonempty.
Qed.

Section Labels.

Context {pre : Preprocessing}.

(** X6. The trend service never needs its default label "period_N" for a
    result of the parser: the company of its metadata is not empty, so the
    label of the period is the period hint when the metadata has one that
    is a string, and the company otherwise, whatever the position of the
    document in the list. *)
Theorem parsed_document_has_a_label
    (cleaned_text : string) (tbls : list table) (parsed : ParsedDocument) :
  parse_financial_document cleaned_text tbls = Ok parsed ->
  company (meta parsed) <> ""
  /\ forall n,
       period_key (meta parsed) n
       = match period_hint (meta parsed) with
         | Some (Some h) => h
         | _ => company (meta parsed)
         end
       /\ period_key (meta parsed) n <> "".
Proof.
  intros H. apply parse_cases in H. destruct H as (_ & _ & H). cbv zeta in H.
  assert (Hm : exists u, meta parsed = _extract_meta cleaned_text u).
  { destruct (statements_detected (_split_into_sections cleaned_text)).
    - destruct H as (_ & _ & _ & Hm & _). eauto.
    - rewrite H. eexists. reflexivity. }
  destruct Hm as [u Hm]. rewrite Hm.
  destruct (extract_meta_fields cleaned_text u) as (Hc & _ & Hh).
  split; [exact Hc|]. intros n. unfold period_key.
  destruct (company (_extract_meta cleaned_text u)) as [|a s] eqn:Ec;
    [now destruct Hc|].
  destruct (period_hint (_extract_meta cleaned_text u)) as [[h|]|] eqn:Eh;
    cbn [nonempty]; try (split; [reflexivity|discriminate]).
  pose proof (period_hint_nonempty _ _ (Hh h eq_refl)) as Hn.
  destruct h as [|b t]; [now destruct Hn|]. cbn [nonempty].
  split; [reflexivity|discriminate].
Qed.

End Labels.

Lemma parsed_document_has_a_label_witness :
  company (meta two_statements_document) <> ""
  /\ forall n,
       period_key (meta two_statements_document) n
       = match period_hint (meta two_statements_document) with
         | Some (Some h) => h
         | _ => company (meta two_statements_document)
         end
       /\ period_key (meta two_statements_document) n <> "".
Proof.
  apply (@parsed_document_has_a_label SpecPreprocessing.instance
           two_statements_text [] two_statements_document).
  vm_compute. reflexivity.
Defined.

(** ** The time series *)

Lemma dict_get_In {V} k (d : dict V) v : dict_get k d = Some v -> In (k, v) d.
Proof.
  induction d as [|[k0 v0] d IH]; simpl; [discriminate|].
  destruct (String.eqb k0 k) eqn:E.
  - apply String.eqb_eq in E. subst. intros H. injection H as <-. auto.
  - auto.
Qed.

Lemma in_dict_set_key {V} k k' (v v' : V) d :
  In (k, v) (dict_set k' v' d) -> (k = k' /\ v = v') \/ In (k, v) d.
Proof.
  induction d as [|[k0 v0] d IH]; simpl.
  - intros [H|[]]. injection H as <- <-. auto.
  - destruct (String.eqb k0 k') eqn:E; simpl.
    + apply String.eqb_eq in E. subst k0.
      intros [H|H]; [injection H as <- <-|]; auto.
    + intros [H|H]; auto. destruct (IH H); auto.
Qed.

Lemma dict_set_keys {V} k (v : V) d :
  incl (dict_keys (dict_set k v d)) (k :: dict_keys d)
  /\ (NoDup (dict_keys d) -> NoDup (dict_keys (dict_set k v d)))
  /\ List.length (dict_set k v d) <= S (List.length d).
Proof.
  induction d as [|[k0 v0] d (I1 & I2 & I3)]; cbn [dict_set].
  - split; [apply incl_refl|]. split; [|simpl; lia].
    intros _. repeat constructor. intros [].
  - destruct (String.eqb k0 k) eqn:E; cbn [dict_keys map fst List.length] in *.
    + split; [apply incl_tl, incl_refl|]. split; [auto|lia].
    + split; [|split; [|lia]].
      * intros x [<-|Hx]; [right; left; reflexivity|].
        destruct (I1 x Hx) as [<-|Hd]; [left; reflexivity|right; right; exact Hd].
      * intros Hn. inversion Hn as [|? ? Hk Hd]; subst.
        constructor; [|auto]. intros Hin.
        destruct (I1 _ Hin) as [Hx|Hx]; [|contradiction].
        subst. rewrite String.eqb_refl in E. discriminate.
Qed.

Lemma aggregate_timeseries parsed_list :
  timeseries (aggregate_periods parsed_list)
  = fold_left add_period parsed_list [].
Proof.
  unfold aggregate_periods.
  destruct (last_two _) as [[prev latest_period]|]; reflexivity.
Qed.

Lemma add_periods_invariant parsed_list : forall ts,
  NoDup (dict_keys ts) ->
  Forall (fun kv => exists p, entry_kpis (snd kv) = compute_kpis p) ts ->
  let ts' := fold_left add_period parsed_list ts in
  NoDup (dict_keys ts')
  /\ Forall (fun kv => exists p, entry_kpis (snd kv) = compute_kpis p) ts'
  /\ List.length ts' <= List.length parsed_list + List.length ts.
Proof.
  induction parsed_list as [|p l IH]; intros ts Hn Hf; cbn [fold_left].
  - cbv zeta. split; [exact Hn|]. split; [exact Hf|]. simpl. lia.
  - assert (K : NoDup (dict_keys (add_period ts p))
               /\ Forall (fun kv => exists p, entry_kpis (snd kv)
                                               = compute_kpis p)
                         (add_period ts p)
               /\ List.length (add_period ts p) <= S (List.length ts)).
    { unfold add_period.
      match goal with
      | |- context [dict_set ?k ?v ts] =>
          destruct (dict_set_keys k v ts) as (_ & K2 & K3)
      end.
      split; [exact (K2 Hn)|]. split; [|exact K3].
      apply Forall_forall. intros [k0 e0] Hin.
      apply in_dict_set in Hin. destruct Hin as [-> | Hin].
      - cbn [snd entry_kpis]. eauto.
      - rewrite Forall_forall in Hf. apply (Hf _ Hin). }
    destruct K as (K1 & K2 & K3).
    destruct (IH (add_period ts p) K1 K2) as (I1 & I2 & I3).
    cbv zeta in *.
    split; [exact I1|]. split; [exact I2|].
    cbn [List.length]. lia.
Qed.

Lemma last_two_none (l : list string) :
  last_two l = None <-> List.length l < 2.
Proof.
  unfold last_two. rewrite <- (length_rev l).
  destruct (rev l) as [|x [|y r]]; simpl; split; intros H;
    try reflexivity; try lia; try discriminate.
Qed.

(** X7. The time series has one entry per distinct period label, at most one
    per document, and the comparisons are left empty exactly when there are
    fewer than two labels: one document alone, or several documents under
    one label, are not compared. *)
Theorem comparisons_need_two_labels (parsed_list : list ParsedDocument) :
  let trend := aggregate_periods parsed_list in
  NoDup (dict_keys (timeseries trend))
  /\ List.length (timeseries trend) <= List.length parsed_list
  /\ (comparisons trend = None <-> List.length (timeseries trend) < 2).
Proof.
  cbv zeta. rewrite aggregate_timeseries.
  destruct (add_periods_invariant parsed_list [] (NoDup_nil _) (Forall_nil _))
    as (H1 & _ & H3). cbv zeta in *.
  split; [exact H1|]. split; [simpl in H3; lia|].
  unfold aggregate_periods.
  set (ts := fold_left add_period parsed_list []).
  assert (Hl : List.length (sorted_keys (dict_keys ts)) = List.length ts).
  { rewrite (Permutation_length (sorted_keys_perm _)).
    unfold dict_keys. apply length_map. }
  rewrite <- Hl, <- last_two_none.
  destruct (last_two (sorted_keys (dict_keys ts))) as [[prev latest_period]|];
    cbn [comparisons]; split; intros H; try reflexivity; discriminate.
Qed.

(** *** Which metrics are compared *)

Lemma compare_kpis_only latest_kpis prev_kpis k c :
  dict_get k (compare_kpis latest_kpis prev_kpis) = Some c ->
  exists l p,
    dict_get k latest_kpis = Some (KNum l)
    /\ dict_get k prev_kpis = Some (KNum p)
    /\ c = {| latest := l; previous_value := p; growth_pct := growth l p |}.
Proof.
  intros H. apply dict_get_In in H. revert H. unfold compare_kpis.
  set (P := fun kc : string * Comparison =>
              exists l p,
                dict_get (fst kc) latest_kpis = Some (KNum l)
                /\ dict_get (fst kc) prev_kpis = Some (KNum p)
                /\ snd kc = {| latest := l; previous_value := p;
                               growth_pct := growth l p |}).
  assert (G : forall items acc,
            Forall P acc ->
            Forall P (fold_left (comparison_of latest_kpis prev_kpis)
                        items acc)).
  { induction items as [|[k0 v0] items IH]; intros acc Ha; cbn [fold_left];
      [exact Ha|].
    apply IH. unfold comparison_of. cbn [fst]. cbv zeta.
    destruct (dict_get k0 latest_kpis) as [[l|s]|] eqn:El; try exact Ha.
    destruct (dict_get k0 prev_kpis) as [[p|s]|] eqn:Ep; try exact Ha.
    apply Forall_forall. intros [k1 c1] Hin.
    apply in_dict_set_key in Hin. destruct Hin as [[-> ->] | Hin].
    - exists l, p. auto.
    - rewrite Forall_forall in Ha. apply (Ha _ Hin). }
  intros Hin.
  pose proof (G latest_kpis [] (Forall_nil _)) as HF.
  rewrite Forall_forall in HF. apply (HF _ Hin).
Qed.

Lemma summary_is_a_string parsed :
  exists s, dict_get "summary" (compute_kpis parsed) = Some (KStr s).
Proof.
  unfold compute_kpis, finish. rewrite dict_get_set, String.eqb_refl. eauto.
Qed.

Lemma kpis_of_summary parsed_list k :
  forall x,
    dict_get "summary"
      (kpis_of (timeseries (aggregate_periods parsed_list)) k)
    <> Some (KNum x).
Proof.
  intros x. rewrite aggregate_timeseries.
  destruct (add_periods_invariant parsed_list [] (NoDup_nil _) (Forall_nil _))
    as (_ & H & _). cbv zeta in H.
  unfold kpis_of.
  destruct (dict_get k (fold_left add_period parsed_list [])) as [e|] eqn:E;
    [|discriminate].
  apply dict_get_In in E. rewrite Forall_forall in H.
  destruct (H _ E) as [p Hp]. cbn [snd] in Hp. rewrite Hp.
  destruct (summary_is_a_string p) as [s ->]. discriminate.
Qed.

(** X8. When [aggregate_periods] returns comparisons, they name the two
    latest period labels -- the last two of the labels of the time series
    in sorted order -- and only the metrics that are numbers in both of
    these periods get a comparison, with these two numbers and their
    growth: the summary, which is a string, is never compared, nor is a
    metric that one of the two periods lacks. *)
Theorem only_numbers_are_compared
    (parsed_list : list ParsedDocument) (cmp : Comparisons) :
  comparisons (aggregate_periods parsed_list) = Some cmp ->
  let ts := timeseries (aggregate_periods parsed_list) in
  exists earlier prev latest_period,
    periods cmp = [prev; latest_period]
    /\ Permutation (dict_keys ts) (earlier ++ [prev; latest_period])
    /\ Forall (fun k => key_le k prev) earlier
    /\ key_le prev latest_period
    /\ dict_get "summary" (metrics cmp) = None
    /\ forall k c,
         dict_get k (metrics cmp) = Some c ->
         dict_get k (kpis_of ts latest_period) = Some (KNum (latest c))
         /\ dict_get k (kpis_of ts prev) = Some (KNum (previous_value c))
         /\ growth_pct c = growth (latest c) (previous_value c).
Proof.
  intros H. cbv zeta.
  pose proof (kpis_of_summary parsed_list) as Hs.
  revert H Hs. rewrite aggregate_timeseries. unfold aggregate_periods.
  set (ts := fold_left add_period parsed_list []).
  destruct (last_two (sorted_keys (dict_keys ts)))
    as [[prev latest_period]|] eqn:Hlast;
    cbn [comparisons]; [|discriminate].
  intros H Hs. injection H as <-. cbn [periods metrics].
  destruct (last_two_spec _ _ _ Hlast) as [earlier He].
  pose proof (sorted_keys_sorted (dict_keys ts)) as Hsorted.
  rewrite He in Hsorted.
  destruct (sorted_last_two _ _ _ Hsorted) as [H1 H2].
  exists earlier, prev, latest_period. split; [reflexivity|].
  split. { rewrite <- He. symmetry. apply sorted_keys_perm. }
  split; [exact H1|]. split; [exact H2|]. split.
  - destruct (dict_get "summary" _) as [c|] eqn:E; [|reflexivity].
    apply compare_kpis_only in E. destruct E as (l & p & E & _).
    destruct (Hs latest_period l E).
  - intros k c E. apply compare_kpis_only in E.
    destruct E as (l & p & El & Ep & ->). auto.
Qed.

Lemma only_numbers_are_compared_witness :
  let cmp :=
    {| periods := ["Q1 FY25"; "Q2 FY25"];
       metrics :=
         compare_kpis
           (kpis_of (timeseries (aggregate_periods two_periods)) "Q2 FY25")
           (kpis_of (timeseries (aggregate_periods two_periods)) "Q1 FY25")
    |} in
  let ts := timeseries (aggregate_periods two_periods) in
  exists earlier prev latest_period,
    periods cmp = [prev; latest_period]
    /\ Permutation (dict_keys ts) (earlier ++ [prev; latest_period])
    /\ Forall (fun k => key_le k prev) earlier
    /\ key_le prev latest_period
    /\ dict_get "summary" (metrics cmp) = None
    /\ forall k c,
         dict_get k (metrics cmp) = Some c ->
         dict_get k (kpis_of ts latest_period) = Some (KNum (latest c))
         /\ dict_get k (kpis_of ts prev) = Some (KNum (previous_value c))
         /\ growth_pct c = growth (latest c) (previous_value c).
Proof.
  exact (only_numbers_are_compared two_periods
           {| periods := ["Q1 FY25"; "Q2 FY25"];
              metrics :=
                compare_kpis
                  (kpis_of (timeseries (aggregate_periods two_periods))
                     "Q2 FY25")
                  (kpis_of (timeseries (aggregate_periods two_periods))
                     "Q1 FY25") |}
           eq_refl).
Defined.

(** *** Documents under one label *)

Lemma add_period_same_label h e p :
  h <> "" ->
  period_hint (meta p) = Some (Some h) ->
  forall ts, ts = [] \/ ts = [(h, e)] ->
  add_period ts p
  = [(h, {| entry_meta := meta p; entry_kpis := compute_kpis p |})].
Proof.
  intros Hh Hp ts Hts. unfold add_period, period_key. rewrite Hp.
  destruct h as [|a t]; [now destruct Hh|]. cbn [nonempty].
  destruct Hts as [-> | ->]; cbn [dict_set]; [reflexivity|].
  rewrite String.eqb_refl. reflexivity.
Qed.

(** X9. Documents with one and the same period hint replace each other: the
    time series keeps a single entry under that label, the metadata and
    KPIs of the last document of the list, and nothing is compared. *)
Theorem same_label_documents_replace_each_other
    (h : string) (earlier : list ParsedDocument) (p : ParsedDocument) :
  h <> "" ->
  Forall (fun d => period_hint (meta d) = Some (Some h)) (earlier ++ [p]) ->
  aggregate_periods (earlier ++ [p])
  = {| timeseries :=
         [(h, {| entry_meta := meta p; entry_kpis := compute_kpis p |})];
       comparisons := None |}.
Proof.
  intros Hh Hf. apply Forall_app in Hf. destruct Hf as [He Hp].
  inversion Hp as [|? ? Hp' _]; subst.
  assert (G : forall l ts,
            Forall (fun d => period_hint (meta d) = Some (Some h)) l ->
            (ts = [] \/ exists e, ts = [(h, e)]) ->
            fold_left add_period l ts = []
            \/ exists e, fold_left add_period l ts = [(h, e)]).
  { induction l as [|d l IH]; intros ts Hl Hts; cbn [fold_left]; [exact Hts|].
    inversion Hl as [|? ? Hd Hl']; subst. apply IH; [exact Hl'|].
    right. eexists. destruct Hts as [-> | [e ->]].
    - apply (add_period_same_label h {| entry_meta := meta d;
                                        entry_kpis := [] |} d Hh Hd). auto.
    - apply (add_period_same_label h e d Hh Hd). auto. }
  unfold aggregate_periods. rewrite fold_left_app. cbn [fold_left].
  assert (E : add_period (fold_left add_period earlier []) p
              = [(h, {| entry_meta := meta p;
                        entry_kpis := compute_kpis p |})]).
  { destruct (G earlier [] He (or_introl eq_refl)) as [-> | [e ->]].
    - apply (add_period_same_label h {| entry_meta := meta p;
                                        entry_kpis := [] |} p Hh Hp'). auto.
    - apply (add_period_same_label h e p Hh Hp'). auto. }
  rewrite E. reflexivity.
Qed.

Lemma same_label_documents_replace_each_other_witness :
  aggregate_periods one_period_twice
  = {| timeseries :=
         [("Q1 FY25",
           {| entry_meta := meta (period_document "Q1 FY25" 120);
              entry_kpis := compute_kpis (period_document "Q1 FY25" 120) |})];
       comparisons := None |}.
Proof.
  apply (same_label_documents_replace_each_other "Q1 FY25"
           [period_document "Q1 FY25" 100] (period_document "Q1 FY25" 120)).
  - discriminate.
  - repeat constructor.
Defined.

(** ** The key snippets of the KPI service *)

Lemma upper_char_not_lower a : is_lower (upper_char a) = false.
Proof.
  unfold upper_char. destruct (is_lower a) eqn:E; [|exact E].
  unfold is_lower, between, code in *.
  apply andb_true_iff in E. destruct E as [E1 E2].
  apply Nat.leb_le in E1, E2.
  rewrite nat_ascii_embedding by lia.
  apply andb_false_iff. left. apply Nat.leb_gt. lia.
Qed.

Lemma upper_has_no_lower s : has_lower (upper s) = false.
Proof.
  unfold has_lower, upper, map_str. rewrite chars_str.
  induction (chars s) as [|a l IH]; [reflexivity|].
  cbn [map existsb]. rewrite upper_char_not_lower, IH. reflexivity.
Qed.

Lemma has_lower_infix sub s :
  contains sub s = true -> has_lower sub = true -> has_lower s = true.
Proof.
  intros H. apply contains_spec in H. destruct H as (a & b & H).
  unfold has_lower. rewrite H, !existsb_app. intros ->.
  rewrite orb_true_r. reflexivity.
Qed.

(** A snippet with a lower-case letter is in no upper-cased label. *)
Lemma lower_snippet_not_in_upper key label :
  has_lower key = true -> contains key (upper label) = false.
Proof.
  intros Hk. destruct (contains key (upper label)) eqn:E; [|reflexivity].
  pose proof (has_lower_infix _ _ E Hk) as H.
  rewrite upper_has_no_lower in H. discriminate.
Qed.

Lemma any_in_without_lower snippets label :
  any_in (filter (fun k => negb (has_lower k)) snippets) (upper label)
  = any_in snippets (upper label).
Proof.
  induction snippets as [|key rest IH]; [reflexivity|].
  cbn [filter any_in]. destruct (has_lower key) eqn:E; cbn [negb].
  - rewrite (lower_snippet_not_in_upper _ _ E). exact IH.
  - cbn [any_in]. rewrite IH. reflexivity.
Qed.

Lemma extract_numeric_ext section a b :
  (forall label, any_in a (upper label) = any_in b (upper label)) ->
  _extract_numeric section a = _extract_numeric section b.
Proof.
  intros H. destruct section as [d|l]; cbn [_extract_numeric].
  - induction d as [|[k v] d IH]; [reflexivity|].
    cbn [first_entry]. rewrite H, IH. reflexivity.
  - induction l as [|it l IH]; [reflexivity|].
    cbn [_find_single_value]. rewrite H, IH. reflexivity.
Qed.

(** X10. Labels are compared in upper case, the snippets as they are written:
    a snippet with a lower-case letter never matches, so a lookup gives
    what it gives without such snippets. In [compute_kpis] the capital
    expenditure is looked up with ["Purchase", "CAPEX"]: only "CAPEX"
    counts. *)
Theorem lower_case_snippets_never_match
    (section : section_value) (key_snippets : list string) :
  _extract_numeric section key_snippets
  = _extract_numeric section
      (filter (fun k => negb (has_lower k)) key_snippets).
Proof.
  apply extract_numeric_ext. intros label. symmetry.
  apply any_in_without_lower.
Qed.

(** X11. A snippet that contains another snippet of the list adds nothing: the
    first label that matches one of the snippets is found by the shorter
    snippet already. In [compute_kpis] the net profit is looked up with
    ["PROFIT", "NET PROFIT", "PROFIT FOR THE PERIOD"]: it is the value of
    the first P&L entry whose label contains "PROFIT". *)
Theorem longer_snippets_are_redundant
    (section : section_value) (key_snippets more : list string) :
  (forall extra, In extra more ->
     exists key, In key key_snippets /\ contains key extra = true) ->
  _extract_numeric section (key_snippets ++ more)
  = _extract_numeric section key_snippets.
Proof.
  intros H. apply extract_numeric_ext. intros label.
  assert (A : forall l1 l2 x, any_in (l1 ++ l2) x = any_in l1 x || any_in l2 x).
  { induction l1 as [|k l1 IH]; intros l2 x; cbn [app any_in]; [reflexivity|].
    rewrite IH, orb_assoc. reflexivity. }
  assert (I : forall l key x,
            In key l -> contains key x = true -> any_in l x = true).
  { induction l as [|k l IH]; intros key x Hin Hc; [destruct Hin|].
    cbn [any_in]. destruct Hin as [<-|Hin].
    - rewrite Hc. reflexivity.
    - rewrite (IH _ _ Hin Hc). apply orb_true_r. }
  rewrite A. destruct (any_in more (upper label)) eqn:Em;
    [|apply orb_false_r].
  rewrite orb_true_r. symmetry.
  assert (X : exists extra, In extra more
                            /\ contains extra (upper label) = true).
  { clear - Em. induction more as [|k l IH]; cbn [any_in] in Em;
      [discriminate|].
    apply orb_true_iff in Em. destruct Em as [Em|Em].
    - exists k. split; [left; reflexivity|exact Em].
    - destruct (IH Em) as (x & Hx & Hc). exists x. split; [right|]; auto. }
  destruct X as (extra & Hin & Hc).
  destruct (H _ Hin) as (key & Hk & Hke).
  apply (I _ key); [exact Hk|]. eapply contains_trans; eauto.
Qed.

Lemma longer_snippets_are_redundant_witness :
  _extract_numeric (SDict [("Profit before tax",
                            {| value := Some 50%float; previous := None |});
                           ("Profit for the period",
                            {| value := Some 40%float; previous := None |})])
    (["PROFIT"] ++ ["NET PROFIT"; "PROFIT FOR THE PERIOD"])
  = _extract_numeric (SDict [("Profit before tax",
                              {| value := Some 50%float; previous := None |});
                             ("Profit for the period",
                              {| value := Some 40%float; previous := None |})])
      ["PROFIT"].
Proof.
  apply (longer_snippets_are_redundant _ ["PROFIT"]
           ["NET PROFIT"; "PROFIT FOR THE PERIOD"]).
  intros extra [<-|[<-|[]]]; exists "PROFIT"; split;
    try (left; reflexivity); vm_compute; reflexivity.
Defined.

(** ** The result of [compute_kpis], key by key *)

Lemma get_ratio_same k c q r :
  dict_get k (store_ratio c k q r)
  = if c then match q with
              | Ok x => Some (KNum (Num.round2 x))
              | Raise _ => dict_get k r
              end
    else dict_get k r.
Proof.
  unfold store_ratio. destruct c; [|reflexivity].
  destruct q; [|reflexivity].
  rewrite dict_get_set, String.eqb_refl. reflexivity.
Qed.

Lemma get_raw k v r :
  dict_get k (store_raw k v r)
  = match v with Some x => Some (KNum x) | None => dict_get k r end.
Proof.
  destruct v; [apply get_raw_same|reflexivity].
Qed.

Lemma ratio_metric_plain c a b :
  c = truthy a && truthy b ->
  (if c then match ratio a b with
             | Ok x => Some (KNum (Num.round2 x))
             | Raise _ => None
             end
   else None) = ratio_metric false a b.
Proof.
  intros ->. unfold ratio_metric, ratio, truthy, Num.div, Num.truthy.
  destruct a as [x|], b as [y|]; cbn [andb]; try reflexivity.
  - destruct (PrimFloat.eqb x 0), (PrimFloat.eqb y 0); reflexivity.
  - destruct (negb (PrimFloat.eqb x 0)); reflexivity.
Qed.

Lemma ratio_metric_pct c a b :
  c = truthy a && truthy b ->
  (if c then match pct (ratio a b) with
             | Ok x => Some (KNum (Num.round2 x))
             | Raise _ => None
             end
   else None) = ratio_metric true a b.
Proof.
  intros ->. unfold ratio_metric, pct, ratio, truthy, Num.div, Num.truthy.
  destruct a as [x|], b as [y|]; cbn [andb]; try reflexivity.
  - destruct (PrimFloat.eqb x 0), (PrimFloat.eqb y 0); reflexivity.
  - destruct (negb (PrimFloat.eqb x 0)); reflexivity.
Qed.

(** X12. The result of [compute_kpis], metric by metric. Each of the five
    ratios is present exactly when both of its inputs are numbers other
    than zero, and is then their quotient (in percent where the name says
    so) rounded to two decimals; the free cash flow is present exactly when
    both cash-flow figures are numbers, zero included, and is their
    rounded difference; each raw value is present exactly when it was
    found. *)
Theorem kpi_metrics_by_formula (parsed : ParsedDocument) :
  let bs := match balance_sheet (sections parsed) with
            | Some l => l
            | None => []
            end in
  let cf := match cash_flow (sections parsed) with
            | Some d => d
            | None => []
            end in
  let total_assets := _find_single_value bs ["TOTAL ASSETS"] in
  let total_equity := _find_single_value bs ["TOTAL EQUITY"] in
  let total_liabilities := _find_single_value bs ["TOTAL LIABILITIES"] in
  let rev := revenue (kpi_metrics parsed) in
  let profit := net_profit (kpi_metrics parsed) in
  let operating_cf :=
    _extract_numeric (SDict cf)
      ["NET CASH GENERATED"; "OPERATING"; "CASH GENERATED FROM OPERATIONS"] in
  let capex := _extract_numeric (SDict cf) ["Purchase"; "CAPEX"] in
  let out := compute_kpis parsed in
  dict_get "net_profit_margin_pct" out = ratio_metric true profit rev
  /\ dict_get "debt_to_equity" out
     = ratio_metric false total_liabilities total_equity
  /\ dict_get "equity_to_assets_pct" out
     = ratio_metric true total_equity total_assets
  /\ dict_get "asset_turnover_ratio" out = ratio_metric false rev total_assets
  /\ dict_get "return_on_equity_pct" out
     = ratio_metric true profit total_equity
  /\ dict_get "free_cash_flow" out
     = match operating_cf, capex with
       | Some o, Some c => Some (KNum (Num.round2 (o - c)))
       | _, _ => None
       end
  /\ dict_get "revenue" out = option_map KNum rev
  /\ dict_get "net_profit" out = option_map KNum profit
  /\ dict_get "total_assets" out = option_map KNum total_assets
  /\ dict_get "total_equity" out = option_map KNum total_equity
  /\ dict_get "total_liabilities" out = option_map KNum total_liabilities.
Proof.
  cbv zeta.
  repeat split; read_result;
    rewrite ?get_ratio_same, ?get_raw; peel; cbn [dict_get].
  - rewrite <- (ratio_metric_pct _ _ _ eq_refl).
    rewrite andb_comm. reflexivity.
  - rewrite <- (ratio_metric_plain _ _ _ eq_refl).
    rewrite andb_comm. reflexivity.
  - rewrite <- (ratio_metric_pct _ _ _ eq_refl).
    rewrite andb_comm. reflexivity.
  - rewrite <- (ratio_metric_plain _ _ _ eq_refl).
    rewrite andb_comm. reflexivity.
  - rewrite <- (ratio_metric_pct _ _ _ eq_refl).
    rewrite andb_comm. reflexivity.
  - destruct (_extract_numeric _ _) as [o|]; [|reflexivity].
    destruct (_extract_numeric _ _) as [c|]; reflexivity.
  - destruct (_extract_numeric _ _); reflexivity.
  - destruct (_extract_numeric _ _); reflexivity.
  - destruct (_find_single_value _ _); reflexivity.
  - destruct (_find_single_value _ _); reflexivity.
  - destruct (_find_single_value _ _); reflexivity.
Qed.

(** ** The keys and the summary of the KPI result *)

Lemma get_set_cases {V} k k' (v : V) d :
  dict_get k (dict_set k' v d) <> None -> k = k' \/ dict_get k d <> None.
Proof.
  rewrite dict_get_set. destruct (String.eqb k' k) eqn:E.
  - apply String.eqb_eq in E. auto.
  - auto.
Qed.

Lemma get_ratio_cases k k' c q r :
  dict_get k (store_ratio c k' q r) <> None -> k = k' \/ dict_get k r <> None.
Proof.
  unfold store_ratio. destruct c; [|auto]. destruct q; [|auto].
  apply get_set_cases.
Qed.

Lemma get_raw_cases k k' v r :
  dict_get k (store_raw k' v r) <> None -> k = k' \/ dict_get k r <> None.
Proof.
  unfold store_raw. destruct v; [|auto]. apply get_set_cases.
Qed.

Lemma summary_part_nonempty metrics k before after :
  Forall (fun p : fstring => p <> []) (summary_part metrics k before after).
Proof.
  unfold summary_part. destruct (metric metrics k); constructor;
    [discriminate|constructor].
Qed.

Lemma join_nonempty sep parts :
  parts <> [] -> Forall (fun p : fstring => p <> []) parts ->
  join sep parts <> [].
Proof.
  destruct parts as [|p [|q rest]]; intros Hn Hf; cbn [join].
  - now destruct Hn.
  - inversion Hf; assumption.
  - destruct p; discriminate.
Qed.

(** The summary is never the empty string. *)
Lemma generate_summary_nonempty metrics : _generate_summary metrics <> [].
Proof.
  unfold _generate_summary.
  destruct (negb (nonempty_list metrics)); [discriminate|].
  match goal with
  | |- context [if negb (nonempty_list ?parts) then ?alt else ?parts] =>
      assert (Hp : Forall (fun p : fstring => p <> []) parts)
        by (repeat (apply Forall_app; split);
            apply summary_part_nonempty);
      assert (Ha : Forall (fun p : fstring => p <> []) alt)
        by (destruct (metric metrics "revenue");
            destruct (metric metrics "net_profit");
            repeat constructor; discriminate);
      generalize dependent alt; generalize dependent parts
  end.
  intros parts Hp alt Ha.
  destruct parts as [|p0 rest]; cbn [nonempty_list negb].
  - destruct alt as [|a0 rest]; cbn [nonempty_list]; [discriminate|].
    apply join_nonempty; [discriminate|exact Ha].
  - apply join_nonempty; [discriminate|exact Hp].
Qed.

(** X13. [compute_kpis] always returns a summary that is not empty, and no
    entry beyond the summary, the six derived metrics and the five raw
    values. *)
Theorem kpi_result_has_a_summary (parsed : ParsedDocument) :
  let out := compute_kpis parsed in
  (exists s, dict_get "summary" out = Some (KStr s) /\ s <> [])
  /\ forall k,
       dict_get k out <> None ->
       In k ["summary"; "net_profit_margin_pct"; "debt_to_equity";
             "equity_to_assets_pct"; "asset_turnover_ratio";
             "return_on_equity_pct"; "free_cash_flow"; "revenue";
             "net_profit"; "total_assets"; "total_equity";
             "total_liabilities"].
Proof.
  cbv zeta. split.
  - unfold compute_kpis, finish. rewrite dict_get_set, String.eqb_refl.
    eexists. split; [reflexivity|]. apply generate_summary_nonempty.
  - intros k. unfold compute_kpis, finish.
    rewrite scale_correction_keeps_result. unfold kpi_metrics. cbn [result].
    intros H. cbn [In].
    apply get_set_cases in H. destruct H as [->|H]; [auto|].
    repeat (apply get_raw_cases in H; destruct H as [->|H]; [auto 15|]).
    repeat (apply get_ratio_cases in H; destruct H as [->|H]; [auto 15|]).
    cbn [dict_get] in H. now destruct H.
Qed.

(** ** Matches follow each other in the subject *)

Module ReOrder.
Import Re.

Lemma cursor_in_start l : cursor_in l (start_of l).
Proof. split; simpl; [reflexivity|lia]. Qed.

Lemma cursor_in_leads l c w c' :
  cursor_in l c -> leads c w c' -> cursor_in l c' /\ pos c <= pos c'.
Proof.
  intros [R P] [Rw Pw]. split; [split|lia].
  - rewrite Pw, Nat.add_comm, <- skipn_skipn, <- R, Rw.
    rewrite skipn_app, skipn_all, Nat.sub_diag. reflexivity.
  - assert (H : List.length (rest c) = List.length l - pos c)
      by (rewrite R; apply length_skipn).
    rewrite Rw, length_app in H. lia.
Qed.

Lemma cursor_in_step l c a c' :
  cursor_in l c -> step c = Some (a, c') ->
  cursor_in l c' /\ pos c' = S (pos c).
Proof.
  intros Hc Hs. pose proof (ReFacts.step_leads _ _ _ Hs) as W.
  destruct (cursor_in_leads _ _ _ _ Hc W) as [H _]. split; [exact H|].
  destruct W as [_ P]. rewrite P. simpl. lia.
Qed.

Lemma match_at_bounds fl r l c m :
  cursor_in l c -> match_at fl r c = Some m ->
  m_start m = pos c /\ pos c <= m_end m <= List.length l.
Proof.
  intros Hc H. unfold match_at in H.
  destruct (run fl r _ c []) as [[c' cs]|] eqn:E; [|discriminate].
  injection H as <-. cbn [m_start m_end].
  apply ReFacts.run_sound in E. destruct E as (w & c1 & cs1 & _ & W & E).
  injection E as E1 E2. subst c1.
  destruct (cursor_in_leads _ _ _ _ Hc W) as [[_ H1] H2]. lia.
Qed.

Lemma search_from_bounds fl r l : forall fuel c m,
  cursor_in l c -> search_from fl r fuel c = Some m ->
  pos c <= m_start m /\ m_start m <= m_end m <= List.length l.
Proof.
  induction fuel as [|fuel IH]; intros c m Hc H; simpl in H.
  - destruct (match_at fl r c) eqn:E; [|discriminate]. injection H as <-.
    destruct (match_at_bounds _ _ _ _ _ Hc E). lia.
  - destruct (match_at fl r c) eqn:E.
    + injection H as <-. destruct (match_at_bounds _ _ _ _ _ Hc E). lia.
    + destruct (step c) as [[a c']|] eqn:S; [|discriminate].
      destruct (cursor_in_step _ _ _ _ Hc S) as [Hc' P].
      destruct (IH _ _ Hc' H). lia.
Qed.

Lemma forward_in l : forall n c,
  cursor_in l c -> pos c + n <= List.length l ->
  cursor_in l (forward n c) /\ pos (forward n c) = pos c + n.
Proof.
  induction n as [|n IH]; intros c Hc Hn; cbn [forward].
  - split; [exact Hc|lia].
  - destruct (step c) as [[a c']|] eqn:S.
    + destruct (cursor_in_step _ _ _ _ Hc S) as [Hc' P].
      destruct (IH c' Hc') as [H1 H2]; [lia|]. split; [exact H1|lia].
    + exfalso. unfold step in S. destruct Hc as [R P].
      assert (H : List.length (rest c) = List.length l - pos c)
        by (rewrite R; apply length_skipn).
      destruct (rest c); [|discriminate]. simpl in H. lia.
Qed.

(** The matches of [finditer] follow each other without overlap. *)
Lemma matches_from_in_order fl r l : forall fuel c,
  cursor_in l c ->
  in_order (List.length l) (pos c) (matches_from fl r fuel c).
Proof.
  induction fuel as [|fuel IH]; intros c Hc; cbn [matches_from];
    [exact I|].
  destruct (search_from fl r (List.length (rest c)) c) as [m|] eqn:E;
    [|exact I].
  destruct (search_from_bounds _ _ _ _ _ _ Hc E) as (B1 & B2 & B3).
  destruct (forward_in l (m_end m - pos c) c Hc) as [Hf Pf]; [lia|].
  replace (pos c + (m_end m - pos c)) with (m_end m) in Pf by lia.
  destruct (m_end m =? m_start m)%nat.
  - destruct (step (forward (m_end m - pos c) c)) as [[a c'']|] eqn:S.
    + cbn [in_order]. repeat split; try lia.
      destruct (cursor_in_step _ _ _ _ Hf S) as [Hc'' P''].
      specialize (IH c'' Hc''). rewrite P'', Pf in IH.
      clear - IH. revert IH.
      generalize (matches_from fl r fuel c''). intros ms.
      destruct ms as [|m' ms]; cbn [in_order]; [auto|].
      intros (H1 & H2 & H3 & H4). repeat split; try lia. exact H4.
    + cbn [in_order]. repeat split; lia.
  - cbn [in_order]. repeat split; try lia.
    specialize (IH _ Hf). rewrite Pf in IH. exact IH.
Qed.

Lemma finditer_in_order fl pattern s :
  in_order (len s) 0 (finditer fl pattern s).
Proof.
  unfold finditer. rewrite len_chars.
  apply (matches_from_in_order fl _ (chars s) _ (start_of (chars s))).
  apply cursor_in_start.
Qed.

Lemma len_slice i j s : i <= j -> j <= len s -> len (slice i j s) = j - i.
Proof.
  intros Hi Hj. unfold slice. rewrite len_str, length_firstn, length_skipn.
  rewrite len_chars in Hj. lia.
Qed.

(** The pieces between the matches are no longer than what they are
    pieces of. *)
Lemma pieces_total_len s : forall ms from,
  from <= len s -> in_order (len s) from ms ->
  total_len (pieces s from ms) <= len s - from.
Proof.
  induction ms as [|m ms IH]; intros from Hf Ho; cbn [pieces total_len fold_right].
  - rewrite len_slice by lia. lia.
  - destruct Ho as (H1 & H2 & H3 & H4).
    specialize (IH (m_end m) H3 H4). unfold total_len in IH.
    rewrite len_slice by lia. lia.
Qed.

Lemma len_append a b : len (a ++ b) = len a + len b.
Proof.
  unfold len. induction a as [|x a IH]; simpl; [reflexivity|].
  rewrite IH. reflexivity.
Qed.

Lemma len_concat_empty l : len (String.concat "" l) = total_len l.
Proof.
  induction l as [|x l IH]; [reflexivity|].
  destruct l as [|y l].
  - cbn [String.concat total_len fold_right]. lia.
  - change (String.concat "" (x :: y :: l))
      with (x ++ "" ++ String.concat "" (y :: l))%string.
    rewrite !len_append, IH. cbn [total_len fold_right].
    change (len "") with 0. lia.
Qed.

(** Removing the matches of a pattern does not lengthen a string. *)
Lemma len_sub_empty pattern s : len (sub pattern "" s) <= len s.
Proof.
  unfold sub, split. rewrite len_concat_empty.
  pose proof (pieces_total_len s (finditer no_flags pattern s) 0
                (Nat.le_0_l _) (finditer_in_order _ _ _)). lia.
Qed.

Lemma times_any_length fl n w :
  times (lang fl AnyChar) n w -> List.length w = n.
Proof.
  induction 1 as [|n w1 w2 H1 _ IH]; [reflexivity|].
  cbn [lang] in H1. destruct H1 as (a & -> & _). simpl. rewrite IH.
  reflexivity.
Qed.

End ReOrder.

(** ** Item names *)

Lemma cut_pattern_compiled :
  Re.compile "(.{80,120}?)[:;\.\-\,\n]"
  = Re.Cat (Re.Group 1 (Re.Rep Re.AnyChar 80 (Some 120) false))
      (Re.CharSet false
         [Re.CChar ":"; Re.CChar ";"; Re.CChar "."; Re.CChar "-";
          Re.CChar ","; Re.CChar "010"]).
Proof. vm_compute. reflexivity. Qed.

(** The cut of a long name captures 80 to 120 characters. *)
Lemma cut_group_length name cut :
  Re.search Re.no_flags "(.{80,120}?)[:;\.\-\,\n]" name = Some cut ->
  exists g, Re.group cut 1 = Some g /\ 80 <= len g <= 120.
Proof.
  unfold Re.search. intros H.
  apply ReFacts.search_from_inv in H. destruct H as (c0 & H).
  rewrite cut_pattern_compiled in H. unfold Re.match_at in H.
  match type of H with
  | match ?x with _ => _ end = _ => destruct x as [[c' cs]|] eqn:E
  end; [|discriminate].
  injection H as <-.
  rewrite ReFacts.run_cat, ReFacts.run_group in E.
  apply ReFacts.run_sound in E. destruct E as (w & c1 & cs1 & L & W & E).
  rewrite (ReFacts.firstn_leads _ _ _ W) in E.
  apply ReGroups.run_adds in E. destruct E as (c2 & added & E & A).
  injection E as _ <-. cbn [groups_of] in A.
  assert (added = []) as ->.
  { destruct added as [|e added]; [reflexivity|].
    inversion A as [|? ? He _]; subst. destruct He. }
  exists (str w). split; [reflexivity|].
  cbn [Re.lang] in L. destruct L as (n & Hlo & Hhi & T).
  cbn [Re.within] in Hhi. apply ReOrder.times_any_length in T.
  rewrite len_str. lia.
Qed.

Lemma len_take n s : len (take n s) <= n.
Proof. unfold take. rewrite len_str, length_firstn. lia. Qed.

Lemma drop_through_space_length l r :
  drop_through_space l = Some r -> List.length r <= List.length l.
Proof.
  revert r. induction l as [|a l IH]; intros r H; simpl in H; [discriminate|].
  destruct (Ascii.eqb a " ").
  - injection H as <-. simpl. lia.
  - specialize (IH _ H). simpl. lia.
Qed.

Lemma len_rsplit1_head s : len (rsplit1_head s) <= len s.
Proof.
  unfold rsplit1_head.
  destruct (drop_through_space (rev (chars s))) as [r|] eqn:E; [|lia].
  apply drop_through_space_length in E.
  rewrite len_str, length_rev, len_chars. rewrite length_rev in E. exact E.
Qed.

(** A normalized item name has at most 120 characters. *)
Lemma normalized_name_length name : len (_normalize_item_name name) <= 120.
Proof.
  unfold _normalize_item_name.
  set (name2 := strip_chars ":;,." (strip (Re.sub "\s+" " " name))).
  match goal with
  | |- len (Re.sub _ _ (Re.sub _ _ ?x)) <= _ =>
      assert (H : len x <= 120)
  end.
  { destruct (120 <? len name2)%nat eqn:E.
    - destruct (Re.search Re.no_flags "(.{80,120}?)[:;\.\-\,\n]" name2)
        as [cut|] eqn:Ec.
      + destruct (cut_group_length _ _ Ec) as (g & -> & Hg).
        pose proof (strip_by_length is_space g). unfold strip. lia.
      + pose proof (len_rsplit1_head (take 120 name2)).
        pose proof (len_take 120 name2). lia.
    - apply Nat.ltb_ge in E. exact E. }
  match goal with
  | |- len (Re.sub ?p2 _ (Re.sub ?p1 _ ?x)) <= _ =>
      pose proof (ReOrder.len_sub_empty p1 x);
      pose proof (ReOrder.len_sub_empty p2 (Re.sub p1 "" x))
  end.
  lia.
Qed.

(** ** The rows of the table-like extraction *)

Section Rows.

Context {pre : Preprocessing}.

Lemma table_row_invariant factor line it :
  table_row factor line = Some it ->
  confidence it = (if is_some (current_period it) then "high" else "low")
  /\ (exists p, previous_period it = Some p)
  /\ len (item it) <= 120
  /\ startswith (lower (item it)) "note" = false
  /\ startswith (lower (item it)) "annexure" = false
  /\ (abs_lt (current_period it) 100 = true -> 3 <= split_len (item it)).
Proof.
  unfold table_row.
  destruct (is_some (Re.search Re.ignorecase noise_pattern line));
    [discriminate|].
  destruct (negb (nonempty_list _)); [discriminate|].
  destruct (values_and_name line _) as [vals name].
  generalize (split_glued vals). intros vals'.
  destruct (startswith _ "note") eqn:E1; [discriminate|].
  destruct (startswith _ "annexure") eqn:E2; [discriminate|].
  cbn [orb].
  match goal with
  | |- (if ?b then _ else _) = _ -> _ => destruct b eqn:E3; [discriminate|]
  end.
  intros H. injection H as <-.
  cbn [confidence current_period previous_period item].
  split; [reflexivity|]. split; [eauto|].
  split; [apply normalized_name_length|]. split; [exact E1|].
  split; [exact E2|].
  intros Ha. rewrite Ha in E3.
  match type of E3 with
  | is_some ?c && true && _ = false => destruct c as [x|]; [|discriminate]
  end.
  cbn [is_some andb] in E3. apply Nat.ltb_ge in E3. exact E3.
Qed.

(** X14. Every row of the table-like extraction: its confidence is "high"
    exactly when it has a current value; it has a ["previous_period"]; its
    name has at most 120 characters and starts with neither "note" nor
    "annexure" (in any case); and a current value below 100 in absolute
    value comes with a name of at least three words. *)
Theorem table_rows_are_filtered (section_text : string) (factor : float) :
  Forall (fun it =>
            confidence it
            = (if is_some (current_period it) then "high" else "low")
            /\ (exists p, previous_period it = Some p)
            /\ len (item it) <= 120
            /\ startswith (lower (item it)) "note" = false
            /\ startswith (lower (item it)) "annexure" = false
            /\ (abs_lt (current_period it) 100 = true ->
                3 <= split_len (item it)))
         (_extract_table_like_section section_text factor).
Proof.
  unfold _extract_table_like_section.
  destruct (negb (nonempty section_text)); [constructor|].
  apply Forall_forall. intros it Hin.
  apply in_flat_map in Hin. destruct Hin as (line & _ & Hin).
  destruct (table_row factor line) as [it'|] eqn:E; [|destruct Hin].
  destruct Hin as [<-|[]]. eapply table_row_invariant. exact E.
Qed.

Lemma table_like_names section_text factor :
  Forall (fun it => len (item it) <= 120)
         (_extract_table_like_section section_text factor).
Proof.
  unfold _extract_table_like_section.
  destruct (negb (nonempty section_text)); [constructor|].
  apply Forall_forall. intros it Hin.
  apply in_flat_map in Hin. destruct Hin as (line & _ & Hin).
  destruct (table_row factor line) as [it'|] eqn:E; [|destruct Hin].
  destruct Hin as [<-|[]]. apply table_row_invariant in E. tauto.
Qed.

Lemma simple_kv_keys section_text factor :
  Forall (fun kv => len (fst kv) <= 120)
         (_extract_simple_kv section_text factor).
Proof.
  unfold _extract_simple_kv.
  destruct (negb (nonempty section_text)); [constructor|].
  generalize (Re.split "[\n\r]+" section_text). intros lines.
  assert (H : forall (acc : kvdict),
            Forall (fun kv => len (fst kv) <= 120) acc ->
            Forall (fun kv => len (fst kv) <= 120)
              (fold_left
                 (fun out raw => match kv_row factor raw with
                                 | Some (key, entry) => dict_set key entry out
                                 | None => out
                                 end) lines acc)).
  { induction lines as [|raw lines IH]; intros acc Ha; simpl; [exact Ha|].
    apply IH. destruct (kv_row factor raw) as [[key entry]|] eqn:E;
      [|exact Ha].
    apply Forall_forall. intros [k e] Hin. cbn [fst].
    apply in_dict_set_key in Hin. destruct Hin as [[-> _] | Hin].
    - unfold kv_row in E.
      destruct (negb (nonempty (strip raw))); [discriminate|].
      destruct (Re.search Re.no_flags kv_pattern (strip raw)) as [m|];
        [|discriminate].
      injection E as <- _. apply normalized_name_length.
    - rewrite Forall_forall in Ha. apply (Ha _ Hin). }
  apply H. constructor.
Qed.

Lemma fallback_names_are_short raw_text :
  Forall (fun it => len (item it) <= 120)
         (fb_balance_sheet (_extract_from_text raw_text))
  /\ Forall (fun kv : string * KVEntry => len (fst kv) <= 120)
            (fb_pnl (_extract_from_text raw_text)).
Proof.
  destruct (fallback_shape raw_text) as (a & e & l & r & p & ->).
  cbn [fb_balance_sheet fb_pnl]. split.
  - destruct a, e, l; cbn [total_row app];
      repeat constructor; cbn [item]; vm_compute; lia.
  - destruct r, p; cbn [fallback_entry app];
      repeat constructor; cbn [fst]; vm_compute; lia.
Qed.

Lemma pnl_fallback_names_are_short text factor :
  Forall (fun kv : string * KVEntry => len (fst kv) <= 120)
         (_extract_pnl_from_text text factor).
Proof.
  destruct (pnl_fallback_shape text factor) as (r & p & b & ->).
  destruct r, p, b; cbn [fallback_entry app];
    repeat constructor; cbn [fst]; vm_compute; lia.
Qed.

(** X15. Every item name of the balance sheet and every key of the pnl,
    cash-flow and changes-in-equity sections of a parse has at most 120
    characters: the names read in the text are cut by
    [_normalize_item_name], the names written by the fallbacks are fixed
    labels. *)
Theorem parsed_names_are_short
    (cleaned_text : string) (tbls : list table) (parsed : ParsedDocument) :
  parse_financial_document cleaned_text tbls = Ok parsed ->
  (forall bs, balance_sheet (sections parsed) = Some bs ->
              Forall (fun it => len (item it) <= 120) bs)
  /\ (forall d, pnl (sections parsed) = Some d
                \/ cash_flow (sections parsed) = Some d
                \/ changes_in_equity (sections parsed) = Some d ->
                Forall (fun kv => len (fst kv) <= 120) d).
Proof.
  intros H. apply parse_cases in H. destruct H as (_ & _ & H).
  destruct (statements_detected (_split_into_sections cleaned_text));
    [destruct H as (-> & _)
    |rewrite H; split; [intros bs H'|intros d [H'|[H'|H']]]; discriminate].
  unfold sections_by_source. cbv zeta.
  cbn [balance_sheet pnl cash_flow changes_in_equity].
  destruct (fallback_names_are_short cleaned_text) as [F1 F2].
  split.
  - intros bs H. injection H as <-.
    destruct (nonempty_list _); [|exact F1].
    apply table_like_names.
  - intros d [H|[H|H]]; injection H as <-; try apply simple_kv_keys.
    destruct (nonempty_list _); [apply simple_kv_keys|].
    destruct (nonempty_list _); [apply pnl_fallback_names_are_short|].
    destruct (nonempty_list _); [constructor|exact F2].
Qed.

End Rows.

Lemma parsed_names_are_short_witness :
  (forall bs, balance_sheet (sections two_statements_document) = Some bs ->
              Forall (fun it => len (item it) <= 120) bs)
  /\ (forall d, pnl (sections two_statements_document) = Some d
                \/ cash_flow (sections two_statements_document) = Some d
                \/ changes_in_equity (sections two_statements_document)
                   = Some d ->
                Forall (fun kv => len (fst kv) <= 120) d).
Proof.
  apply (@parsed_names_are_short SpecPreprocessing.instance
           two_statements_text [] two_statements_document).
  vm_compute. reflexivity.
Defined.

(** ** A set repeated: what [re.split] and [re.sub] do with it *)

Module ReSet.
Import Re.


Lemma forward_step n c a c' :
  step c = Some (a, c') -> forward (S n) c = forward n c'.
Proof. intros H. cbn [forward]. rewrite H. reflexivity. Qed.

Lemma step_cons c a t :
  rest c = a :: t ->
  step c = Some (a, {| before := Some a; rest := t; pos := S (pos c) |}).
Proof. intros H. unfold step. rewrite H. reflexivity. Qed.

Lemma step_nil c : rest c = [] -> step c = None.
Proof. intros H. unfold step. rewrite H. reflexivity. Qed.

(** A greedy repetition of a one-character test takes the longest run. *)
Lemma iterate_run ok lo : forall fuel count c cs,
  List.length (rest c) <= fuel ->
  iterate (one ok) lo None true accept fuel count c cs
  = if (lo <=? count + run_length ok (rest c))%nat
    then Some (forward (run_length ok (rest c)) c, cs)
    else None.
Proof.
  induction fuel as [|fuel IH]; intros count c cs Hf.
  - destruct (rest c) eqn:E; [|simpl in Hf; lia].
    cbn [iterate run_length forward]. rewrite Nat.add_0_r. reflexivity.
  - cbn [iterate below]. unfold one at 1.
    destruct (rest c) as [|a t] eqn:E.
    + rewrite (step_nil _ E). cbn [or_else run_length forward].
      rewrite Nat.add_0_r. reflexivity.
    + rewrite (step_cons _ _ _ E). cbn [run_length].
      destruct (ok a) eqn:Ea.
      * cbn [pos]. rewrite (proj2 (Nat.ltb_lt _ _) (Nat.lt_succ_diag_r _)).
        rewrite IH by (cbn [rest]; simpl in Hf; lia).
        cbn [rest]. rewrite (forward_step _ _ _ _ (step_cons _ _ _ E)).
        replace (S count + run_length ok t) with (count + S (run_length ok t))
          by lia.
        destruct (lo <=? count + S (run_length ok t))%nat eqn:El;
          [reflexivity|].
        cbn [or_else]. apply Nat.leb_gt in El.
        rewrite (proj2 (Nat.leb_gt _ _)) by lia. reflexivity.
      * cbn [or_else forward]. rewrite Nat.add_0_r. reflexivity.
Qed.

Lemma forward_pos : forall n c,
  n <= List.length (rest c) ->
  pos (forward n c) = pos c + n /\ rest (forward n c) = skipn n (rest c).
Proof.
  induction n as [|n IH]; intros c Hn; cbn [forward].
  - split; [lia|reflexivity].
  - destruct (rest c) as [|a t] eqn:E; [simpl in Hn; lia|].
    rewrite (step_cons _ _ _ E).
    destruct (IH {| before := Some a; rest := t; pos := S (pos c) |}) as [P R].
    { cbn [rest]. simpl in Hn. lia. }
    cbn [pos rest] in *. split; [lia|exact R].
Qed.

Lemma run_length_le ok l : run_length ok l <= List.length l.
Proof.
  induction l as [|a t IH]; simpl; [lia|]. destruct (ok a); simpl; lia.
Qed.

Section SetPlus.

Variables (fl : flags) (negated : bool) (items : list citem).

Let ok := set_has fl negated items.
Let r := set_plus negated items.

Lemma match_at_set_plus c :
  match_at fl r c
  = if (1 <=? run_length ok (rest c))%nat
    then Some {| m_start := pos c;
                 m_end := pos c + run_length ok (rest c);
                 m_caps := [] |}
    else None.
Proof.
  unfold match_at, r, set_plus.
  change (run fl (Rep (CharSet negated items) 1 None true)
            (fun c' cs' => Some (c', cs')) c [])
    with (iterate (one ok) 1 None true accept (List.length (rest c)) 0 c []).
  rewrite (iterate_run ok 1 _ 0 c [] (Nat.le_refl _)). cbn [Nat.add].
  destruct (1 <=? run_length ok (rest c))%nat; [|reflexivity].
  destruct (forward_pos _ c (run_length_le ok (rest c))) as [-> _].
  reflexivity.
Qed.

(** The leftmost match: the first run of characters of the set. *)
Lemma search_from_set_plus : forall fuel c,
  List.length (rest c) <= fuel ->
  search_from fl r fuel c
  = let k := run_length (fun a => negb (ok a)) (rest c) in
    let n := run_length ok (skipn k (rest c)) in
    if (1 <=? n)%nat
    then Some {| m_start := pos c + k; m_end := pos c + k + n; m_caps := [] |}
    else None.
Proof.
  induction fuel as [|fuel IH]; intros c Hf; cbv zeta.
  - destruct (rest c) eqn:E; [|simpl in Hf; lia].
    cbn [search_from]. rewrite match_at_set_plus, E. reflexivity.
  - cbn [search_from]. rewrite match_at_set_plus.
    destruct (rest c) as [|a t] eqn:E;
      [rewrite (step_nil _ E); reflexivity|].
    rewrite (step_cons _ _ _ E). cbn [run_length].
    destruct (ok a) eqn:Ea; cbn [negb skipn run_length].
    + rewrite Ea. change (1 <=? S ?x)%nat with true. cbv iota.
      rewrite Nat.add_0_r. reflexivity.
    + change (1 <=? 0)%nat with false. cbv iota.
      rewrite IH by (cbn [rest]; simpl in Hf; lia).
      cbv zeta. cbn [rest pos].
      match goal with
      | |- (if ?b then _ else _) = _ => destruct b; [|reflexivity]
      end.
      f_equal. f_equal; lia.
Qed.

(** *** The fields *)

Lemma fields_after_sep l :
  match l with a :: _ => ok a = false | [] => True end ->
  fields ok true l = fields ok false l.
Proof.
  destruct l as [|a t]; [reflexivity|]. intros H. cbn [fields]. rewrite H.
  reflexivity.
Qed.

Lemma fields_in_run : forall l,
  fields ok true l = fields ok true (skipn (run_length ok l) l).
Proof.
  induction l as [|a t IH]; [reflexivity|]. cbn [run_length].
  destruct (ok a) eqn:E; [|reflexivity].
  cbn [skipn fields]. rewrite E. exact IH.
Qed.

Lemma after_run_head l :
  match skipn (run_length ok l) l with
  | a :: _ => ok a = false
  | [] => True
  end.
Proof.
  induction l as [|a t IH]; [exact I|]. cbn [run_length].
  destruct (ok a) eqn:E; [exact IH|exact E].
Qed.

Lemma after_skip_head l :
  match skipn (run_length (fun a => negb (ok a)) l) l with
  | a :: _ => ok a = true
  | [] => True
  end.
Proof.
  induction l as [|a t IH]; [exact I|]. cbn [run_length].
  destruct (ok a) eqn:E; cbn [negb]; [exact E|exact IH].
Qed.

(** Without a separator there is one field. *)
Lemma fields_no_sep : forall l,
  skipn (run_length (fun a => negb (ok a)) l) l = [] ->
  fields ok false l = [l].
Proof.
  induction l as [|a t IH]; [reflexivity|]. cbn [run_length fields].
  destruct (ok a); cbn [negb skipn]; [discriminate|].
  intros H. rewrite (IH H). reflexivity.
Qed.

(** The first field ends where the first run of separators starts, and
    the other fields are those of what follows that run. *)
Lemma fields_first : forall l,
  let k := run_length (fun a => negb (ok a)) l in
  let n := run_length ok (skipn k l) in
  1 <= n ->
  fields ok false l = firstn k l :: fields ok false (skipn (k + n) l).
Proof.
  induction l as [|a t IH]; cbv zeta.
  - simpl. lia.
  - cbn [run_length]. destruct (ok a) eqn:E; cbn [negb].
    + cbn [skipn firstn run_length Nat.add fields]. rewrite E. intros _.
      f_equal. rewrite fields_in_run. apply fields_after_sep, after_run_head.
    + cbn [skipn firstn Nat.add fields]. rewrite E. intros Hn.
      cbv zeta in IH. rewrite (IH Hn). reflexivity.
Qed.

Lemma slice_at l c j :
  cursor_in l c -> pos c <= j ->
  slice (pos c) j (str l) = str (firstn (j - pos c) (rest c)).
Proof.
  intros [R _] _. unfold slice. rewrite chars_str, R. reflexivity.
Qed.

(** The pieces between the matches are the fields between the runs. *)
Lemma pieces_are_fields l : forall fuel c,
  cursor_in l c -> List.length (rest c) < fuel ->
  pieces (str l) (pos c) (matches_from fl r fuel c)
  = map str (fields ok false (rest c)).
Proof.
  induction fuel as [|fuel IH]; intros c Hc Hf; [lia|].
  cbn [matches_from].
  rewrite (search_from_set_plus _ c (Nat.le_refl _)). cbv zeta.
  set (k := run_length (fun a => negb (ok a)) (rest c)).
  set (n := run_length ok (skipn k (rest c))).
  assert (Hk : k <= List.length (rest c)) by apply run_length_le.
  assert (Hn : n <= List.length (skipn k (rest c))) by apply run_length_le.
  rewrite length_skipn in Hn.
  assert (Hl : List.length (rest c) = List.length l - pos c).
  { destruct Hc as [R _]. rewrite R. apply length_skipn. }
  destruct (1 <=? n)%nat eqn:En.
  - apply Nat.leb_le in En. cbn [m_start m_end].
    replace (pos c + k + n =? pos c + k)%nat with false
      by (symmetry; apply Nat.eqb_neq; lia).
    cbn [pieces m_start m_end].
    rewrite (fields_first (rest c) En). fold k. fold n. cbn [map].
    rewrite (slice_at l c _ Hc) by lia.
    replace (pos c + k - pos c) with k by lia. f_equal.
    replace (pos c + k + n - pos c) with (k + n) by lia.
    destruct (forward_pos (k + n) c) as [P R]; [lia|].
    destruct (ReOrder.forward_in l (k + n) c Hc) as [Hc' _];
      [destruct Hc; lia|].
    specialize (IH (forward (k + n) c) Hc').
    rewrite P, R in IH. replace (pos c + k + n) with (pos c + (k + n)) by lia.
    apply IH. rewrite length_skipn. lia.
  - apply Nat.leb_gt in En. cbn [pieces].
    rewrite (slice_at l c _ Hc) by (rewrite len_str; destruct Hc; lia).
    rewrite len_str, <- Hl, firstn_all.
    rewrite fields_no_sep; [reflexivity|].
    pose proof (after_skip_head (rest c)) as Hh. fold k in Hh.
    destruct (skipn k (rest c)) as [|a t] eqn:E; [exact E|].
    subst n. cbn [run_length] in En. rewrite Hh in En. lia.
Qed.

End SetPlus.

(** [re.split] on a set repeated once or more gives the fields between
    the maximal runs of characters of the set. *)
Theorem split_set_plus pattern negated items s :
  compile pattern = set_plus negated items ->
  split pattern s
  = map str (fields (set_has no_flags negated items) false (chars s)).
Proof.
  intros Hp. unfold split, finditer. rewrite Hp.
  pose proof (pieces_are_fields no_flags negated items (chars s)
                (S (List.length (chars s))) (start_of (chars s))
                (ReOrder.cursor_in_start _) (Nat.lt_succ_diag_r _)) as H.
  rewrite str_chars in H. exact H.
Qed.

(** *** Facts about fields *)

Lemma fields_nonempty sep b l : fields sep b l <> [].
Proof.
  revert b. induction l as [|a t IH]; intros b; cbn [fields]; [discriminate|].
  destruct (sep a); [destruct b; [apply IH|discriminate]|].
  destruct (fields sep false t); discriminate.
Qed.

(** No field holds a separator. *)
Lemma fields_without_sep sep : forall l b,
  Forall (fun f => forallb (fun a => negb (sep a)) f = true) (fields sep b l).
Proof.
  induction l as [|a t IH]; intros b; cbn [fields].
  - repeat constructor.
  - destruct (sep a) eqn:E.
    + destruct b; [apply IH|]. constructor; [reflexivity|apply IH].
    + specialize (IH false). destruct (fields sep false t) as [|p ps].
      * repeat constructor. cbn [forallb]. rewrite E. reflexivity.
      * inversion IH as [|? ? Hp Hps]; subst. constructor; [|exact Hps].
        cbn [forallb]. rewrite E, Hp. reflexivity.
Qed.

(** The first field is the start of the subject up to its first
    separator. *)
Lemma fields_head sep : forall l,
  exists ps,
    fields sep false l
    = firstn (run_length (fun a => negb (sep a)) l) l :: ps.
Proof.
  induction l as [|a t (ps & IH)]; cbn [fields run_length].
  - exists []. reflexivity.
  - destruct (sep a); cbn [negb firstn]; [eauto|].
    rewrite IH. eauto.
Qed.

(** Every field is a piece of the subject. *)
Lemma fields_infix sep : forall l b f,
  In f (fields sep b l) -> exists x y, l = x ++ f ++ y.
Proof.
  induction l as [|a t IH]; intros b f; cbn [fields].
  - intros [<-|[]]. exists [], []. reflexivity.
  - destruct (sep a) eqn:E.
    + assert (H : In f (fields sep true t) -> exists x y, a :: t = x ++ f ++ y).
      { intros Hin. destruct (IH _ _ Hin) as (x & y & ->).
        exists (a :: x), y. reflexivity. }
      destruct b; [exact H|]. intros [<-|Hin]; [|auto].
      exists [], (a :: t). reflexivity.
    + specialize (IH false). destruct (fields_head sep t) as (ps & Hh).
      rewrite Hh in *. intros [<-|Hin].
      * exists [], (skipn (run_length (fun a => negb (sep a)) t) t).
        cbn [app]. rewrite firstn_skipn. reflexivity.
      * destruct (IH f (or_intror Hin)) as (x & y & ->).
        exists (a :: x), y. reflexivity.
Qed.

End ReSet.

(** ** Paths *)

Module OsPathFacts.
Import OsPath.

Lemma chars_append a b : chars (a ++ b)%string = chars a ++ chars b.
Proof.
  unfold chars. induction a as [|x a IH]; simpl; [reflexivity|].
  rewrite IH. reflexivity.
Qed.

Lemma rfind_from_absent c : forall l i found,
  forallb (fun a => negb (Ascii.eqb a c)) l = true ->
  rfind_from c l i found = found.
Proof.
  induction l as [|a t IH]; intros i found H; cbn [rfind_from]; [reflexivity|].
  cbn [forallb] in H. apply andb_true_iff in H. destruct H as [Ha Ht].
  apply negb_true_iff in Ha. rewrite Ha. apply IH. exact Ht.
Qed.

Lemma rfind_from_app c : forall x l i found,
  rfind_from c (x ++ l) i found
  = rfind_from c l (i + Z.of_nat (List.length x)) (rfind_from c x i found).
Proof.
  induction x as [|a x IH]; intros l i found.
  - cbn [app rfind_from List.length]. rewrite Z.add_0_r. reflexivity.
  - cbn [app rfind_from]. rewrite IH. f_equal. cbn [List.length]. lia.
Qed.

(** The last occurrence of [c] in [x ++ c :: y] when [y] has none. *)
Lemma rfind_last c x y :
  forallb (fun a => negb (Ascii.eqb a c)) y = true ->
  rfind_from c (x ++ c :: y) 0 (-1) = Z.of_nat (List.length x).
Proof.
  intros Hy. rewrite rfind_from_app. cbn [rfind_from].
  rewrite Ascii.eqb_refl. rewrite rfind_from_absent by exact Hy. lia.
Qed.

Lemma plain_no_slash l :
  forallb plain l = true -> forallb (fun a => negb (Ascii.eqb a "/")) l = true.
Proof.
  rewrite !forallb_forall. intros H a Ha. specialize (H a Ha).
  unfold plain in H. apply andb_true_iff in H. tauto.
Qed.

Lemma plain_no_dot l :
  forallb plain l = true -> forallb (fun a => negb (Ascii.eqb a ".")) l = true.
Proof.
  rewrite !forallb_forall. intros H a Ha. specialize (H a Ha).
  unfold plain in H. apply andb_true_iff in H. tauto.
Qed.

(** A name without slash or dot is its own base name and has no
    extension. *)
Lemma plain_name name :
  forallb plain (chars name) = true ->
  basename name = name /\ splitext name = (name, "").
Proof.
  intros H. unfold basename, splitext, rfind.
  rewrite (rfind_from_absent "/" _ _ _ (plain_no_slash _ H)).
  rewrite (rfind_from_absent "." _ _ _ (plain_no_dot _ H)).
  cbn [Z.add Z.to_nat skipn Z.ltb Z.compare andb Z.opp Pos.compare].
  split; [apply str_chars|reflexivity].
Qed.

(** The base name of a path that ends in a plain name with a plain
    extension, and its split. *)
Lemma plain_name_with_extension prefix name ext :
  prefix = "" \/ (exists dir, prefix = (dir ++ "/")%string) ->
  name <> "" ->
  forallb plain (chars name) = true ->
  forallb plain (chars ext) = true ->
  fst (splitext (basename (prefix ++ name ++ "." ++ ext))) = name.
Proof.
  intros Hp Hn Hname Hext.
  assert (Hb : basename (prefix ++ name ++ "." ++ ext) = (name ++ "." ++ ext)%string).
  { assert (Hrest : forallb (fun a => negb (Ascii.eqb a "/"))
                      (chars (name ++ "." ++ ext)) = true).
    { rewrite !chars_append, !forallb_app.
      rewrite (plain_no_slash _ Hname), (plain_no_slash _ Hext). reflexivity. }
    unfold basename, rfind. destruct Hp as [-> | [dir ->]].
    - change ("" ++ name ++ "." ++ ext)%string with (name ++ "." ++ ext)%string.
      rewrite (rfind_from_absent "/" _ _ _ Hrest).
      cbn [Z.add Z.to_nat skipn]. apply str_chars.
    - rewrite chars_append. rewrite (chars_append dir "/").
      rewrite <- app_assoc. cbn [chars list_ascii_of_string app].
      rewrite (rfind_last "/" (chars dir) _ Hrest).
      replace (Z.to_nat (Z.of_nat (List.length (chars dir)) + 1))
        with (1 + List.length (chars dir)) by lia.
      rewrite <- skipn_skipn, skipn_app, skipn_all, Nat.sub_diag.
      cbn [skipn app]. apply str_chars. }
  rewrite Hb. unfold splitext, rfind.
  assert (Hc : chars (name ++ "." ++ ext) = chars name ++ "."%char :: chars ext).
  { rewrite !chars_append. reflexivity. }
  rewrite Hc.
  rewrite (rfind_from_absent "/").
  2:{ rewrite forallb_app. cbn [forallb].
      rewrite (plain_no_slash _ Hname), (plain_no_slash _ Hext). reflexivity. }
  rewrite (rfind_last "." (chars name) _ (plain_no_dot _ Hext)).
  assert (Hlt : (-1 <? Z.of_nat (List.length (chars name)))%Z = true)
    by (apply Z.ltb_lt; lia).
  rewrite Hlt. cbn [andb].
  change (-1 + 1)%Z with 0%Z. change (Z.to_nat 0) with 0. cbn [skipn].
  rewrite Z.sub_0_r.
  rewrite Nat2Z.id, !firstn_app, firstn_all, Nat.sub_diag.
  cbn [firstn]. rewrite app_nil_r.
  assert (Hh : has_name (chars name) = true).
  { destruct name as [|a t]; [now destruct Hn|].
    cbn [chars list_ascii_of_string has_name forallb] in *.
    apply andb_true_iff in Hname. destruct Hname as [Ha _].
    unfold plain in Ha. apply andb_true_iff in Ha. destruct Ha as [_ Ha].
    rewrite Ha. reflexivity. }
  rewrite Hh. cbn [fst]. apply str_chars.
Qed.

End OsPathFacts.

(** ** The company name of a file *)

Lemma upper_nonempty s : s <> "" -> upper s <> "".
Proof. destruct s; [intros H; now destruct H|discriminate]. Qed.

Lemma first_company_token_some tokens name :
  first_company_token tokens = Some name ->
  name <> "" /\ has_lower name = false.
Proof.
  induction tokens as [|token rest IH]; cbn [first_company_token];
    [discriminate|].
  cbv zeta. destruct (nonempty (strip token)) eqn:E; cbn [negb]; [|exact IH].
  destruct (is_some _); [exact IH|].
  intros H. injection H as <-. split; [|apply upper_has_no_lower].
  apply upper_nonempty. intros Hs. rewrite Hs in E. discriminate.
Qed.

(** X16. The company name of a file is never empty, and for an ASCII file
    name it has no lower-case letter: it is "UNKNOWN", a token in upper
    case, or the base name in upper case. *)
Theorem company_name_is_never_empty (filename : string) :
  extract_company_name filename <> ""
  /\ (isascii filename = true ->
      has_lower (extract_company_name filename) = false).
Proof.
  assert (H : extract_company_name filename <> ""
              /\ has_lower (extract_company_name filename) = false).
  { unfold extract_company_name.
    destruct (nonempty filename); cbn [negb];
      [|split; [discriminate|reflexivity]].
    cbv zeta.
    destruct (nonempty (fst (OsPath.splitext (OsPath.basename filename))))
      eqn:Eb; cbn [negb]; [|split; [discriminate|reflexivity]].
    destruct (first_company_token _) as [name|] eqn:Et.
    - apply first_company_token_some in Et. exact Et.
    - split; [|apply upper_has_no_lower].
      apply upper_nonempty. intros Hs. rewrite Hs in Eb. discriminate. }
  destruct H as [H1 H2]. split; [exact H1|]. intros _. exact H2.
Qed.

Lemma company_name_is_never_empty_witness :
  extract_company_name "uploads/q1 report.pdf" <> ""
  /\ has_lower (extract_company_name "uploads/q1 report.pdf") = false.
Proof.
  destruct (company_name_is_never_empty "uploads/q1 report.pdf")
    as [H1 H2].
  split; [exact H1|]. apply H2. reflexivity.
Defined.

(** X17. The directory and the extension of a file do not count: a path that
    ends in a name without slash or dot, followed by a dot and an extension
    without slash or dot, gives the company name of that name alone. *)
Theorem company_name_ignores_directory_and_extension
    (prefix name ext : string) :
  prefix = "" \/ (exists dir, prefix = (dir ++ "/")%string) ->
  name <> "" ->
  forallb plain (chars name) = true ->
  forallb plain (chars ext) = true ->
  extract_company_name (prefix ++ name ++ "." ++ ext)
  = extract_company_name name.
Proof.
  intros Hp Hn Hname Hext. unfold extract_company_name.
  rewrite (OsPathFacts.plain_name_with_extension _ _ _ Hp Hn Hname Hext).
  destruct (OsPathFacts.plain_name name Hname) as [-> ->]. cbn [fst].
  assert (H1 : nonempty (prefix ++ name ++ "." ++ ext) = true).
  { destruct prefix; [|reflexivity].
    destruct name; [now destruct Hn|reflexivity]. }
  assert (H2 : nonempty name = true)
    by (destruct name; [now destruct Hn|reflexivity]).
  rewrite H1, H2. reflexivity.
Qed.

Lemma company_name_ignores_directory_and_extension_witness :
  extract_company_name ("uploads/" ++ "TCS_Q1_2024" ++ "." ++ "pdf")
  = extract_company_name "TCS_Q1_2024".
Proof.
  apply (company_name_ignores_directory_and_extension
           "uploads/" "TCS_Q1_2024" "pdf").
  - right. exists "uploads". reflexivity.
  - discriminate.
  - reflexivity.
  - reflexivity.
Defined.

(** *** The tokens *)

Lemma delimiter_pattern_compiled :
  Re.compile DELIMITER_PATTERN
  = set_plus false [Re.CSpace; Re.CChar "_"; Re.CChar "-"].
Proof. vm_compute. reflexivity. Qed.

Lemma delimiter_set a :
  Re.set_has Re.no_flags false [Re.CSpace; Re.CChar "_"; Re.CChar "-"] a
  = is_delimiter a.
Proof.
  unfold Re.set_has, Re.items_have, is_delimiter. cbn.
  rewrite orb_false_r, orb_assoc. reflexivity.
Qed.

Lemma fields_ext sep sep' :
  (forall a, sep a = sep' a) ->
  forall l b, fields sep b l = fields sep' b l.
Proof.
  intros H. induction l as [|a t IH]; intros b; cbn [fields]; [reflexivity|].
  rewrite H, !IH. reflexivity.
Qed.

(** The tokens of a base name are its fields between delimiters. *)
Lemma company_tokens base :
  Re.split DELIMITER_PATTERN base
  = map str (fields is_delimiter false (chars base)).
Proof.
  rewrite (ReSet.split_set_plus _ _ _ _ delimiter_pattern_compiled).
  rewrite (fields_ext _ is_delimiter delimiter_set). reflexivity.
Qed.

Lemma strip_without_space l :
  forallb (fun a => negb (is_space a)) l = true -> strip (str l) = str l.
Proof.
  intros H. unfold strip, strip_by. rewrite chars_str. f_equal.
  assert (L : forall x, forallb (fun a => negb (is_space a)) x = true ->
                        lstrip_by is_space x = x).
  { intros x Hx. apply lstrip_by_fixed. destruct x as [|a t]; [exact I|].
    cbn [forallb] in Hx. apply andb_true_iff in Hx. destruct Hx as [Ha _].
    apply negb_true_iff. exact Ha. }
  rewrite (L l H). unfold rstrip_by. rewrite L, rev_involutive; [reflexivity|].
  rewrite forallb_forall in *. intros a Ha. apply H, in_rev, Ha.
Qed.

Lemma without_delimiter_without_space l :
  forallb (fun a => negb (is_delimiter a)) l = true ->
  forallb (fun a => negb (is_space a)) l = true.
Proof.
  rewrite !forallb_forall. intros H a Ha. specialize (H a Ha).
  unfold is_delimiter in H. destruct (is_space a); [discriminate|reflexivity].
Qed.

Lemma nonempty_str l : nonempty (str l) = negb (Num.is_nil l).
Proof. destruct l; reflexivity. Qed.

Lemma first_company_token_find fs :
  Forall (fun f => forallb (fun a => negb (is_delimiter a)) f = true) fs ->
  first_company_token (map str fs)
  = option_map (fun f => upper (str f)) (find usable fs).
Proof.
  induction 1 as [|f fs Hf _ IH]; [reflexivity|].
  cbn [map first_company_token find]. cbv zeta.
  rewrite (strip_without_space _ (without_delimiter_without_space _ Hf)).
  unfold usable at 1. rewrite nonempty_str.
  destruct (Num.is_nil f); cbn [negb andb]; [exact IH|].
  destruct (is_some _); cbn [negb]; [exact IH|reflexivity].
Qed.

Lemma upper_char_delimiter a : is_delimiter (upper_char a) = is_delimiter a.
Proof.
  destruct a as [[] [] [] [] [] [] [] []]; reflexivity.
Qed.

Lemma upper_without_delimiter l :
  forallb (fun a => negb (is_delimiter a)) l = true ->
  forallb (fun a => negb (is_delimiter a)) (chars (upper (str l))) = true.
Proof.
  intros H. unfold upper, map_str. rewrite !chars_str.
  rewrite forallb_forall in *. intros a Ha. apply in_map_iff in Ha.
  destruct Ha as (b & <- & Hb). rewrite upper_char_delimiter. auto.
Qed.

(** X18. The company name is the first usable field of the base name -- the
    first run of characters between spaces, underscores and hyphens that
    is not empty and not 32 hexadecimal digits -- in upper case, and then
    holds no delimiter; when no field is usable it is the whole base name
    in upper case. *)
Theorem company_name_is_the_first_usable_field (filename : string) :
  let base := fst (OsPath.splitext (OsPath.basename filename)) in
  filename <> "" -> base <> "" ->
  match find usable (fields is_delimiter false (chars base)) with
  | Some f =>
      extract_company_name filename = upper (str f)
      /\ forallb (fun a => negb (is_delimiter a))
                 (chars (extract_company_name filename)) = true
      /\ contains (str f) base = true
  | None => extract_company_name filename = upper base
  end.
Proof.
  cbv zeta. intros Hf Hb. unfold extract_company_name.
  destruct filename as [|a0 t0]; [now destruct Hf|]. cbn [nonempty negb].
  set (base := fst (OsPath.splitext (OsPath.basename (String a0 t0)))) in *.
  destruct base as [|b0 t1] eqn:Eb; [now destruct Hb|]. cbn [nonempty negb].
  rewrite company_tokens.
  pose proof (ReSet.fields_without_sep is_delimiter
                (chars (String b0 t1)) false) as Hw.
  rewrite (first_company_token_find _ Hw).
  destruct (find usable _) as [f|] eqn:Ef; cbn [option_map]; [|reflexivity].
  apply find_some in Ef. destruct Ef as [Hin _].
  rewrite Forall_forall in Hw. specialize (Hw f Hin).
  split; [reflexivity|]. split; [apply upper_without_delimiter, Hw|].
  apply contains_spec. rewrite chars_str.
  apply (ReSet.fields_infix _ _ _ _ Hin).
Qed.

Lemma company_name_is_the_first_usable_field_witness :
  extract_company_name "uploads/0123456789abcdef0123456789abcdef_tata-motors.pdf"
  = upper (str (chars "tata"))
  /\ forallb (fun a => negb (is_delimiter a))
             (chars (extract_company_name
                       "uploads/0123456789abcdef0123456789abcdef_tata-motors.pdf"))
     = true
  /\ contains (str (chars "tata"))
       "0123456789abcdef0123456789abcdef_tata-motors" = true.
Proof.
  exact (company_name_is_the_first_usable_field
           "uploads/0123456789abcdef0123456789abcdef_tata-motors.pdf"
           ltac:(discriminate) ltac:(discriminate)).
Defined.

(** ** The text extraction service *)

Lemma is_prefix_comparable x y : forall l,
  is_prefix x l = true -> is_prefix y l = true ->
  is_prefix x y = true \/ is_prefix y x = true.
Proof.
  revert y. induction x as [|a x IH]; intros y l Hx Hy; [left; reflexivity|].
  destruct y as [|b y]; [right; reflexivity|].
  destruct l as [|c l]; [discriminate|].
  cbn [is_prefix] in *. apply andb_true_iff in Hx, Hy.
  destruct Hx as [Ex Hx], Hy as [Ey Hy].
  apply Ascii.eqb_eq in Ex, Ey. subst. rewrite Ascii.eqb_refl. cbn [andb].
  eauto.
Qed.

(** Of two endings of a string, one is an ending of the other. *)
Lemma endswith_comparable s x y :
  endswith s x = true -> endswith s y = true ->
  endswith x y = true \/ endswith y x = true.
Proof.
  unfold endswith. intros Hx Hy.
  destruct (is_prefix_comparable _ _ _ Hx Hy); auto.
Qed.

Lemma endswith_empty s : endswith s "" = true.
Proof. reflexivity. Qed.

Lemma lower_chars s : chars (lower s) = map lower_char (chars s).
Proof. unfold lower, map_str. apply chars_str. Qed.

Lemma endswith_skipn s n : endswith s (str (skipn n (chars s))) = true.
Proof.
  unfold endswith. rewrite chars_str. apply is_prefix_spec.
  exists (rev (firstn n (chars s))).
  rewrite <- rev_app_distr, firstn_skipn. reflexivity.
Qed.

(** The extension of a path, in lower case, ends the path in lower
    case. *)
Lemma extension_ends_the_path p :
  endswith (lower p) (lower (snd (OsPath.splitext p))) = true.
Proof.
  unfold OsPath.splitext.
  destruct (_ && _); cbn [snd]; [|reflexivity].
  unfold endswith. rewrite !lower_chars, chars_str. apply is_prefix_spec.
  exists (rev (map lower_char (firstn (Z.to_nat (OsPath.rfind "." p)) (chars p)))).
  rewrite <- rev_app_distr, <- map_app, firstn_skipn. reflexivity.
Qed.

Section Extraction.

Variable cell : Type.
Variable w : Ocr.World cell.

(** X19. An image passes the validation of the file and is then refused: the
    extensions .jpg, .jpeg and .png are allowed by [validate_file], but
    [extract_text] reads PDF and Excel files only and raises the error 415
    for the types it does not read. *)
Theorem images_are_validated_then_refused (file_path : string) :
  Ocr.path_exists w file_path = true ->
  endswith (lower file_path) ".jpg" || endswith (lower file_path) ".jpeg"
  || endswith (lower file_path) ".png" = true ->
  Ocr.validate_file w file_path = inr tt
  /\ Ocr.extract_text w file_path = inl (Ocr.HTTP 415 "Unsupported file type.").
Proof.
  intros He Hi.
  assert (Hv : Ocr.validate_file w file_path = inr tt).
  { unfold Ocr.validate_file. rewrite He. cbn [negb].
    unfold Ocr.allowed_ext. cbn [existsb].
    apply orb_true_iff in Hi. destruct Hi as [Hi|Hi];
      [apply orb_true_iff in Hi; destruct Hi as [Hi|Hi]|];
      rewrite Hi, ?orb_true_r; reflexivity. }
  split; [exact Hv|].
  unfold Ocr.extract_text. rewrite Hv. cbv zeta.
  pose proof (extension_ends_the_path file_path) as Hx.
  set (ext := lower (snd (OsPath.splitext file_path))) in *.
  assert (Hno : forall e image,
            In e [".pdf"; ".xlsx"; ".xls"] ->
            In image [".jpg"; ".jpeg"; ".png"] ->
            endswith (lower file_path) image = true ->
            String.eqb ext e = false).
  { intros e image Hin Him Hend.
    destruct (String.eqb ext e) eqn:E; [|reflexivity].
    apply String.eqb_eq in E. rewrite E in Hx.
    destruct (endswith_comparable _ _ _ Hx Hend) as [H|H]; exfalso;
      cbn [In] in Hin, Him;
      destruct Hin as [<-|[<-|[<-|[]]]];
      destruct Him as [<-|[<-|[<-|[]]]]; discriminate H. }
  assert (Hall : String.eqb ext ".pdf" = false
                 /\ String.eqb ext ".xlsx" = false
                 /\ String.eqb ext ".xls" = false).
  { apply orb_true_iff in Hi. destruct Hi as [Hi|Hi];
      [apply orb_true_iff in Hi; destruct Hi as [Hi|Hi]|];
      repeat split;
      first [ apply (Hno _ ".jpg"); cbn [In]; now auto
            | apply (Hno _ ".jpeg"); cbn [In]; now auto
            | apply (Hno _ ".png"); cbn [In]; now auto ]. }
  destruct Hall as (H1 & H2 & H3).
  unfold Ocr.read_file. rewrite H1, H2, H3. reflexivity.
Qed.

(** X20. [extract_text] fails with an [HTTPException] only, of status 400, 415
    or 500: what a library raises is reported as an error 500 with the
    name of the type of the exception. *)
Theorem extraction_fails_with_http_errors (file_path : string)
    (e : Ocr.raised) :
  Ocr.extract_text w file_path = inl e ->
  exists status_code detail,
    e = Ocr.HTTP status_code detail /\ In status_code [400; 415; 500].
Proof.
  unfold Ocr.extract_text, Ocr.validate_file.
  destruct (Ocr.path_exists w file_path); cbn [negb].
  2:{ intros H. injection H as <-. eexists _, _. split; [reflexivity|].
      cbn [In]. auto. }
  destruct (existsb _ _); cbn [negb].
  2:{ intros H. injection H as <-. eexists _, _. split; [reflexivity|].
      cbn [In]. auto. }
  cbv zeta. unfold Ocr.read_file.
  destruct (String.eqb _ ".pdf").
  - destruct (Ocr.pdf_pages w file_path) as [t|pages].
    + intros H. injection H as <-. eexists _, _. split; [reflexivity|].
      cbn [In]. auto.
    + destruct (fold_left _ pages _) as [raw tbls].
      destruct (negb (nonempty (strip raw))); [|discriminate].
      intros H. injection H as <-. eexists _, _. split; [reflexivity|].
      cbn [In]. auto.
  - destruct (_ || _).
    + destruct (Ocr.read_excel w file_path) as [t|[values rendered]];
        [|discriminate].
      intros H. injection H as <-. eexists _, _. split; [reflexivity|].
      cbn [In]. auto.
    + intros H. injection H as <-. eexists _, _. split; [reflexivity|].
      cbn [In]. auto.
Qed.

Lemma take_nonempty n s : 0 < n -> s <> "" -> take n s <> "".
Proof.
  intros Hn Hs. destruct s as [|a t]; [now destruct Hs|].
  destruct n; [lia|]. discriminate.
Qed.

Lemma read_pages_tables pages : forall raw tbls,
  Forall (fun t : Ocr.sheet cell => t <> []) tbls ->
  Forall (fun t : Ocr.sheet cell => t <> [])
         (snd (fold_left (@Ocr.read_page cell) pages (raw, tbls))).
Proof.
  induction pages as [|page pages IH]; intros raw tbls Ht; [exact Ht|].
  cbn [fold_left]. unfold Ocr.read_page at 2. apply IH.
  apply Forall_app. split; [exact Ht|].
  apply Forall_forall. intros t Hin. apply filter_In in Hin.
  destruct Hin as [_ Hin]. intros ->. discriminate.
Qed.

(** A result of [extract_text] is made of what [read_file] has read. *)
Lemma extract_text_cases (file_path : string) (r : Ocr.Extracted cell) :
  Ocr.extract_text w file_path = inr r ->
  exists raw tbls,
    Ocr.read_file w file_path (lower (snd (OsPath.splitext file_path)))
    = inr (raw, tbls)
    /\ Ocr.raw_text r = take Ocr.text_limit (strip raw)
    /\ (Ocr.cleaned_text r = take Ocr.text_limit (strip raw)
        \/ exists cleaned,
             strip cleaned <> ""
             /\ Ocr.cleaned_text r = take Ocr.text_limit (strip cleaned))
    /\ Ocr.tables r = tbls.
Proof.
  unfold Ocr.extract_text.
  destruct (Ocr.validate_file w file_path); [discriminate|]. cbv zeta.
  destruct (Ocr.read_file w file_path _) as [[s d|t]|[raw tbls]] eqn:E;
    try discriminate.
  intros H. injection H as <-. exists raw, tbls.
  cbn [Ocr.raw_text Ocr.cleaned_text Ocr.tables].
  split; [reflexivity|]. split; [reflexivity|]. split; [|reflexivity].
  destruct (Ocr.clean_text w raw) as [cleaned|]; [|left; reflexivity].
  destruct (nonempty (strip cleaned)) eqn:Ec; cbn [negb];
    [|left; reflexivity].
  right. exists cleaned. split; [|reflexivity].
  intros Hs. rewrite Hs in Ec. discriminate.
Qed.

(** A PDF is read only when its pages give some text. *)
Lemma pdf_has_text (file_path raw : string) (tbls : list (Ocr.sheet cell)) :
  Ocr.read_file w file_path ".pdf" = inr (raw, tbls) ->
  strip raw <> "" /\ Forall (fun t => t <> []) tbls.
Proof.
  unfold Ocr.read_file. cbn [String.eqb Ascii.eqb Bool.eqb andb].
  destruct (Ocr.pdf_pages w file_path) as [t|pages]; [discriminate|].
  pose proof (read_pages_tables pages "" [] (Forall_nil _)) as Ht.
  destruct (fold_left _ pages _) as [raw' tbls'].
  destruct (nonempty (strip raw')) eqn:En; cbn [negb]; [|discriminate].
  intros H. injection H as <- <-. cbn [snd] in Ht. split; [|exact Ht].
  intros Hs. rewrite Hs in En. discriminate.
Qed.

Lemma text_limit_positive : 0 < Ocr.text_limit.
Proof. unfold Ocr.text_limit. lia. Qed.

(** X21. What [extract_text] returns: texts of at most 50000 characters; for
    a PDF, a raw text and a cleaned text that are not empty (a PDF without
    text is refused, and a cleaned text that is blank, or a [clean_text]
    that fails, gives way to the raw text) and tables that are not
    empty. *)
Theorem extracted_text_is_bounded (file_path : string)
    (r : Ocr.Extracted cell) :
  Ocr.extract_text w file_path = inr r ->
  len (Ocr.raw_text r) <= Ocr.text_limit
  /\ len (Ocr.cleaned_text r) <= Ocr.text_limit
  /\ (lower (snd (OsPath.splitext file_path)) = ".pdf" ->
      Ocr.raw_text r <> "" /\ Ocr.cleaned_text r <> ""
      /\ Forall (fun t => t <> []) (Ocr.tables r)).
Proof.
  intros H. apply extract_text_cases in H.
  destruct H as (raw & tbls & E & -> & Hc & ->).
  split; [apply len_take|]. split.
  - destruct Hc as [-> | (cleaned & _ & ->)]; apply len_take.
  - intros Hext. rewrite Hext in E. apply pdf_has_text in E.
    destruct E as [Hr Ht].
    split; [apply take_nonempty; [apply text_limit_positive|exact Hr]|].
    split; [|exact Ht].
    destruct Hc as [-> | (cleaned & Hn & ->)];
      apply take_nonempty; auto using text_limit_positive.
Qed.

End Extraction.

Section Pipeline.

Context {pre : Preprocessing}.

Variable w : Ocr.World (option string).

Lemma parse_returns (cleaned_text : string) (tbls : list table) :
  cleaned_text <> "" ->
  exists parsed, parse_financial_document cleaned_text tbls = Ok parsed.
Proof.
  intros Ht. unfold parse_financial_document.
  destruct cleaned_text as [|a t]; [now destruct Ht|].
  cbn [nonempty negb].
  destruct (detect_document_scale (String a t)) as [factor unit_label].
  destruct (negb (statements_detected _)); [eexists; reflexivity|].
  match goal with
  | |- context [if ?b then _ else (?x, ?y, ?z)] => destruct b
  end;
  match goal with
  | |- context [_validate_basic_balance ?p] =>
      destruct (_validate_basic_balance p)
  end;
  eexists; reflexivity.
Qed.

(** X22. What [extract_text] returns for a PDF can always be parsed: its
    cleaned text is not empty, so [parse_financial_document] does not
    raise its error 400 on it, and the tables of the PDF are in the
    result as they were extracted. *)
Theorem extracted_pdf_can_be_parsed (file_path : string)
    (r : Ocr.Extracted (option string)) :
  Ocr.extract_text w file_path = inr r ->
  lower (snd (OsPath.splitext file_path)) = ".pdf" ->
  exists parsed,
    parse_financial_document (Ocr.cleaned_text r) (Ocr.tables r) = Ok parsed
    /\ tables parsed = Ocr.tables r.
Proof.
  intros H Hext. apply extract_text_cases in H.
  destruct H as (raw & tbls & E & _ & Hcl & _).
  rewrite Hext in E. apply pdf_has_text in E. destruct E as [Hr _].
  assert (Hc : Ocr.cleaned_text r <> "").
  { destruct Hcl as [-> | (cleaned & Hn & ->)];
      apply take_nonempty; auto using text_limit_positive. }
  destruct (parse_returns (Ocr.cleaned_text r) (Ocr.tables r) Hc)
    as [parsed Hparsed].
  exists parsed. split; [exact Hparsed|].
  apply parse_cases in Hparsed. tauto.
Qed.

End Pipeline.

Lemma images_are_validated_then_refused_witness :
  Ocr.validate_file sample_world "uploads/scan.JPG" = inr tt
  /\ Ocr.extract_text sample_world "uploads/scan.JPG"
     = inl (Ocr.HTTP 415 "Unsupported file type.").
Proof.
  apply (images_are_validated_then_refused _ sample_world "uploads/scan.JPG").
  - reflexivity.
  - vm_compute. reflexivity.
Defined.

Lemma extraction_fails_with_http_errors_witness :
  exists status_code detail,
    Ocr.HTTP 500 "Excel parsing failed (ValueError)"
    = Ocr.HTTP status_code detail
    /\ In status_code [400; 415; 500].
Proof.
  apply (extraction_fails_with_http_errors _ sample_world "uploads/book.xlsx").
  vm_compute. reflexivity.
Defined.

Lemma extracted_text_is_bounded_witness :
  len (Ocr.raw_text sample_extraction) <= Ocr.text_limit
  /\ len (Ocr.cleaned_text sample_extraction) <= Ocr.text_limit
  /\ (lower (snd (OsPath.splitext "uploads/report.pdf")) = ".pdf" ->
      Ocr.raw_text sample_extraction <> ""
      /\ Ocr.cleaned_text sample_extraction <> ""
      /\ Forall (fun t => t <> []) (Ocr.tables sample_extraction)).
Proof.
  apply (extracted_text_is_bounded _ sample_world "uploads/report.pdf").
  vm_compute. reflexivity.
Defined.

Lemma extracted_pdf_can_be_parsed_witness :
  exists parsed,
    @parse_financial_document SpecPreprocessing.instance
      (Ocr.cleaned_text sample_extraction) (Ocr.tables sample_extraction)
    = Ok parsed
    /\ tables parsed = Ocr.tables sample_extraction.
Proof.
  apply (@extracted_pdf_can_be_parsed SpecPreprocessing.instance
           sample_world "uploads/report.pdf").
  - vm_compute. reflexivity.
  - vm_compute. reflexivity.
Defined.

(** ** The KPIs of a document without statements *)

Section NoStatements.

Context {pre : Preprocessing}.

(** X23. A text in which no balance-sheet or P&L block is detected gives a
    document without sections, and [compute_kpis] gives for it nothing but
    the summary that the parsed metrics are insufficient; the trend
    service files it under its company name. *)
Theorem document_without_statements_has_no_kpis
    (cleaned_text : string) (tbls : list table) (parsed : ParsedDocument) :
  parse_financial_document cleaned_text tbls = Ok parsed ->
  statements_detected (_split_into_sections cleaned_text) = false ->
  compute_kpis parsed
  = [("summary", KStr [Text "Insufficient parsed metrics for summary."])]
  /\ timeseries (aggregate_periods [parsed])
     = [(period_key (meta parsed) 0,
         {| entry_meta := meta parsed;
            entry_kpis :=
              [("summary",
                KStr [Text "Insufficient parsed metrics for summary."])] |})].
Proof.
  intros H Hs. apply parse_cases in H. destruct H as (_ & _ & H).
  rewrite Hs in H. rewrite H.
  generalize (_extract_meta cleaned_text "units"). intros m.
  split; reflexivity.
Qed.

End NoStatements.

Lemma document_without_statements_has_no_kpis_witness :
  compute_kpis cash_flow_only_document
  = [("summary", KStr [Text "Insufficient parsed metrics for summary."])]
  /\ timeseries (aggregate_periods [cash_flow_only_document])
     = [(period_key (meta cash_flow_only_document) 0,
         {| entry_meta := meta cash_flow_only_document;
            entry_kpis :=
              [("summary",
                KStr [Text "Insufficient parsed metrics for summary."])] |})].
Proof.
  apply (@document_without_statements_has_no_kpis SpecPreprocessing.instance
           cash_flow_only_text [] cash_flow_only_document).
  - vm_compute. reflexivity.
  - vm_compute. reflexivity.
Defined.

(** ** Substitutions at the ends of a string *)

Module ReEnds.
Import Re.
Import ReSet.

Lemma lstrip_by_skipn ok l : lstrip_by ok l = skipn (run_length ok l) l.
Proof.
  induction l as [|a t IH]; [reflexivity|]. cbn [lstrip_by run_length].
  destruct (ok a); [exact IH|reflexivity].
Qed.

Lemma slice_all_from n s : slice n (len s) s = str (skipn n (chars s)).
Proof.
  unfold slice. f_equal. apply firstn_all2.
  rewrite length_skipn, len_chars. lia.
Qed.

Lemma slice_from_start n s : slice 0 n s = str (firstn n (chars s)).
Proof. unfold slice. rewrite Nat.sub_0_r. reflexivity. Qed.

Lemma slice_empty n s : slice n n s = "".
Proof. unfold slice. rewrite Nat.sub_diag. reflexivity. Qed.

Section AtStart.

Variables (negated : bool) (items : list citem).

Let ok := set_has no_flags negated items.
Let r := set_plus_at_start negated items.

Lemma match_at_start c :
  match_at no_flags r c
  = if (pos c =? 0)%nat
    then match_at no_flags (set_plus negated items) c
    else None.
Proof.
  unfold match_at, r, set_plus_at_start. cbn [run].
  destruct (pos c =? 0)%nat; reflexivity.
Qed.

Lemma search_from_later : forall fuel c,
  0 < pos c -> search_from no_flags r fuel c = None.
Proof.
  induction fuel as [|fuel IH]; intros c Hc; cbn [search_from];
    rewrite match_at_start;
    replace (pos c =? 0)%nat with false by (symmetry; apply Nat.eqb_neq; lia).
  - reflexivity.
  - destruct (step c) as [[a c']|] eqn:S; [|reflexivity].
    apply IH. apply ReFacts.step_leads in S. destruct S as [_ P]. cbn [List.length] in P. lia.
Qed.

Lemma matches_from_later fuel c :
  0 < pos c -> matches_from no_flags r fuel c = [].
Proof.
  intros Hc. destruct fuel as [|fuel]; [reflexivity|].
  cbn [matches_from]. rewrite search_from_later by exact Hc. reflexivity.
Qed.

(** Removing a run of the set at the start of a string strips the string
    of these characters on the left. *)
Lemma sub_at_start pattern s :
  compile pattern = r ->
  sub pattern "" s = str (lstrip_by ok (chars s)).
Proof.
  intros Hp. unfold sub, split, finditer. rewrite Hp.
  set (l := chars s). set (c := start_of l).
  cbn [matches_from].
  assert (Hs : search_from no_flags r (List.length (rest c)) c
               = if (1 <=? run_length ok l)%nat
                 then Some {| m_start := 0; m_end := run_length ok l;
                              m_caps := [] |}
                 else None).
  { destruct (List.length (rest c)) as [|n] eqn:En; cbn [search_from];
      rewrite match_at_start; change (pos c =? 0)%nat with true; cbv iota;
      rewrite (match_at_set_plus no_flags negated items c);
      change (rest c) with l; change (pos c) with 0; fold ok;
      cbn [Nat.add];
      destruct (1 <=? run_length ok l)%nat eqn:E1; try reflexivity.
    destruct (step c) as [[a c']|] eqn:S; [|reflexivity].
    apply search_from_later. apply ReFacts.step_leads in S.
    destruct S as [_ P]. cbn [List.length] in P. lia. }
  rewrite Hs. rewrite lstrip_by_skipn.
  destruct (1 <=? run_length ok l)%nat eqn:E1.
  - apply Nat.leb_le in E1. cbn [m_start m_end].
    replace (run_length ok l =? 0)%nat with false
      by (symmetry; apply Nat.eqb_neq; lia).
    change (pos c) with 0. rewrite Nat.sub_0_r.
    rewrite matches_from_later.
    2:{ destruct (forward_pos (run_length ok l) c) as [P _].
        - apply run_length_le.
        - rewrite P. change (pos c) with 0. lia. }
    cbn [pieces m_start m_end String.concat].
    rewrite slice_empty, slice_all_from. reflexivity.
  - apply Nat.leb_gt in E1. cbn [pieces String.concat].
    rewrite slice_all_from.
    replace (run_length ok l) with 0 by lia. reflexivity.
Qed.

End AtStart.

Section AtEnd.

Variables (negated : bool) (items : list citem).

Let ok := set_has no_flags negated items.
Let r := set_plus_at_end negated items.

(** The line break is in the set. *)
Hypothesis newline_in_set : ok "010"%char = true.

Lemma at_end_two a b t c : rest c = a :: b :: t -> at_end c = false.
Proof. intros H. unfold at_end. rewrite H. reflexivity. Qed.

Lemma at_end_not_ok a c : rest c = [a] -> ok a = false -> at_end c = false.
Proof.
  intros H Ha. unfold at_end. rewrite H.
  destruct (Ascii.eqb a "010") eqn:E; [|reflexivity].
  apply Ascii.eqb_eq in E. subst. congruence.
Qed.

(** A greedy run that has to reach the end of the subject succeeds
    exactly when all that is left is in the set. *)
Lemma iterate_to_end lo : forall fuel count c cs,
  List.length (rest c) <= fuel ->
  iterate (one ok) lo None true accept_at_end fuel count c cs
  = if forallb ok (rest c) && (lo <=? count + List.length (rest c))%nat
    then Some (forward (List.length (rest c)) c, cs)
    else None.
Proof.
  induction fuel as [|fuel IH]; intros count c cs Hf.
  - destruct (rest c) eqn:E; [|simpl in Hf; lia].
    cbn [iterate forallb List.length forward andb]. rewrite Nat.add_0_r.
    unfold accept_at_end, at_end. rewrite E.
    destruct (lo <=? count)%nat; reflexivity.
  - cbn [iterate below]. unfold one at 1.
    destruct (rest c) as [|a t] eqn:E.
    + rewrite (step_nil _ E).
      cbn [or_else forallb List.length forward andb]. rewrite Nat.add_0_r.
      unfold accept_at_end, at_end. rewrite E.
      destruct (lo <=? count)%nat; reflexivity.
    + rewrite (step_cons _ _ _ E). cbn [forallb List.length].
      destruct (ok a) eqn:Ea; cbn [andb].
      * cbn [pos]. rewrite (proj2 (Nat.ltb_lt _ _) (Nat.lt_succ_diag_r _)).
        rewrite IH by (cbn [rest]; simpl in Hf; lia).
        cbn [rest]. rewrite (forward_step _ _ _ _ (step_cons _ _ _ E)).
        replace (S count + List.length t) with (count + S (List.length t))
          by lia.
        destruct (forallb ok t) eqn:Et; cbn [andb].
        -- destruct (lo <=? count + S (List.length t))%nat eqn:El;
             [reflexivity|].
           cbn [or_else]. apply Nat.leb_gt in El.
           rewrite (proj2 (Nat.leb_gt _ _)) by lia. reflexivity.
        -- cbn [or_else]. destruct (lo <=? count)%nat; [|reflexivity].
           unfold accept_at_end. destruct t as [|b t']; [discriminate|].
           rewrite (at_end_two _ _ _ _ E). reflexivity.
      * cbn [or_else]. destruct (lo <=? count)%nat; [|reflexivity].
        unfold accept_at_end. destruct t as [|b t'].
        -- rewrite (at_end_not_ok _ _ E Ea). reflexivity.
        -- rewrite (at_end_two _ _ _ _ E). reflexivity.
Qed.

Lemma match_at_end c :
  match_at no_flags r c
  = if forallb ok (rest c) && (1 <=? List.length (rest c))%nat
    then Some {| m_start := pos c;
                 m_end := pos c + List.length (rest c);
                 m_caps := [] |}
    else None.
Proof.
  unfold match_at, r, set_plus_at_end, set_plus.
  change (run no_flags
            (Cat (Rep (CharSet negated items) 1 None true) LineEnd)
            (fun c' cs' => Some (c', cs')) c [])
    with (iterate (one ok) 1 None true accept_at_end (List.length (rest c)) 0 c []).
  rewrite (iterate_to_end 1 _ 0 c [] (Nat.le_refl _)). cbn [Nat.add].
  destruct (forallb ok (rest c) && (1 <=? List.length (rest c))%nat);
    [|reflexivity].
  destruct (forward_pos _ c (Nat.le_refl (List.length (rest c)))) as [-> _].
  reflexivity.
Qed.

Lemma rstrip_by_all l : forallb ok l = true -> rstrip_by ok l = [].
Proof.
  intros H. unfold rstrip_by.
  assert (L : forall x, forallb ok x = true -> lstrip_by ok x = []).
  { induction x as [|a x IH]; [reflexivity|]. cbn [forallb lstrip_by].
    intros Hx. apply andb_true_iff in Hx. destruct Hx as [-> Hx]. auto. }
  rewrite L; [reflexivity|].
  rewrite forallb_forall in *. intros a Ha. apply H, in_rev, Ha.
Qed.

Lemma lstrip_by_app_keep x y :
  forallb ok y = false -> lstrip_by ok (y ++ x) = lstrip_by ok y ++ x.
Proof.
  induction y as [|a y IH]; [discriminate|]. cbn [forallb app lstrip_by].
  destruct (ok a); [exact IH|reflexivity].
Qed.

Lemma rstrip_by_keep a t :
  forallb ok (a :: t) = false -> rstrip_by ok (a :: t) = a :: rstrip_by ok t.
Proof.
  intros H. unfold rstrip_by. cbn [rev].
  destruct (forallb ok t) eqn:Et.
  - cbn [forallb] in H. rewrite Et, andb_true_r in H.
    assert (Hr : forallb ok (rev t) = true).
    { rewrite forallb_forall in *. intros x Hx. apply Et, in_rev, Hx. }
    assert (L : forall x, forallb ok x = true ->
                          lstrip_by ok (x ++ [a]) = [a]).
    { induction x as [|b x IH]; cbn [app lstrip_by forallb].
      - rewrite H. reflexivity.
      - intros Hx. apply andb_true_iff in Hx. destruct Hx as [-> Hx]. auto. }
    rewrite (L _ Hr). fold (rstrip_by ok t). rewrite (rstrip_by_all t Et).
    reflexivity.
  - rewrite lstrip_by_app_keep.
    + rewrite rev_app_distr. reflexivity.
    + destruct (forallb ok (rev t)) eqn:Er; [|reflexivity].
      rewrite forallb_forall in Er.
      assert (forallb ok t = true); [|congruence].
      apply forallb_forall. intros x Hx. apply Er. apply in_rev.
      rewrite rev_involutive. exact Hx.
Qed.

(** The leftmost match that reaches the end starts where what is left of
    the subject, stripped on the right, ends. *)
Lemma search_from_end : forall fuel c,
  List.length (rest c) <= fuel ->
  search_from no_flags r fuel c
  = let p := List.length (rstrip_by ok (rest c)) in
    if (p <? List.length (rest c))%nat
    then Some {| m_start := pos c + p;
                 m_end := pos c + List.length (rest c);
                 m_caps := [] |}
    else None.
Proof.
  induction fuel as [|fuel IH]; intros c Hf; cbv zeta.
  - destruct (rest c) eqn:E; [|simpl in Hf; lia].
    cbn [search_from]. rewrite match_at_end, E. reflexivity.
  - cbn [search_from]. rewrite match_at_end.
    destruct (rest c) as [|a t] eqn:E;
      [rewrite (step_nil _ E); reflexivity|].
    rewrite (step_cons _ _ _ E).
    change (1 <=? List.length (a :: t))%nat with true. rewrite andb_true_r.
    destruct (forallb ok (a :: t)) eqn:Ea.
    + rewrite (rstrip_by_all _ Ea). cbn [List.length Nat.ltb Nat.leb].
      rewrite Nat.add_0_r. reflexivity.
    + rewrite IH by (cbn [rest]; simpl in Hf; lia).
      cbv zeta. cbn [rest pos]. rewrite (rstrip_by_keep _ _ Ea).
      cbn [List.length].
      change (S (List.length (rstrip_by ok t)) <? S (List.length t))%nat
        with (List.length (rstrip_by ok t) <? List.length t)%nat.
      destruct (List.length (rstrip_by ok t) <? List.length t)%nat;
        [|reflexivity].
      f_equal. f_equal; lia.
Qed.

Lemma rstrip_by_firstn l :
  firstn (List.length (rstrip_by ok l)) l = rstrip_by ok l.
Proof.
  destruct (rstrip_by_split ok l) as (b & H & _).
  rewrite H at 2. rewrite firstn_app, firstn_all, Nat.sub_diag.
  cbn [firstn]. apply app_nil_r.
Qed.

Lemma rstrip_by_length l : List.length (rstrip_by ok l) <= List.length l.
Proof.
  destruct (rstrip_by_split ok l) as (b & H & _).
  rewrite H at 2. rewrite length_app. lia.
Qed.

(** Removing a run of the set at the end of a string strips the string of
    these characters on the right. *)
Lemma sub_at_end pattern s :
  compile pattern = r ->
  sub pattern "" s = str (rstrip_by ok (chars s)).
Proof.
  intros Hp. unfold sub, split, finditer. rewrite Hp.
  set (l := chars s). set (c := start_of l).
  cbn [matches_from].
  rewrite (search_from_end _ c (Nat.le_refl _)). cbv zeta.
  change (rest c) with l. change (pos c) with 0. cbn [Nat.add].
  pose proof (rstrip_by_length l) as Hle.
  destruct (List.length (rstrip_by ok l) <? List.length l)%nat eqn:E.
  - apply Nat.ltb_lt in E. cbn [m_start m_end].
    replace (List.length l =? List.length (rstrip_by ok l))%nat with false
      by (symmetry; apply Nat.eqb_neq; lia).
    rewrite Nat.sub_0_r.
    assert (Hn : matches_from no_flags r (List.length l)
                   (forward (List.length l) c) = []).
    { destruct (forward_pos (List.length l) c (Nat.le_refl _)) as [_ R].
      change (rest c) with l in R. rewrite skipn_all in R.
      destruct (List.length l) as [|n] eqn:En; [reflexivity|].
      cbn [matches_from]. rewrite R. cbn [List.length search_from].
      rewrite match_at_end, R. reflexivity. }
    rewrite Hn. cbn [pieces m_start m_end String.concat].
    rewrite slice_from_start, rstrip_by_firstn.
    replace (List.length l) with (len s) by apply len_chars.
    rewrite slice_empty.
    fold l. cbn [String.append].
    generalize (str (rstrip_by ok l)).
    induction s0 as [|x s0 IH]; [reflexivity|].
    cbn [String.append]. rewrite IH. reflexivity.
  - apply Nat.ltb_ge in E. cbn [pieces String.concat].
    rewrite slice_from_start. f_equal.
    transitivity (firstn (List.length (rstrip_by ok l)) l);
      [|apply rstrip_by_firstn].
    f_equal. pose proof (len_chars s) as Hl. fold l in Hl. lia.
Qed.

End AtEnd.

End ReEnds.

(** ** Normalized item names *)

Lemma lstrip_by_ext p q l :
  (forall a, p a = q a) -> lstrip_by p l = lstrip_by q l.
Proof.
  intros H. induction l as [|a t IH]; [reflexivity|]. cbn [lstrip_by].
  rewrite H, IH. reflexivity.
Qed.

Lemma rstrip_by_ext p q l :
  (forall a, p a = q a) -> rstrip_by p l = rstrip_by q l.
Proof. intros H. unfold rstrip_by. rewrite (lstrip_by_ext p q _ H). reflexivity. Qed.

Lemma space_set a : Re.set_has Re.no_flags false [Re.CSpace] a = is_space a.
Proof. destruct a as [[] [] [] [] [] [] [] []]; reflexivity. Qed.

Lemma not_name_set a :
  Re.set_has Re.no_flags false [Re.CNotWord; Re.CDigit] a = not_name_char a.
Proof. destruct a as [[] [] [] [] [] [] [] []]; reflexivity. Qed.

Lemma name_char_not_space a :
  negb (not_name_char a) = true -> negb (is_space a) = true.
Proof.
  destruct a as [[] [] [] [] [] [] [] []]; intros H; vm_compute in *;
    congruence.
Qed.

Lemma name_char_not_punctuation a :
  negb (not_name_char a) = true -> negb (mem_char a ":;,.") = true.
Proof.
  destruct a as [[] [] [] [] [] [] [] []]; intros H; vm_compute in *;
    congruence.
Qed.

Lemma name_char_letter a :
  negb (not_name_char a) = is_alpha a || Ascii.eqb a "_".
Proof. destruct a as [[] [] [] [] [] [] [] []]; reflexivity. Qed.

Lemma concat_cons_char sep a p ps :
  String.concat sep (String a p :: ps)
  = String a (String.concat sep (p :: ps)).
Proof. destruct ps; reflexivity. Qed.

(** Joining the fields between blanks with one space collapses the
    blanks. *)
Lemma join_fields : forall l b,
  String.concat " " (map str (fields is_space b l)) = str (collapse b l).
Proof.
  induction l as [|a t IH]; intros b; cbn [fields collapse]; [reflexivity|].
  destruct (is_space a).
  - destruct b; [apply IH|].
    specialize (IH true).
    pose proof (ReSet.fields_nonempty is_space true t) as Hn.
    destruct (fields is_space true t) as [|x xs]; [now destruct Hn|].
    transitivity (String " " (String.concat " " (map str (x :: xs))));
      [reflexivity|].
    rewrite IH. reflexivity.
  - specialize (IH false).
    pose proof (ReSet.fields_nonempty is_space false t) as Hn.
    destruct (fields is_space false t) as [|x xs]; [now destruct Hn|].
    cbn [map] in *. change (str (a :: x)) with (String a (str x)).
    rewrite concat_cons_char, IH. reflexivity.
Qed.

Lemma sub_blanks s : Re.sub "\s+" " " s = str (collapse false (chars s)).
Proof.
  unfold Re.sub.
  rewrite (ReSet.split_set_plus "\s+" false [Re.CSpace] s)
    by (vm_compute; reflexivity).
  rewrite (fields_ext _ is_space space_set). apply join_fields.
Qed.

Lemma single_spaced_collapse : forall l b,
  single_spaced b (collapse b l) = true.
Proof.
  induction l as [|a t IH]; intros b; cbn [collapse]; [reflexivity|].
  destruct (is_space a) eqn:E.
  - destruct b; [apply IH|]. cbn [single_spaced].
    change (is_space " ") with true. cbv iota. rewrite IH. reflexivity.
  - cbn [single_spaced]. rewrite E. apply IH.
Qed.

Lemma single_spaced_weaken l :
  single_spaced true l = true -> single_spaced false l = true.
Proof.
  destruct l as [|a t]; [auto|]. cbn [single_spaced negb].
  destruct (is_space a); [|auto]. rewrite andb_false_r. discriminate.
Qed.

Lemma single_spaced_app : forall x b y,
  single_spaced b (x ++ y) = true ->
  single_spaced b x = true /\ single_spaced false y = true.
Proof.
  induction x as [|a x IH]; intros b y H; cbn [app] in H.
  - split; [reflexivity|]. destruct b; [apply single_spaced_weaken|]; exact H.
  - cbn [single_spaced] in *. destruct (is_space a).
    + apply andb_true_iff in H. destruct H as [H1 H2].
      destruct (IH _ _ H2) as [H3 H4]. rewrite H1, H3. split; auto.
    + apply IH. exact H.
Qed.

Lemma single_spaced_part x l :
  part_of x l -> single_spaced false l = true -> single_spaced false x = true.
Proof.
  intros (p & q & ->) H. apply single_spaced_app in H. destruct H as [_ H].
  apply single_spaced_app in H. apply H.
Qed.

Lemma collapse_fixed : forall l b,
  single_spaced b l = true -> collapse b l = l.
Proof.
  induction l as [|a t IH]; intros b H; cbn [single_spaced collapse] in *;
    [reflexivity|].
  destruct (is_space a) eqn:E.
  - apply andb_true_iff in H. destruct H as [H H3].
    apply andb_true_iff in H. destruct H as [H1 H2].
    apply Ascii.eqb_eq in H1. subst a. destruct b; [discriminate|].
    rewrite (IH _ H3). reflexivity.
  - rewrite (IH _ H). reflexivity.
Qed.

Lemma part_of_refl l : part_of l l.
Proof. exists [], []. rewrite app_nil_r. reflexivity. Qed.

Lemma part_of_trans x y z : part_of x y -> part_of y z -> part_of x z.
Proof.
  intros (p1 & q1 & ->) (p2 & q2 & ->). exists (p2 ++ p1), (q1 ++ q2).
  rewrite <- !app_assoc. reflexivity.
Qed.

Lemma part_of_strip_by f s : part_of (chars (strip_by f s)) (chars s).
Proof. apply strip_by_infix. Qed.

Lemma part_of_firstn n l : part_of (firstn n l) l.
Proof. exists [], (skipn n l). symmetry. apply firstn_skipn. Qed.

Lemma drop_through_space_suffix : forall l r,
  drop_through_space l = Some r -> exists p, l = p ++ r.
Proof.
  induction l as [|a l IH]; intros r H; cbn [drop_through_space] in H;
    [discriminate|].
  destruct (Ascii.eqb a " ").
  - injection H as <-. exists [a]. reflexivity.
  - destruct (IH _ H) as (p & ->). exists (a :: p). reflexivity.
Qed.

Lemma part_of_rsplit1_head s : part_of (chars (rsplit1_head s)) (chars s).
Proof.
  unfold rsplit1_head.
  destruct (drop_through_space (rev (chars s))) as [r|] eqn:E;
    [|apply part_of_refl].
  apply drop_through_space_suffix in E. destruct E as (p & E).
  rewrite chars_str. exists [], (rev p). cbn [app].
  rewrite <- rev_app_distr, <- E, rev_involutive. reflexivity.
Qed.

Lemma search_from_in fl r l : forall fuel c m,
  cursor_in l c -> Re.search_from fl r fuel c = Some m ->
  exists c0, cursor_in l c0 /\ Re.match_at fl r c0 = Some m.
Proof.
  induction fuel as [|fuel IH]; intros c m Hc H; cbn [Re.search_from] in H.
  - destruct (Re.match_at fl r c) eqn:E; [|discriminate].
    injection H as <-. eauto.
  - destruct (Re.match_at fl r c) eqn:E; [injection H as <-; eauto|].
    destruct (Re.step c) as [[a c']|] eqn:S; [|discriminate].
    destruct (ReOrder.cursor_in_step _ _ _ _ Hc S) as [Hc' _]. eauto.
Qed.

(** The cut of a long name is a run of its characters. *)
Lemma cut_group_part name cut :
  Re.search Re.no_flags "(.{80,120}?)[:;\.\-\,\n]" name = Some cut ->
  exists g, Re.group cut 1 = Some g /\ part_of (chars g) (chars name).
Proof.
  unfold Re.search. intros H.
  apply (search_from_in _ _ (chars name)) in H;
    [|apply ReOrder.cursor_in_start].
  destruct H as (c0 & Hc & H).
  rewrite cut_pattern_compiled in H. unfold Re.match_at in H.
  match type of H with
  | match ?x with _ => _ end = _ => destruct x as [[c' cs]|] eqn:E
  end; [|discriminate].
  injection H as <-.
  rewrite ReFacts.run_cat, ReFacts.run_group in E.
  apply ReFacts.run_sound in E. destruct E as (w & c1 & cs1 & L & W & E).
  rewrite (ReFacts.firstn_leads _ _ _ W) in E.
  apply ReGroups.run_adds in E. destruct E as (c2 & added & E & A).
  injection E as _ <-. cbn [groups_of] in A.
  assert (added = []) as ->.
  { destruct added as [|e added]; [reflexivity|].
    inversion A as [|? ? He _]; subst. destruct He. }
  exists (str w). split; [reflexivity|].
  rewrite chars_str. destruct Hc as [R _]. destruct W as [Rw _].
  exists (firstn (Re.pos c0) (chars name)), (Re.rest c1).
  rewrite <- Rw, R. symmetry. apply firstn_skipn.
Qed.

Lemma last_substitutions x :
  Re.sub "[\W\d]+$" "" (Re.sub "^[\W\d]+" "" x) = strip_by not_name_char x.
Proof.
  rewrite (ReEnds.sub_at_end false [Re.CNotWord; Re.CDigit] eq_refl)
    by (vm_compute; reflexivity).
  rewrite (ReEnds.sub_at_start false [Re.CNotWord; Re.CDigit])
    by (vm_compute; reflexivity).
  rewrite chars_str. unfold strip_by.
  rewrite (rstrip_by_ext _ _ _ not_name_set).
  rewrite (lstrip_by_ext _ _ _ not_name_set). reflexivity.
Qed.

(** A normalized name is what is left, between two characters of a name,
    of a run of characters of the name with its blanks collapsed. *)
Lemma normalized_name_parts name :
  exists cut,
    _normalize_item_name name = strip_by not_name_char cut
    /\ part_of (chars cut) (collapse false (chars name)).
Proof.
  unfold _normalize_item_name. rewrite last_substitutions.
  eexists. split; [reflexivity|].
  set (name2 := strip_chars ":;,." (strip (Re.sub "\s+" " " name))).
  assert (H2 : part_of (chars name2) (collapse false (chars name))).
  { unfold name2, strip_chars, strip.
    eapply part_of_trans; [apply part_of_strip_by|].
    eapply part_of_trans; [apply part_of_strip_by|].
    rewrite sub_blanks, chars_str. apply part_of_refl. }
  destruct (120 <? len name2)%nat; [|exact H2].
  destruct (Re.search Re.no_flags "(.{80,120}?)[:;\.\-\,\n]" name2)
    as [cut|] eqn:Ec.
  - destruct (cut_group_part _ _ Ec) as (g & -> & Hg).
    eapply part_of_trans; [apply part_of_strip_by|].
    eapply part_of_trans; [exact Hg|exact H2].
  - eapply part_of_trans; [apply part_of_rsplit1_head|].
    unfold take. rewrite chars_str.
    eapply part_of_trans; [apply part_of_firstn|exact H2].
Qed.

Lemma strip_by_ends p s :
  ends_satisfy (fun a => negb (p a)) (chars (strip_by p s)).
Proof.
  unfold strip_by. rewrite chars_str.
  pose proof (lstrip_by_head p (chars s)) as Hh.
  generalize dependent (lstrip_by p (chars s)). intros l Hh. split.
  - destruct (rstrip_by_split p l) as (b & H & _).
    destruct (rstrip_by p l) as [|a r]; [exact I|].
    rewrite H in Hh. cbn [app] in Hh. rewrite Hh. reflexivity.
  - unfold rstrip_by. rewrite rev_involutive.
    pose proof (lstrip_by_head p (rev l)) as H.
    destruct (lstrip_by p (rev l)); [exact I|]. rewrite H. reflexivity.
Qed.

Lemma ends_satisfy_impl (p q : ascii -> bool) l :
  (forall a, p a = true -> q a = true) ->
  ends_satisfy p l -> ends_satisfy q l.
Proof.
  intros H [H1 H2]. split.
  - destruct l; [exact I|auto].
  - destruct (rev l); [exact I|auto].
Qed.

Lemma strip_by_fixed p s :
  ends_satisfy (fun a => negb (p a)) (chars s) -> strip_by p s = s.
Proof.
  intros [H1 H2]. unfold strip_by. rewrite lstrip_by_fixed.
  - unfold rstrip_by. rewrite lstrip_by_fixed.
    + rewrite rev_involutive. apply str_chars.
    + destruct (rev (chars s)); [exact I|]. apply negb_true_iff, H2.
  - destruct (chars s); [exact I|]. apply negb_true_iff, H1.
Qed.

(** A name that is already clean is left as it is. *)
Lemma clean_name_fixed s :
  ends_satisfy (fun a => negb (not_name_char a)) (chars s) ->
  single_spaced false (chars s) = true ->
  len s <= 120 ->
  _normalize_item_name s = s.
Proof.
  intros He Hs Hl. unfold _normalize_item_name.
  rewrite last_substitutions, sub_blanks, (collapse_fixed _ _ Hs), str_chars.
  unfold strip, strip_chars.
  rewrite (strip_by_fixed is_space s)
    by (exact (ends_satisfy_impl _ _ _ name_char_not_space He)).
  rewrite (strip_by_fixed (fun a => mem_char a ":;,.") s)
    by (exact (ends_satisfy_impl _ _ _ name_char_not_punctuation He)).
  replace (120 <? len s)%nat with false
    by (symmetry; apply Nat.ltb_ge; exact Hl).
  apply strip_by_fixed. exact He.
Qed.

Lemma normalized_name_clean name :
  ends_satisfy (fun a => negb (not_name_char a))
    (chars (_normalize_item_name name))
  /\ single_spaced false (chars (_normalize_item_name name)) = true.
Proof.
  destruct (normalized_name_parts name) as (cut & -> & Hp). split.
  - apply strip_by_ends.
  - apply (single_spaced_part _ (collapse false (chars name))).
    + eapply part_of_trans; [apply part_of_strip_by|exact Hp].
    + apply single_spaced_collapse.
Qed.

(** X24. For an ASCII name, the name returned by [_normalize_item_name]
    is empty or begins and ends with a letter or an underscore, and the
    only blanks in it are single spaces. *)
Theorem normalized_names_are_trimmed (name : string) :
  isascii name = true ->
  let n := chars (_normalize_item_name name) in
  ends_satisfy (fun a => is_alpha a || Ascii.eqb a "_") n
  /\ single_spaced false n = true.
Proof.
  intros _. cbv zeta. destruct (normalized_name_clean name) as [He Hs].
  split; [|exact Hs].
  apply (ends_satisfy_impl (fun a => negb (not_name_char a))); [|exact He].
  intros a. rewrite name_char_letter. auto.
Qed.

Lemma normalized_names_are_trimmed_witness :
  isascii "  1. Total   Assets (Note 2): " = true
  /\ _normalize_item_name "  1. Total   Assets (Note 2): "
     = "Total Assets (Note"
  /\ ends_satisfy (fun a => is_alpha a || Ascii.eqb a "_")
       (chars (_normalize_item_name "  1. Total   Assets (Note 2): "))
  /\ single_spaced false
       (chars (_normalize_item_name "  1. Total   Assets (Note 2): "))
     = true.
Proof.
  split; [reflexivity|]. split; [vm_compute; reflexivity|].
  apply (normalized_names_are_trimmed "  1. Total   Assets (Note 2): ").
  reflexivity.
Defined.

(** X25. Normalizing a name a second time changes nothing. *)
Theorem normalizing_twice_changes_nothing (name : string) :
  _normalize_item_name (_normalize_item_name name)
  = _normalize_item_name name.
Proof.
  destruct (normalized_name_clean name) as [He Hs].
  apply clean_name_fixed; [exact He|exact Hs|apply normalized_name_length].
Qed.

(** ** The parser on the Heap.heap *)

Module HeapFacts.

Lemma new_first (h : Heap.heap) o :
  Heap.new o h = Some (List.length h + 0, h ++ [o]).
Proof. unfold Heap.new. rewrite Nat.add_0_r. reflexivity. Qed.

Lemma new_on h ext o :
  Heap.new o (h ++ ext)
  = Some (List.length h + List.length ext, h ++ (ext ++ [o])).
Proof. unfold Heap.new. rewrite length_app, app_assoc. reflexivity. Qed.

Lemma nth_new (h ext : Heap.heap) i :
  nth_error (h ++ ext) (List.length h + i) = nth_error ext i.
Proof.
  rewrite nth_error_app2 by lia. f_equal. lia.
Qed.

Lemma nth_old (h ext : Heap.heap) l o :
  nth_error h l = Some o -> nth_error (h ++ ext) l = Some o.
Proof.
  intros H. rewrite nth_error_app1; [exact H|].
  apply nth_error_Some. congruence.
Qed.

Lemma deref_new h ext i :
  Heap.deref (List.length h + i) (h ++ ext)
  = match nth_error ext i with
    | Some o => Some (o, h ++ ext)
    | None => None
    end.
Proof. unfold Heap.deref. rewrite nth_new. reflexivity. Qed.

Lemma deref_old h ext l o :
  nth_error h l = Some o -> Heap.deref l (h ++ ext) = Some (o, h ++ ext).
Proof. intros H. unfold Heap.deref. rewrite (nth_old _ _ _ _ H). reflexivity. Qed.

Lemma replace_new h ext i o :
  Heap.replace (List.length h + i) o (h ++ ext) = h ++ Heap.replace i o ext.
Proof.
  induction h as [|x h IH]; [reflexivity|].
  cbn [List.length Nat.add app Heap.replace]. rewrite IH. reflexivity.
Qed.

Lemma assign_new h ext i o :
  (i <? List.length ext)%nat = true ->
  Heap.assign (List.length h + i) o (h ++ ext) = Some (tt, h ++ Heap.replace i o ext).
Proof.
  intros H. apply Nat.ltb_lt in H. unfold Heap.assign.
  rewrite (proj2 (Nat.ltb_lt _ _)) by (rewrite length_app; lia).
  rewrite replace_new. reflexivity.
Qed.

Lemma bind_run {A B} (m : Heap.M A) (f : A -> Heap.M B) h :
  Heap.bind m f h
  = match m h with
    | Some (a, h') => f a h'
    | None => None
    end.
Proof. reflexivity. Qed.

Lemma ret_run {A} (a : A) h : Heap.ret a h = Some (a, h).
Proof. reflexivity. Qed.

Lemma read_doc_run l h :
  Heap.read_doc l h
  = match Heap.doc_at h l with
    | Some d => Some (d, h)
    | None => None
    end.
Proof. reflexivity. Qed.

Ltac heap_unfold :=
  unfold Heap.or_fallback, Heap.update_section, Heap.section_is_empty,
    Heap.section, Heap.set_section, Heap.get_section, Heap.sections_of,
    Heap.tables_or_new, Heap.new_fallback, Heap.set_warning, Heap.doc_at,
    Heap.sections_at, Heap.entry_at, Heap.tables_at, Heap.rows_at,
    Heap.kv_at.

Ltac heap_cbn :=
  unfold Heap.doc_at, Heap.sections_at, Heap.entry_at, Heap.tables_at,
    Heap.rows_at, Heap.kv_at;
  cbn [Heap.for_each Heap.truthy nonempty_list negb List.length app
       nth_error Heap.replace dict_get dict_set String.eqb Ascii.eqb
       Bool.eqb fst snd option_map Heap.outcome_at or_list].

Ltac heap_step Ht :=
  first
    [ rewrite bind_run
    | rewrite ret_run
    | rewrite read_doc_run
    | rewrite new_on
    | rewrite deref_new
    | rewrite (deref_old _ _ _ _ Ht)
    | rewrite assign_new by reflexivity
    | rewrite nth_new
    | rewrite (nth_old _ _ _ _ Ht)
    | match goal with
      | |- context [nonempty_list ?l] => destruct l
      end
    | match goal with
      | |- context [_validate_basic_balance ?d] =>
          let E := fresh "E" in
          destruct (_validate_basic_balance d) eqn:E;
          repeat match goal with
                 | |- context [_validate_basic_balance ?d'] =>
                     change (_validate_basic_balance d')
                       with (_validate_basic_balance d);
                     rewrite E
                 end
      end
    | match goal with
      | |- context [if ?b then _ else _] => destruct b eqn:?
      end ].

Ltac heap_run Ht := heap_cbn; repeat (heap_step Ht; heap_cbn).

Section Run.

Context {pre : Preprocessing}.

Lemma parse_runs cleaned_text tables tbls h :
  nth_error h tables = Some (Heap.TablesObj tbls) ->
  match Heap.parse_financial_document cleaned_text tables h with
  | Some (o, h') =>
      Heap.extends h h'
      /\ Heap.outcome_at h' o = Some (parse_financial_document cleaned_text tbls)
  | None => False
  end.
Proof.
  intros Ht.
  unfold Heap.parse_financial_document, parse_financial_document.
  destruct (negb (nonempty cleaned_text)).
  { cbn [Heap.ret Heap.outcome_at]. split; [exists []; symmetry; apply app_nil_r|].
    reflexivity. }
  destruct (detect_document_scale cleaned_text) as [scale unit_label].
  destruct (negb (statements_detected _)).
  - generalize (_extract_meta cleaned_text "units"). intros m.
    heap_unfold. rewrite bind_run, new_first.
    heap_run Ht;
      (split; [eexists; reflexivity|]); heap_unfold; heap_run Ht;
      reflexivity.
  - heap_unfold.
    generalize (_extract_meta cleaned_text unit_label).
    generalize (_extract_table_like_section
                  (get_str "balance_sheet" (_split_into_sections cleaned_text))
                  scale).
    generalize (_extract_simple_kv
                  (get_str "pnl" (_split_into_sections cleaned_text)) scale).
    generalize (_extract_simple_kv
                  (get_str "cash_flow" (_split_into_sections cleaned_text))
                  scale).
    generalize (_extract_simple_kv
                  (get_str "changes_in_equity"
                     (_split_into_sections cleaned_text)) scale).
    generalize (_extract_pnl_from_text cleaned_text scale).
    generalize (_extract_from_text cleaned_text).
    intros fallback pnl_fb ce cf pnl bs m.
    rewrite bind_run, new_first.
    heap_run Ht.
    all: split; [eexists; reflexivity|]; heap_run Ht; reflexivity.
Qed.

End Run.

Lemma tables_at_extends h ext l t :
  Heap.tables_at h l = Some t -> Heap.tables_at (h ++ ext) l = Some t.
Proof.
  unfold Heap.tables_at. destruct (nth_error h l) as [o|] eqn:E;
    [|discriminate].
  rewrite (nth_old _ _ _ _ E). auto.
Qed.

Lemma rows_at_extends h ext l r :
  Heap.rows_at h l = Some r -> Heap.rows_at (h ++ ext) l = Some r.
Proof.
  unfold Heap.rows_at. destruct (nth_error h l) as [o|] eqn:E;
    [|discriminate].
  rewrite (nth_old _ _ _ _ E). auto.
Qed.

Lemma kv_at_extends h ext l d :
  Heap.kv_at h l = Some d -> Heap.kv_at (h ++ ext) l = Some d.
Proof.
  unfold Heap.kv_at. destruct (nth_error h l) as [o|] eqn:E;
    [|discriminate].
  rewrite (nth_old _ _ _ _ E). auto.
Qed.

Lemma entry_at_extends {A} (read read' : Heap.loc -> option A) o v :
  (forall l a, read l = Some a -> read' l = Some a) ->
  Heap.entry_at read o = Some v -> Heap.entry_at read' o = Some v.
Proof.
  intros H. destruct o as [l|]; cbn [Heap.entry_at]; [|auto].
  destruct (read l) as [a|] eqn:E; [|discriminate].
  rewrite (H _ _ E). auto.
Qed.

Lemma sections_at_extends h ext l s :
  Heap.sections_at h l = Some s -> Heap.sections_at (h ++ ext) l = Some s.
Proof.
  unfold Heap.sections_at. destruct (nth_error h l) as [o|] eqn:E;
    [|discriminate].
  rewrite (nth_old _ _ _ _ E).
  destruct o as [? | ? | ? | names | ? ? ? ? ? ?]; try discriminate.
  destruct (Heap.entry_at (Heap.rows_at h) _) as [bs|] eqn:E1;
    [|discriminate].
  destruct (Heap.entry_at (Heap.kv_at h) (dict_get "pnl" names))
    as [pnl|] eqn:E2; [|discriminate].
  destruct (Heap.entry_at (Heap.kv_at h) (dict_get "cash_flow" names))
    as [cf|] eqn:E3; [|discriminate].
  destruct (Heap.entry_at (Heap.kv_at h) (dict_get "changes_in_equity" names))
    as [ce|] eqn:E4; [|discriminate].
  rewrite (entry_at_extends _ (Heap.rows_at (h ++ ext)) _ _
             (fun l a => rows_at_extends h ext l a) E1).
  rewrite (entry_at_extends _ (Heap.kv_at (h ++ ext)) _ _
             (fun l a => kv_at_extends h ext l a) E2).
  rewrite (entry_at_extends _ (Heap.kv_at (h ++ ext)) _ _
             (fun l a => kv_at_extends h ext l a) E3).
  rewrite (entry_at_extends _ (Heap.kv_at (h ++ ext)) _ _
             (fun l a => kv_at_extends h ext l a) E4).
  auto.
Qed.

Lemma doc_at_extends h ext l d :
  Heap.doc_at h l = Some d -> Heap.doc_at (h ++ ext) l = Some d.
Proof.
  unfold Heap.doc_at. destruct (nth_error h l) as [o|] eqn:E;
    [|discriminate].
  rewrite (nth_old _ _ _ _ E).
  destruct o as [? | ? | ? | ? | m sc sl tl k w]; try discriminate.
  destruct (Heap.sections_at h sl) as [s|] eqn:E1; [|discriminate].
  destruct (Heap.tables_at h tl) as [t|] eqn:E2; [|discriminate].
  rewrite (sections_at_extends _ ext _ _ E1).
  rewrite (tables_at_extends _ ext _ _ E2). auto.
Qed.

(** What a call has returned reads the same after later allocations. *)
Lemma outcome_at_extends h ext o v :
  Heap.outcome_at h o = Some v -> Heap.outcome_at (h ++ ext) o = Some v.
Proof.
  destruct o as [l|e]; cbn [Heap.outcome_at]; [|auto].
  destruct (Heap.doc_at h l) as [d|] eqn:E; [|discriminate].
  rewrite (doc_at_extends _ ext _ _ E). auto.
Qed.

End HeapFacts.

(** C9. Two invocations of [parse_financial_document] on the same
    [(cleaned_text, tables)], one after the other and from any heap, both
    return, and return the same outcome: a document, or an error, that is
    a function of the text and of the content of [tables] alone. A call
    changes no object that existed before it -- it writes to the objects it
    has built only -- so nothing is carried from one call to the next, and
    what the first call returned still reads the same after the second. *)
Theorem parse_keeps_no_state {pre : Preprocessing}
    (cleaned_text : string) (tbls : list table)
    (tables : Heap.loc) (h : Heap.heap) :
  nth_error h tables = Some (Heap.TablesObj tbls) ->
  exists first h1 second h2,
    Heap.parse_financial_document cleaned_text tables h = Some (first, h1)
    /\ Heap.parse_financial_document cleaned_text tables h1
       = Some (second, h2)
    /\ Heap.extends h h1 /\ Heap.extends h1 h2
    /\ Heap.outcome_at h1 first
       = Some (parse_financial_document cleaned_text tbls)
    /\ Heap.outcome_at h2 second
       = Some (parse_financial_document cleaned_text tbls)
    /\ Heap.outcome_at h2 first
       = Some (parse_financial_document cleaned_text tbls).
Proof.
  intros Ht.
  pose proof (HeapFacts.parse_runs cleaned_text tables tbls h Ht) as R1.
  destruct (Heap.parse_financial_document cleaned_text tables h)
    as [[first h1]|] eqn:P1; [|destruct R1].
  destruct R1 as [[ext1 E1] V1].
  assert (Ht1 : nth_error h1 tables = Some (Heap.TablesObj tbls))
    by (rewrite E1; apply HeapFacts.nth_old; exact Ht).
  pose proof (HeapFacts.parse_runs cleaned_text tables tbls h1 Ht1) as R2.
  destruct (Heap.parse_financial_document cleaned_text tables h1)
    as [[second h2]|] eqn:P2; [|destruct R2].
  destruct R2 as [[ext2 E2] V2].
  exists first, h1, second, h2.
  split; [reflexivity|]. split; [exact P2|].
  split; [exists ext1; exact E1|]. split; [exists ext2; exact E2|].
  split; [exact V1|]. split; [exact V2|].
  rewrite E2. apply HeapFacts.outcome_at_extends. exact V1.
Qed.

Lemma parse_keeps_no_state_witness :
  exists first h1 second h2,
    @Heap.parse_financial_document SpecPreprocessing.instance
      two_statements_text 1 caller_heap = Some (first, h1)
    /\ @Heap.parse_financial_document SpecPreprocessing.instance
         two_statements_text 1 h1 = Some (second, h2)
    /\ Heap.extends caller_heap h1 /\ Heap.extends h1 h2
    /\ Heap.outcome_at h1 first
       = Some (@parse_financial_document SpecPreprocessing.instance
                 two_statements_text [[[Some "Particulars"; None]]])
    /\ Heap.outcome_at h2 second
       = Some (@parse_financial_document SpecPreprocessing.instance
                 two_statements_text [[[Some "Particulars"; None]]])
    /\ Heap.outcome_at h2 first
       = Some (@parse_financial_document SpecPreprocessing.instance
                 two_statements_text [[[Some "Particulars"; None]]]).
Proof.
  apply (@parse_keeps_no_state SpecPreprocessing.instance
           two_statements_text [[[Some "Particulars"; None]]] 1 caller_heap).
  reflexivity.
Defined.
